(** * Christmas-Tree: layout, mode machine, focus, pose blending, camera

    The development follows the TypeScript sources:
    - [types.ts]            : [AppMode], [HandGestureData], [ParticleData];
    - [utils/geometry.ts]   : [generateParticles];
    - [App.tsx]             : [useDebouncedState], [handleGestureUpdate],
                              [handlePhotoUpload] and the regeneration effect;
    - [components/HandManager.tsx] : [predict] and the callback it holds;
    - [components/Visuals.tsx] : [ParticleInstance], [PhotoFrame],
                              [FocusManager], [CameraRig] and the keyed
                              list of particle meshes.

    JavaScript numbers are modelled as real numbers (the idealisation of IEEE
    doubles: no rounding, no NaN, no signed zero).  [Math.random] is an
    oracle: a stream of reals read through a counter.  Timers are modelled
    with integer milliseconds.  The functions of three.js and React that
    the sources call ([Vector3], [Matrix4.lookAt], [Euler], state setters,
    effects, keyed children) are written out as the libraries define
    them. *)

From Stdlib Require Import Reals Lra Lia ZArith List String Bool.
From Stdlib Require Import Ascii DecimalString DecimalNat.
Import ListNotations.

Set Implicit Arguments.

(* ================================================================== *)
(** * Part I : definitions                                             *)
(* ================================================================== *)

(** ** JavaScript and three.js primitives used by the sources *)

Class EqDec (T : Type) := eq_dec : forall a b : T, {a = b} + {a <> b}.

Module JS.

(** Truthiness of a value of type [string | null]: [null] and the empty
    string are falsy. *)
Definition truthy (s : option string) : bool :=
  match s with
  | None => false
  | Some v => negb (String.eqb v EmptyString)
  end.

(** [a === b] for [a : string] and [b : string | null]. *)
Definition strict_eq (a : string) (b : option string) : bool :=
  match b with
  | None => false
  | Some v => String.eqb a v
  end.

(** [x || 0] on numbers: [0] is the only falsy real. *)
Definition or_zero (v : R) : R := if Req_dec_T v 0 then 0%R else v.

Definition gtb (a b : R) : bool := if Rgt_dec a b then true else false.

(** Template literal [`${prefix}${i}`] for a non-negative integer [i]. *)
Definition template (prefix : string) (i : nat) : string :=
  (prefix ++ NilEmpty.string_of_uint (Nat.to_uint i))%string.

End JS.

Module Math.
Open Scope R_scope.

Definition PI : R := Rtrigo1.PI.

(** [Math.pow(b, e)]: both call sites pass a positive base ([1 - t] with
    [t < 1]), where it is [exp (e * ln b)]; a zero base with a positive
    exponent gives [0]. *)
Definition pow (b e : R) : R := if Rlt_dec 0 b then Rpower b e else 0.

Definition sqrt (v : R) : R := R_sqrt.sqrt v.

Definition cbrt (v : R) : R :=
  if Rlt_dec 0 v then Rpower v (/ 3)
  else if Rlt_dec v 0 then - Rpower (- v) (/ 3)
  else 0.

Definition cos (v : R) : R := Rtrigo_def.cos v.
Definition sin (v : R) : R := Rtrigo_def.sin v.
Definition acos (v : R) : R := Ratan.acos v.

(** [Math.floor], as an array index. *)
Definition floor (v : R) : Z := Int_part v.

(** [Math.atan2(dy, dx)]. *)
Definition atan2 (dy dx : R) : R :=
  if Rlt_dec 0 dx then atan (dy / dx)
  else if Rlt_dec dx 0 then
    if Rlt_dec dy 0 then atan (dy / dx) - PI else atan (dy / dx) + PI
  else if Rlt_dec 0 dy then PI / 2
  else if Rlt_dec dy 0 then - (PI / 2)
  else 0.

Definition asin (v : R) : R := Ratan.asin v.

Definition abs (v : R) : R := Rabs v.

Definition ltb (a b : R) : bool := if Rlt_dec a b then true else false.

End Math.

Definition V3 : Type := (R * R * R)%type.

Module THREE.
Open Scope R_scope.

Definition vx (v : V3) : R := fst (fst v).
Definition vy (v : V3) : R := snd (fst v).
Definition vz (v : V3) : R := snd v.

(** [Vector3.length]. *)
Definition length (v : V3) : R :=
  Math.sqrt (vx v * vx v + vy v * vy v + vz v * vz v).

(** [Vector3.normalize]: [divideScalar(length() || 1)]. *)
Definition normalize (v : V3) : V3 :=
  let l := if Req_dec_T (length v) 0 then 1 else length v in
  (vx v / l, vy v / l, vz v / l).

(** [Vector3.dot]. *)
Definition dot (a b : V3) : R := vx a * vx b + vy a * vy b + vz a * vz b.

(** [Vector3.lerp(v, alpha)]: [this += (v - this) * alpha], per component. *)
Definition lerp (this v : V3) (alpha : R) : V3 :=
  (vx this + (vx v - vx this) * alpha,
   vy this + (vy v - vy this) * alpha,
   vz this + (vz v - vz this) * alpha).

(** [MathUtils.lerp(x, y, t)]. *)
Definition MathUtils_lerp (a b t : R) : R := (1 - t) * a + t * b.

(** [Vector3.lengthSq], [subVectors] and [crossVectors]. *)
Definition lengthSq (v : V3) : R := vx v * vx v + vy v * vy v + vz v * vz v.

Definition sub (a b : V3) : V3 := (vx a - vx b, vy a - vy b, vz a - vz b).

Definition cross (a b : V3) : V3 :=
  (vy a * vz b - vz a * vy b,
   vz a * vx b - vx a * vz b,
   vx a * vy b - vy a * vx b).

(** [MathUtils.clamp(value, min, max)]. *)
Definition MathUtils_clamp (value min max : R) : R :=
  Rmax min (Rmin max value).

(** The rotation part of a [Matrix4], by columns: the images of the [x],
    [y] and [z] axes.  In the element names of three.js, [xAxis] is
    [(m11, m21, m31)], [yAxis] is [(m12, m22, m32)] and [zAxis] is
    [(m13, m23, m33)].  The orientation that an object holds as a
    quaternion is written as the rotation matrix it stands for. *)
Record Matrix4 : Type := mkMatrix4 {
  xAxis : V3;
  yAxis : V3;
  zAxis : V3
}.

(** [Object3D.DEFAULT_UP], the [up] of every object of the scene. *)
Definition DEFAULT_UP : V3 := (0, 1, 0).

(** [Matrix4.lookAt(eye, target, up)]. *)
Definition Matrix4_lookAt (eye target up : V3) : Matrix4 :=
  let z0 := sub eye target in
  let z1 := if Req_dec_T (lengthSq z0) 0 then (vx z0, vy z0, 1) else z0 in
  let z2 := normalize z1 in
  let x0 := cross up z2 in
  let z3 :=
    if Req_dec_T (lengthSq x0) 0
    then normalize
           (if Req_dec_T (Rabs (vz up)) 1
            then (vx z2 + 0.0001, vy z2, vz z2)
            else (vx z2, vy z2, vz z2 + 0.0001))
    else z2 in
  let x1 := if Req_dec_T (lengthSq x0) 0 then cross up z3 else x0 in
  let x2 := normalize x1 in
  mkMatrix4 x2 (cross z3 x2) z3.

(** [Euler.setFromRotationMatrix(m)] in the default order ['XYZ']. *)
Definition Euler_setFromRotationMatrix (m : Matrix4) : V3 :=
  let m11 := vx (xAxis m) in
  let m12 := vx (yAxis m) in
  let m13 := vx (zAxis m) in
  let m22 := vy (yAxis m) in
  let m23 := vy (zAxis m) in
  let m32 := vz (yAxis m) in
  let m33 := vz (zAxis m) in
  let y := Math.asin (MathUtils_clamp m13 (-1) 1) in
  if Math.ltb (Math.abs m13) 0.9999999
  then (Math.atan2 (- m23) m33, y, Math.atan2 (- m12) m11)
  else (Math.atan2 m32 m22, y, 0).

(** [Matrix4.makeRotationFromEuler(euler)] in the order ['XYZ']: the
    orientation that [Quaternion.setFromEuler] stores. *)
Definition Matrix4_makeRotationFromEuler (euler : V3) : Matrix4 :=
  let a := Math.cos (vx euler) in
  let b := Math.sin (vx euler) in
  let c := Math.cos (vy euler) in
  let d := Math.sin (vy euler) in
  let e := Math.cos (vz euler) in
  let f := Math.sin (vz euler) in
  mkMatrix4
    (c * e, a * f + b * e * d, b * f - a * e * d)
    (- c * f, a * e - b * f * d, b * e + a * f * d)
    (d, - b * c, a * c).

(** [Object3D.lookAt(target)] on an object at [position] without a
    rotated parent: a camera turns its back ([+z]) away from the target,
    any other object turns its front ([+z]) to it. *)
Definition Camera_lookAt (position target : V3) : Matrix4 :=
  Matrix4_lookAt position target DEFAULT_UP.

Definition Mesh_lookAt (position target : V3) : Matrix4 :=
  Matrix4_lookAt target position DEFAULT_UP.

End THREE.

(** ** [types.ts] *)

Inductive AppMode : Type := TREE | SCATTER | ZOOM.

#[export] Instance AppMode_EqDec : EqDec AppMode.
Proof. intros a b; unfold EqDec; decide equality. Defined.

Definition AppMode_eqb (a b : AppMode) : bool :=
  if eq_dec a b then true else false.

Module HandGestureData.
(** [gesture] is kept as the string the recognizer hands over: the
    [switch] of [handleGestureUpdate] has a [default] branch. *)
Record t : Type := mk {
  gesture : string;
  x : R;
  y : R;
  z : R;
  rotation : R
}.
End HandGestureData.

Inductive ParticleType : Type :=
  sphere | cube | photo | diamond | snowflake | bell | star.

#[export] Instance ParticleType_EqDec : EqDec ParticleType.
Proof. intros a b; unfold EqDec; decide equality. Defined.

Definition ParticleType_eqb (a b : ParticleType) : bool :=
  if eq_dec a b then true else false.

Module ParticleData.
Record t : Type := mk {
  id : string;
  type : ParticleType;
  treePos : V3;
  scatterPos : V3;
  color : string;
  textureUrl : option string;
  rotation : V3;
  scale : R
}.
End ParticleData.

(** ** [utils/geometry.ts] *)

Module Geometry.
Open Scope R_scope.

Definition COUNT : nat := 1200.
Definition RADIUS_BASE : R := 9.0.
Definition HEIGHT : R := 24.

(** The festive palette ([colors] and [allColors]). *)
Definition colors_gold : list string :=
  ["#FFD700"; "#FDB931"; "#D4AF37"]%string.
Definition colors_red : list string :=
  ["#8B0000"; "#DC143C"; "#B22222"]%string.
Definition colors_green : list string :=
  ["#006400"; "#228B22"; "#556B2F"]%string.
Definition colors_silver : list string :=
  ["#C0C0C0"; "#E5E4E2"; "#FFFFFF"]%string.
Definition colors_blue : list string := ["#87CEEB"; "#E0FFFF"]%string.

Definition allColors : list string :=
  colors_gold ++ colors_red ++ colors_green ++ colors_silver.

(** [arr[k]] for a string array; an index outside the array reads
    [undefined].  [Math.random] lies in [0, 1), so the indices computed by
    the generator are inside the array. *)
Definition at_index (arr : list string) (k : Z) : string :=
  if (k <? 0)%Z then "undefined"%string
  else nth (Z.to_nat k) arr "undefined"%string.

(** The generator is imperative code over two pieces of state: the
    [particles] array it pushes to, and the position in the stream of
    [Math.random] results. *)
Record GenState : Type := mkGen {
  draws : nat;
  particles : list ParticleData.t
}.

Definition Gen (A : Type) : Type := GenState -> A * GenState.

Definition ret {A : Type} (a : A) : Gen A := fun s => (a, s).

Definition bind {A B : Type} (m : Gen A) (k : A -> Gen B) : Gen B :=
  fun s => let (a, s') := m s in k a s'.

Notation "x <- m ;; k" := (bind m (fun x => k))
  (at level 61, m at next level, right associativity).
Notation "m ;;; k" := (bind m (fun _ => k))
  (at level 61, right associativity).

(** [Math.random()]: the next element of the oracle stream. *)
Definition random (rand : nat -> R) : Gen R :=
  fun s => (rand (draws s), mkGen (S (draws s)) (particles s)).

(** [particles.push(p)]. *)
Definition push (p : ParticleData.t) : Gen unit :=
  fun s => (tt, mkGen (draws s) (particles s ++ [p])).

(** [for (let i = from; i < from + count; i++) body(i)]. *)
Fixpoint for_loop (from count : nat) (body : nat -> Gen unit) : Gen unit :=
  match count with
  | O => ret tt
  | S c => body from ;;; for_loop (S from) c body
  end.

(** The scatter position shared by both loops: a point in the ball of
    radius [radius], drawn with three calls to [Math.random]. *)
Definition scatterPoint (rand : nat -> R) (radius : R) : Gen V3 :=
  u1 <- random rand ;;
  let rScatter := radius * Math.cbrt u1 in
  u2 <- random rand ;;
  let sTheta := u2 * Math.PI * 2 in
  u3 <- random rand ;;
  let sPhi := Math.acos ((u3 * 2) - 1) in
  let sx := rScatter * Math.sin sPhi * Math.cos sTheta in
  let sy := rScatter * Math.sin sPhi * Math.sin sTheta in
  let sz := rScatter * Math.cos sPhi in
  ret (sx, sy, sz).

(** Step 1, the body of the photo loop (the helix on the surface). *)
Definition photoT (helixCount i : nat) : R :=
  let rawT := INR i / INR helixCount in
  0.05 + (rawT * 0.8).

Definition photoTheta (helixCount i : nat) : R :=
  let frequency := 8.0 in
  photoT helixCount i * Math.PI * 2 * frequency.

Definition photoRadius (helixCount i : nat) : R :=
  let heightFactor := Math.pow (1 - photoT helixCount i) 0.8 in
  heightFactor * RADIUS_BASE + 3.0.

Definition photoTreePos (helixCount i : nat) : V3 :=
  let t := photoT helixCount i in
  let y := ((t * HEIGHT) - (HEIGHT / 2)) * 0.8 in
  let theta := photoTheta helixCount i in
  let r := photoRadius helixCount i in
  let x := Math.cos theta * r in
  let z := Math.sin theta * r in
  (x, y, z).

Definition photoBody (rand : nat -> R) (photos : list string) (i : nat)
  : Gen unit :=
  let helixCount := List.length photos in
  let theta := photoTheta helixCount i in
  s <- scatterPoint rand 15 ;;
  push (ParticleData.mk
          (JS.template "p-photo-" i)
          photo
          (photoTreePos helixCount i)
          s
          "#FFD700"
          (nth_error photos i)
          (0, - theta + Math.PI / 2, 0)
          0.8).

(** Step 2, the decoration type of an ornament: the draw [rand] against
    the cumulative thresholds, starting from the defaults [type0 = sphere],
    [scale0] and [color0]. *)
Definition decoration (rand : nat -> R) (scale0 : R) (color0 : string)
  : Gen (ParticleType * string * R) :=
  r <- random rand ;;
  if JS.gtb r 0.95 then
    u <- random rand ;;
    ret (snowflake,
         at_index colors_silver
           (Math.floor (u * INR (List.length colors_silver))),
         0.6)
  else if JS.gtb r 0.90 then
    ret (bell, "#FFD700"%string, 0.7)
  else if JS.gtb r 0.85 then
    ret (cube, at_index colors_red 0, 0.8)
  else
    u <- random rand ;;
    ret (sphere, color0, if JS.gtb u 0.8 then 0.7 else scale0).

Definition ornamentBody (rand : nat -> R) (i : nat) : Gen unit :=
  let t := INR i / INR COUNT in
  let angle := INR i * 2.39996 in
  let y := (t * HEIGHT) - (HEIGHT / 2) in
  let heightFactor := Math.pow (1 - t) 0.9 in
  let maxRadiusAtHeight := heightFactor * RADIUS_BASE in
  u <- random rand ;;
  let r := maxRadiusAtHeight * Math.sqrt (u * 0.9 + 0.1) in
  let x := Math.cos angle * r in
  let z := Math.sin angle * r in
  s <- scatterPoint rand 18 ;;
  us <- random rand ;;
  let scale0 := us * 0.3 + 0.3 in
  uc <- random rand ;;
  let color0 :=
    at_index allColors (Math.floor (uc * INR (List.length allColors))) in
  d <- decoration rand scale0 color0 ;;
  let '(type, color, scale) := d in
  r1 <- random rand ;;
  r2 <- random rand ;;
  push (ParticleData.mk
          (JS.template "p-" i)
          type
          (x, y, z)
          s
          color
          None
          (r1 * Math.PI, r2 * Math.PI, 0)
          scale).

(** The top star. *)
Definition topStar : ParticleData.t :=
  ParticleData.mk "star" star (0, HEIGHT / 2 + 1.0, 0) (0, 0, 0)
    "#FFD700" None (0, 0, 0) 1.5.

Definition generate (rand : nat -> R) (photos : list string) : Gen unit :=
  (if (0 <? List.length photos)%nat
   then for_loop 0 (List.length photos) (photoBody rand photos)
   else ret tt) ;;;
  for_loop 0 COUNT (ornamentBody rand) ;;;
  push topStar.

(** [generateParticles(photos)], for the stream [rand] that [Math.random]
    returns during the call. *)
Definition generateParticles (rand : nat -> R) (photos : list string)
  : list ParticleData.t :=
  particles (snd (generate rand photos (mkGen 0 []))).

End Geometry.


(** ** [App.tsx]: the debounce hook *)

Module React.

(** The argument of a state setter: a value, or an updater applied to the
    state the setter owns. *)
Inductive SetStateAction (T : Type) : Type :=
| Value (v : T)
| Updater (f : T -> T).

Arguments Value {T} v.
Arguments Updater {T} f.

Definition resolve {T : Type} (a : SetStateAction T) (prev : T) : T :=
  match a with
  | Value v => v
  | Updater f => f prev
  end.

End React.

Module Debounce.
Import React.
Open Scope Z_scope.

(** The two [useState] cells of [useDebouncedState] and the timeout armed
    by its effect: [handler = Some d] is a pending [setTimeout] that fires
    at time [d]; [None] means the timeout has fired.  [commits] is the
    history of the calls [setState(tempState)] made by the timeout, each
    with the time it was due. *)
Record t (T : Type) : Type := mk {
  state : T;
  tempState : T;
  handler : option Z;
  commits : list (Z * T)
}.

Arguments mk {T} state tempState handler commits.

(** First render at time [now]: both cells hold [initialValue] and the
    effect arms the timeout. *)
Definition useDebouncedState {T : Type} (initialValue : T) (delay now : Z)
  : t T :=
  mk initialValue initialValue (Some (now + delay)) [].

(** The timeout callback [() => setState(tempState)], run when the clock
    has reached its due time.  The re-render that follows leaves
    [tempState] and [delay] unchanged, so the effect does not run again. *)
Definition fire {T : Type} (now : Z) (s : t T) : t T :=
  match handler s with
  | Some d =>
      if d <=? now
      then mk (tempState s) (tempState s) None
              (commits s ++ [(d, tempState s)])
      else s
  | None => s
  end.

(** [setTempState(a)] at time [now] (the second component returned by the
    hook).  A timeout already due has run.  React resolves the action
    against the current [tempState]; when the result is the same value it
    bails out and the effect is left alone; otherwise the effect's cleanup
    clears the timeout and the effect arms a new one for the new value. *)
Definition setTempState {T : Type} `{EqDec T} (delay now : Z)
  (a : SetStateAction T) (s : t T) : t T :=
  let s1 := fire now s in
  let v := resolve a (tempState s1) in
  if eq_dec v (tempState s1) then s1
  else mk (state s1) v (Some (now + delay)) (commits s1).

(** A run of the hook over time-stamped setter calls. *)
Fixpoint run {T : Type} `{EqDec T} (delay : Z)
  (evs : list (Z * SetStateAction T)) (s : t T) : t T :=
  match evs with
  | [] => s
  | (now, a) :: rest => run delay rest (setTempState delay now a s)
  end.

(** The first component returned by the hook, read at time [now]. *)
Definition committed {T : Type} (now : Z) (s : t T) : T :=
  state (fire now s).



(** Time stamps in non-decreasing order, none before [from]. *)
Fixpoint chronological {A : Type} (from : Z) (evs : list (Z * A)) : Prop :=
  match evs with
  | [] => True
  | (te, _) :: rest => from <= te /\ chronological te rest
  end.

End Debounce.

(** ** [App.tsx]: the component state and its handlers *)

Module App.
Import React.
Open Scope R_scope.

Record HandPos : Type := mkHandPos {
  hx : R;
  hy : R;
  hz : R;
  hrotation : R
}.

Record t : Type := mk {
  mode : Debounce.t AppMode;
  handPos : HandPos;
  photos : list string;
  particles : list ParticleData.t;
  hoveredPhotoId : option string
}.

(** The debounce delay passed to [useDebouncedState]. *)
Definition delay : Z := 300.

(** First render at time [now], with the two mount effects run: the
    debounce timeout is armed and the particles are generated for the
    empty photo list. *)
Definition init (rand : nat -> R) (now : Z) : t :=
  mk (Debounce.useDebouncedState TREE delay now)
     (mkHandPos 0.5 0.5 0 0)
     []
     (Geometry.generateParticles rand [])
     None.

(** The [switch] of [handleGestureUpdate]: the action handed to [setMode].
    [setMode] is the setter returned by [useDebouncedState], that is,
    [setTempState]. *)
Definition gestureAction (hoveredPhotoId : option string)
  (data : HandGestureData.t) : SetStateAction AppMode :=
  let g := HandGestureData.gesture data in
  if String.eqb g "Closed_Fist" then
    Updater (fun currentMode =>
      if negb (AppMode_eqb currentMode ZOOM) && JS.truthy hoveredPhotoId
      then ZOOM
      else TREE)
  else if String.eqb g "Open_Palm" then Value SCATTER
  else if String.eqb g "Pinch" then Value ZOOM
  else if String.eqb g "Pointing_Up" then Value TREE
  else if String.eqb g "Unknown" then Value TREE
  else Value TREE.

(** [handleGestureUpdate(data)] at time [now].  [useCallback] creates
    the function anew in every render in which [hoveredPhotoId] has
    changed; [hoveredPhotoId] is the value the function closed over, the
    focus id of the render that created it, whatever the focus id is when
    the function is called. *)
Definition handleGestureUpdate (hoveredPhotoId : option string) (now : Z)
  (data : HandGestureData.t) (app : t) : t :=
  mk (Debounce.setTempState delay now
        (gestureAction hoveredPhotoId data) (mode app))
     (mkHandPos (HandGestureData.x data) (HandGestureData.y data)
        (JS.or_zero (HandGestureData.z data))
        (HandGestureData.rotation data))
     (photos app)
     (particles app)
     (App.hoveredPhotoId app).

(** The raw decision of one sample: the value [setMode] resolves to, for
    the callback that closed over [hoveredPhotoId]. *)
Definition rawDecision (hoveredPhotoId : option string)
  (data : HandGestureData.t) (app : t) : AppMode :=
  resolve (gestureAction hoveredPhotoId data)
          (Debounce.tempState (mode app)).

(** The mode the application is in: the [mode] handed to [Visuals] and to
    [Controls] as [currentMode]. *)
Definition currentMode (now : Z) (app : t) : AppMode :=
  Debounce.committed now (mode app).

(** [handlePhotoUpload(files)]: [files] is the list of object URLs created
    for the uploaded files, in order. *)
Definition handlePhotoUpload (files : list string) (app : t) : t :=
  mk (mode app) (handPos app) (photos app ++ files) (particles app)
     (hoveredPhotoId app).

(** The effect on [photos]: it runs after every render in which [photos]
    is a new array. *)
Definition regenerateEffect (rand : nat -> R) (app : t) : t :=
  if (0 <? List.length (photos app))%nat
  then mk (mode app) (handPos app) (photos app)
          (Geometry.generateParticles rand (photos app))
          (hoveredPhotoId app)
  else app.

(** An upload followed by the effect it triggers. *)
Definition uploadPhotos (rand : nat -> R) (files : list string) (app : t)
  : t :=
  regenerateEffect rand (handlePhotoUpload files app).

(** [onHoverPhoto], that is, [setHoveredPhotoId]. *)
Definition setHoveredPhotoId (v : option string) (app : t) : t :=
  mk (mode app) (handPos app) (photos app) (particles app) v.

End App.


(** ** [components/Visuals.tsx]: the per-frame callbacks *)

Module Visuals.
Open Scope R_scope.

(** The part of a three.js object the callbacks read and write.  [scale]
    is read through its [x] component and written with [setScalar]. *)
Record Object3D : Type := mkObject3D {
  position : V3;
  scale : V3;
  rotation : V3
}.

(** *** [ParticleInstance] *)

Definition isCandidate (data : ParticleData.t) (hoveredPhotoId : option string)
  : bool :=
  JS.strict_eq (ParticleData.id data) hoveredPhotoId.

Definition isSelected (data : ParticleData.t) (mode : AppMode)
  (hoveredPhotoId : option string) : bool :=
  isCandidate data hoveredPhotoId && AppMode_eqb mode ZOOM.

Definition isHighlighted (data : ParticleData.t) (mode : AppMode)
  (hoveredPhotoId : option string) : bool :=
  isCandidate data hoveredPhotoId && negb (AppMode_eqb mode ZOOM).

Definition isPhoto (data : ParticleData.t) : bool :=
  ParticleType_eqb (ParticleData.type data) photo.

(** The target computed at the top of the frame callback; [time] is
    [state.clock.elapsedTime]. *)
Record Target : Type := mkTarget {
  targetPos : V3;
  targetScale : R;
  targetRot : V3
}.

Definition target (data : ParticleData.t) (mode : AppMode)
  (hoveredPhotoId : option string) (time : R) : Target :=
  let targetScale0 :=
    if isHighlighted data mode hoveredPhotoId
    then ParticleData.scale data * 1.3
    else ParticleData.scale data in
  let targetRot0 := ParticleData.rotation data in
  let sp := ParticleData.scatterPos data in
  match mode with
  | TREE => mkTarget (ParticleData.treePos data) targetScale0 targetRot0
  | SCATTER =>
      mkTarget
        (THREE.vx sp + Math.cos (time * 0.2 + THREE.vy sp) * 0.05,
         THREE.vy sp + Math.sin (time * 0.2 + THREE.vx sp) * 0.05,
         THREE.vz sp)
        targetScale0 targetRot0
  | ZOOM =>
      if isSelected data mode hoveredPhotoId && isPhoto data
      then mkTarget (0, 0, 6) 5.0 (0, 0, 0)
      else mkTarget (THREE.vx sp * 3.5, THREE.vy sp * 3.5, THREE.vz sp - 40)
             targetScale0 targetRot0
  end.

Definition lerpSpeed (data : ParticleData.t) (mode : AppMode)
  (hoveredPhotoId : option string) (delta : R) : R :=
  if isSelected data mode hoveredPhotoId && isPhoto data
  then delta * 15
  else delta * 2.5.

(** The constant spin applied after the rotation blend. *)
Definition spins (data : ParticleData.t) : bool :=
  ParticleType_eqb (ParticleData.type data) diamond
  || ParticleType_eqb (ParticleData.type data) star.

(** The frame callback of [ParticleInstance] on a mounted mesh. *)
Definition ParticleInstance_frame (data : ParticleData.t)
  (mode : AppMode) (hoveredPhotoId : option string)
  (time delta : R) (cameraPosition : V3) (mesh : Object3D) : Object3D :=
  let tg := target data mode hoveredPhotoId time in
  let speed := lerpSpeed data mode hoveredPhotoId delta in
  let position' := THREE.lerp (position mesh) (targetPos tg) speed in
  let currentScale := THREE.vx (scale mesh) in
  let newScale := THREE.MathUtils_lerp currentScale (targetScale tg) speed in
  let rot := rotation mesh in
  let rotation' :=
    if AppMode_eqb mode SCATTER && isPhoto data
    then THREE.Euler_setFromRotationMatrix
           (THREE.Mesh_lookAt position' cameraPosition)
    else
      (THREE.MathUtils_lerp (THREE.vx rot) (THREE.vx (targetRot tg)) speed,
       THREE.MathUtils_lerp (THREE.vy rot) (THREE.vy (targetRot tg)) speed,
       THREE.MathUtils_lerp (THREE.vz rot) (THREE.vz (targetRot tg)) speed) in
  let rotation'' :=
    if spins data
    then (THREE.vx rotation', THREE.vy rotation' + delta * 0.5,
          THREE.vz rotation')
    else rotation' in
  mkObject3D position' (newScale, newScale, newScale) rotation''.

(** *** [FocusManager] *)

(** The running maximum of the scan: [bestId] starts at [null] and
    [maxDot] at [-Infinity], written [None]. *)
Definition Best : Type := (option string * option R)%type.

Definition restPos (mode : AppMode) (p : ParticleData.t) : V3 :=
  (if AppMode_eqb mode TREE then THREE.vx (ParticleData.treePos p)
   else THREE.vx (ParticleData.scatterPos p),
   if AppMode_eqb mode TREE then THREE.vy (ParticleData.treePos p)
   else THREE.vy (ParticleData.scatterPos p),
   if AppMode_eqb mode TREE then THREE.vz (ParticleData.treePos p)
   else THREE.vz (ParticleData.scatterPos p)).

Definition dotOf (mode : AppMode) (camDir : V3) (p : ParticleData.t) : R :=
  THREE.dot camDir (THREE.normalize (restPos mode p)).

Definition exceeds (d : R) (maxDot : option R) : bool :=
  match maxDot with
  | None => true
  | Some m => JS.gtb d m
  end.

(** The body of [photoParticles.forEach]. *)
Definition scanStep (mode : AppMode) (camDir : V3) (acc : Best)
  (p : ParticleData.t) : Best :=
  let d := dotOf mode camDir p in
  if exceeds d (snd acc) then (Some (ParticleData.id p), Some d) else acc.

Definition scan (mode : AppMode) (camDir : V3)
  (photoParticles : list ParticleData.t) : Best :=
  fold_left (scanStep mode camDir) photoParticles (None, None).

(** The frame callback of [FocusManager]: [None] when it returns without
    calling [onFocusChange], [Some v] for the call [onFocusChange(v)]. *)
Definition FocusManager_frame (particles : list ParticleData.t)
  (mode : AppMode) (cameraPosition : V3) : option (option string) :=
  if AppMode_eqb mode ZOOM then None
  else
    let photoParticles := filter isPhoto particles in
    if (List.length photoParticles =? 0)%nat then None
    else
      let camDir := THREE.normalize cameraPosition in
      let '(bestId, maxDot) := scan mode camDir photoParticles in
      match maxDot with
      | Some m => if JS.gtb m 0.65 then Some bestId else Some None
      | None => Some None
      end.

(** The focus id after a frame: [onFocusChange] is [setHoveredPhotoId]. *)
Definition focusAfterFrame (particles : list ParticleData.t)
  (mode : AppMode) (cameraPosition : V3) (hoveredPhotoId : option string)
  : option string :=
  match FocusManager_frame particles mode cameraPosition with
  | None => hoveredPhotoId
  | Some v => v
  end.

(** *** [CameraRig] *)

(** The camera: its position and its orientation.  three.js holds the
    orientation twice and keeps the two in step: [rotation], the Euler
    angles, and [quaternion], written here as a rotation matrix whose
    columns are the right, up and backward axes of the camera. *)
Record Camera : Type := mkCamera {
  cam_position : V3;
  cam_rotation : V3;
  cam_quaternion : THREE.Matrix4
}.

Definition targetAzimuth (handX : R) : R := (handX - 0.5) * Math.PI * 2.5.

Definition targetPolar (handY : R) : R := (handY - 0.5) * 35.

(** [state.camera.rotation.z = 0]: the setter stores the angle and
    updates the quaternion from the Euler angles. *)
Definition zeroRoll (cam : Camera) : Camera :=
  let euler := (THREE.vx (cam_rotation cam), THREE.vy (cam_rotation cam), 0) in
  mkCamera (cam_position cam) euler
    (THREE.Matrix4_makeRotationFromEuler euler).

(** [state.camera.lookAt(x, y, z)]: the quaternion is set from the
    look-at matrix and the Euler angles are updated from it. *)
Definition lookAt (target : V3) (cam : Camera) : Camera :=
  let m := THREE.Camera_lookAt (cam_position cam) target in
  mkCamera (cam_position cam) (THREE.Euler_setFromRotationMatrix m) m.

(** The orbit of the tree and scatter branches; the three assignments
    write [x], [z] and [y] of the position. *)
Definition orbit (baseDistance handX handY : R) (cam : Camera) : Camera :=
  let camX := Math.sin (targetAzimuth handX) * baseDistance in
  let camZ := Math.cos (targetAzimuth handX) * baseDistance in
  let p := cam_position cam in
  mkCamera
    (THREE.MathUtils_lerp (THREE.vx p) camX 0.1,
     THREE.MathUtils_lerp (THREE.vy p) (targetPolar handY) 0.1,
     THREE.MathUtils_lerp (THREE.vz p) camZ 0.1)
    (cam_rotation cam)
    (cam_quaternion cam).

(** The branch on [mode], after the roll has been reset. *)
Definition CameraRig_move (handX handY : R) (mode : AppMode)
  (cam : Camera) : Camera :=
  match mode with
  | SCATTER => lookAt (0, 0, 0) (orbit 30 handX handY cam)
  | TREE => lookAt (0, 0, 0) (orbit 28 handX handY cam)
  | ZOOM =>
      lookAt (0, 0, 0)
        (mkCamera (THREE.lerp (cam_position cam) (0, 0, 10) 0.05)
           (cam_rotation cam) (cam_quaternion cam))
  end.

(** The frame callback of [CameraRig]. *)
Definition CameraRig_frame (handX handY handZ handRotation : R)
  (mode : AppMode) (cam : Camera) : Camera :=
  CameraRig_move handX handY mode (zeroRoll cam).

(** *** The particle meshes of [Visuals]

    [Visuals] renders one [ParticleInstance] per particle, keyed by the
    particle id.  An instance owns the three.js group its [meshRef]
    points to; the group carries the live transform that the frame
    callback blends.  [data] is the prop of the latest render. *)
Record Instance : Type := mkInstance {
  data : ParticleData.t;
  object : Object3D
}.

Definition key (inst : Instance) : string := ParticleData.id (data inst).

(** A group as it is mounted for [<group position={data.treePos}>]: at
    the tree position, with unit scale and no rotation. *)
Definition mounted (d : ParticleData.t) : Object3D :=
  mkObject3D (ParticleData.treePos d) (1, 1, 1) (0, 0, 0).

(** Equality of two [position] props, element by element. *)
Definition sameArray (a b : V3) : bool :=
  if Req_dec_T (THREE.vx a) (THREE.vx b)
  then if Req_dec_T (THREE.vy a) (THREE.vy b)
       then if Req_dec_T (THREE.vz a) (THREE.vz b) then true else false
       else false
  else false.

(** A render of a mounted instance with new [data]: the instance and its
    group are kept; the [position] prop is applied to the group when its
    value has changed; no other prop touches the transform. *)
Definition update (d : ParticleData.t) (inst : Instance) : Instance :=
  mkInstance d
    (if sameArray (ParticleData.treePos d) (ParticleData.treePos (data inst))
     then object inst
     else mkObject3D (ParticleData.treePos d) (scale (object inst))
            (rotation (object inst))).

Definition lookup (k : string) (scene : list Instance) : option Instance :=
  find (fun inst => String.eqb (key inst) k) scene.

(** A render of [particles.map(p => <ParticleInstance key={p.id} .../>)]
    over the instances of the previous render: an instance whose key is
    still there is updated, a new key is mounted, and the instances
    whose keys are gone are unmounted. *)
Definition render (particles : list ParticleData.t) (scene : list Instance)
  : list Instance :=
  map (fun p =>
         match lookup (ParticleData.id p) scene with
         | Some inst => update p inst
         | None => mkInstance p (Visuals.mounted p)
         end)
      particles.

(** One frame: the callback of every instance runs on its group. *)
Definition frame (mode : AppMode) (hoveredPhotoId : option string)
  (time delta : R) (cameraPosition : V3) (scene : list Instance)
  : list Instance :=
  map (fun inst =>
         mkInstance (data inst)
           (ParticleInstance_frame (data inst) mode hoveredPhotoId time delta
              cameraPosition (object inst)))
      scene.

End Visuals.

Unset Implicit Arguments.

(** ** [components/HandManager.tsx]: the recognizer callback *)

Module HandManager.
Open Scope R_scope.

(** A normalized landmark of the hand. *)
Record Landmark : Type := mkLandmark {
  lx : R;
  ly : R;
  lz : R
}.

(** What [recognizeForVideo] returns, per detected hand: the category
    names of the recognized gestures, best first, and the landmarks. *)
Record Results : Type := mkResults {
  gestures : list (list string);
  landmarks : list (list Landmark)
}.

(** [Math.pow(v, 2)]. *)
Definition pow2 (v : R) : R := v ^ 2.

(** The priority logic: the model's closed fist and open palm win, then
    the custom pinch test, then the model's pointing gesture. *)
Definition mapGesture (gestureName : string) (distance : R) : string :=
  if String.eqb gestureName "Closed_Fist" then "Closed_Fist"%string
  else if String.eqb gestureName "Open_Palm" then "Open_Palm"%string
  else if Math.ltb distance 0.06 then "Pinch"%string
  else if String.eqb gestureName "Pointing_Up" then "Pointing_Up"%string
  else "Unknown"%string.

Definition distance2 (a b : Landmark) : R :=
  Math.sqrt (pow2 (lx a - lx b) + pow2 (ly a - ly b)).

(** The sample built from the first gesture name and the landmarks of the
    first hand.  Reading a coordinate of a missing landmark throws; the
    exception is caught by [predict] and nothing is reported: [None]. *)
Definition sampleOf (gestureName : string) (hand : list Landmark)
  : option HandGestureData.t :=
  match nth_error hand 0, nth_error hand 9,
        nth_error hand 4, nth_error hand 8 with
  | Some palmBase, Some middleFingerKnuckle, Some thumbTip, Some indexTip =>
      let centerX := (lx palmBase + lx middleFingerKnuckle) / 2 in
      let centerY := (ly palmBase + ly middleFingerKnuckle) / 2 in
      let handSize := distance2 palmBase middleFingerKnuckle in
      let zRaw := (handSize - 0.05) * 4 in
      let z := Rmax 0 (Rmin 1 zRaw) in
      let dx := lx middleFingerKnuckle - lx palmBase in
      let dy := ly middleFingerKnuckle - ly palmBase in
      let rotation := Math.atan2 dy dx in
      let distance := distance2 thumbTip indexTip in
      Some (HandGestureData.mk (mapGesture gestureName distance)
              (1 - centerX) centerY z rotation)
  | _, _, _, _ => None
  end.

(** The body of [predict] once the recognizer has returned [results]:
    the argument of the call to [onGestureUpdate], or [None] when an
    exception was caught and no call is made. *)
Definition predict (results : Results) : option HandGestureData.t :=
  match gestures results, landmarks results with
  | g0 :: _, hand :: _ =>
      match g0 with
      | gestureName :: _ => sampleOf gestureName hand
      | [] => None
      end
  | _, _ => Some (HandGestureData.mk "Unknown" 0.5 0.5 0 0)
  end.

(** The [onGestureUpdate] that [predict] calls.  The effect of
    [HandManager] has no dependencies: it runs once, after the first
    render, and starts [init], which calls the [startCamera] of that
    render, which registers the [predict] of that render, which keeps
    re-registering itself with [requestAnimationFrame].  Every sample is
    therefore handed to the [onGestureUpdate] prop of the first render:
    the [handleGestureUpdate] that [App] created while [hoveredPhotoId]
    held its initial value [null]. *)
Definition onGestureUpdate (now : Z) (data : HandGestureData.t)
  (app : App.t) : App.t :=
  App.handleGestureUpdate None now data app.

(** The raw decision of a sample that goes through the recognizer loop. *)
Definition rawDecision (data : HandGestureData.t) (app : App.t) : AppMode :=
  App.rawDecision None data app.

End HandManager.

(** ** [components/Visuals.tsx]: the photo frame *)

Module PhotoFrame.
Open Scope R_scope.

(** The fields of the backing material the callback writes. *)
Record Material : Type := mkMaterial {
  emissiveIntensity : R;
  emissive : Z;
  color : Z
}.

(** The frame callback of [PhotoFrame] on a mounted mesh; [elapsedTime] is
    [state.clock.elapsedTime]. *)
Definition frame (isRevealed isHighlighted : bool) (elapsedTime : R)
  : Material :=
  if isRevealed then mkMaterial 0 0x000000 0x000000
  else if isHighlighted then
    let t := elapsedTime * 8 in
    let intensity := 0.4 + (Math.sin t * 0.4 + 0.4) in
    mkMaterial intensity 0xFFFACD 0xFFD700
  else mkMaterial 0.2 0xB8860B 0xFFD700.

(** The photo frame that [ParticleInstance] renders for its particle:
    none unless the particle is a photo with a texture. *)
Definition ofParticle (data : ParticleData.t) (mode : AppMode)
  (hoveredPhotoId : option string) (elapsedTime : R) : option Material :=
  if Visuals.isPhoto data && JS.truthy (ParticleData.textureUrl data)
  then Some (frame (Visuals.isSelected data mode hoveredPhotoId)
               (Visuals.isHighlighted data mode hoveredPhotoId) elapsedTime)
  else None.

End PhotoFrame.

(** ** A session of the application *)

Module Session.

(** What happens to [App] over time: an upload (with the random stream
    of the regeneration it triggers), a gesture sample reported by the
    recognizer loop, and a frame of the focus selector, which sees the
    committed mode. *)
Inductive Event : Type :=
| Upload (rand : nat -> R) (files : list string)
| Gesture (now : Z) (data : HandGestureData.t)
| FocusFrame (now : Z) (cameraPosition : V3).

Definition step (app : App.t) (e : Event) : App.t :=
  match e with
  | Upload rand files => App.uploadPhotos rand files app
  | Gesture now data => HandManager.onGestureUpdate now data app
  | FocusFrame now cameraPosition =>
      match Visuals.FocusManager_frame (App.particles app)
              (App.currentMode now app) cameraPosition with
      | Some v => App.setHoveredPhotoId v app
      | None => app
      end
  end.

Definition run (events : list Event) (app : App.t) : App.t :=
  fold_left step events app.

(** Time-stamped samples, as the events of the recognizer loop. *)
Definition samples (l : list (Z * HandGestureData.t)) : list Event :=
  map (fun td => Gesture (fst td) (snd td)) l.

(** The calls of [setMode] that a session makes, with their times. *)
Fixpoint setModeCalls (events : list Event)
  : list (Z * React.SetStateAction AppMode) :=
  match events with
  | [] => []
  | Gesture now data :: rest =>
      (now, App.gestureAction None data) :: setModeCalls rest
  | _ :: rest => setModeCalls rest
  end.

End Session.

(** ** Notions used in the statements *)

Section DebounceInvariants.
Context {T : Type}.


(** An armed timeout is due no later than [bound]; once it has fired the
    committed value is the pending one. *)
Definition settlesBy (bound : Z) (s : Debounce.t T) : Prop :=
  match Debounce.handler s with
  | Some d => (d <= bound)%Z
  | None => Debounce.state s = Debounce.tempState s
  end.

End DebounceInvariants.

Section Sessions.

(** The transition table of the mode state machine, as a function of the
    gesture, the mode it is read against and the focus id. *)
Definition transitionTable (gesture : string) (current : AppMode)
  (focus : option string) : AppMode :=
  if String.eqb gesture "Closed_Fist" then
    match current, focus with
    | ZOOM, _ => TREE
    | _, Some _ => ZOOM
    | _, None => TREE
    end
  else if String.eqb gesture "Open_Palm" then SCATTER
  else if String.eqb gesture "Pinch" then ZOOM
  else TREE.

(** A gesture sample with neutral signals. *)
Definition sample (gesture : string) : HandGestureData.t :=
  HandGestureData.mk gesture 0.5 0.5 0 0.

(** A session: one photo is uploaded, and a frame of the focus selector
    runs in tree mode with the camera in the direction of that photo. *)
Definition cameraOnFirstPhoto : V3 := Geometry.photoTreePos 1 0.

Definition aimedAtPhoto (rand : nat -> R) : App.t :=
  let app := App.uploadPhotos rand ["blob:photo"%string] (App.init rand 0) in
  App.setHoveredPhotoId
    (Visuals.focusAfterFrame (App.particles app) TREE cameraOnFirstPhoto
       (App.hoveredPhotoId app))
    app.

(** Then the recognizer loop reports a closed hand at 1000 ms. *)
Definition fistOnFocus (rand : nat -> R) : App.t :=
  HandManager.onGestureUpdate 1000 (sample "Closed_Fist") (aimedAtPhoto rand).

(** The mode a gesture stands for once the focus id is left out of the
    decision. *)
Definition gestureDecision (gesture : string) : AppMode :=
  if String.eqb gesture "Open_Palm" then SCATTER
  else if String.eqb gesture "Pinch" then ZOOM
  else TREE.

End Sessions.

Section LayoutShape.

(** A generator step that appends exactly one particle, with property [P]. *)
Definition pushesOne (P : ParticleData.t -> Prop) (m : Geometry.Gen unit)
  : Prop :=
  forall s, exists p,
    P p /\ Geometry.particles (snd (m s)) = Geometry.particles s ++ [p].

(** What the photo loop promises for the particle of index [i]. *)
Definition photoParticle (photos : list string) (i : nat)
  (p : ParticleData.t) : Prop :=
  ParticleData.id p = JS.template "p-photo-" i
  /\ ParticleData.type p = photo
  /\ ParticleData.textureUrl p = nth_error photos i
  /\ ParticleData.treePos p = Geometry.photoTreePos (List.length photos) i
  /\ ParticleData.rotation p
     = (0, - Geometry.photoTheta (List.length photos) i + Math.PI / 2, 0)%R.

(** What the ornament loop promises for the particle of index [i]. *)
Definition ornamentParticle (i : nat) (p : ParticleData.t) : Prop :=
  ParticleData.id p = JS.template "p-" i
  /\ (ParticleData.type p = snowflake \/ ParticleData.type p = bell
      \/ ParticleData.type p = cube \/ ParticleData.type p = sphere).

(** The particles of the top-star type. *)
Definition isStar (p : ParticleData.t) : bool :=
  ParticleType_eqb (ParticleData.type p) star.

(** The particle types the generator can produce. *)
Definition generatedType (ty : ParticleType) : Prop :=
  ty = photo \/ ty = sphere \/ ty = cube \/ ty = snowflake \/ ty = bell
  \/ ty = star.

End LayoutShape.

Section Poses.
Open Scope R_scope.

(** The fraction of the total height at which a rest pose sits: the tree
    spans [-HEIGHT/2, HEIGHT/2]. *)
Definition heightFraction (p : ParticleData.t) : R :=
  (THREE.vy (ParticleData.treePos p) + Geometry.HEIGHT / 2) / Geometry.HEIGHT.

(** The distance of a rest pose from the trunk axis. *)
Definition helixRadius (p : ParticleData.t) : R :=
  let pos := ParticleData.treePos p in
  Math.sqrt (THREE.vx pos * THREE.vx pos + THREE.vz pos * THREE.vz pos).

(** The normal of the photo plane: the default normal [+Z] turned about
    the vertical axis by the rest rotation. *)
Definition faceNormal (p : ParticleData.t) : V3 :=
  (Math.sin (THREE.vy (ParticleData.rotation p)), 0,
   Math.cos (THREE.vy (ParticleData.rotation p))).

(** The selected zoom photo: the photo particle named by the focus id,
    while the mode is zoom. *)
Definition selectedZoomPhoto (data : ParticleData.t) (mode : AppMode)
  (hoveredPhotoId : option string) : bool :=
  AppMode_eqb mode ZOOM
  && JS.strict_eq (ParticleData.id data) hoveredPhotoId
  && Visuals.isPhoto data.

(** [p], at index [k] of [l], maximizes [f] over [l], and is the first
    element to do so. *)
Definition firstMax {A : Type} (f : A -> R) (l : list A) (k : nat) (p : A)
  : Prop :=
  nth_error l k = Some p
  /\ (forall j q, nth_error l j = Some q -> f q <= f p)
  /\ (forall j q, (j < k)%nat -> nth_error l j = Some q -> f q < f p).

(** The cosine between the camera and the rest position of a particle in
    the current mode. *)
Definition aim (mode : AppMode) (cameraPosition : V3) (p : ParticleData.t)
  : R :=
  THREE.dot (THREE.normalize cameraPosition)
    (THREE.normalize
       (match mode with
        | TREE => ParticleData.treePos p
        | _ => ParticleData.scatterPos p
        end)).

(** A photo resting on the [x] axis of the tree, and scattered on [z]. *)
Definition photoOnX : ParticleData.t :=
  ParticleData.mk "p-photo-0" photo (12, 0, 0) (0, 0, 15) "#FFD700"
    (Some "blob:photo"%string) (0, 0, 0) 0.8.

(** One full turn, in radians. *)
Definition turn : R := 2 * PI.

End Poses.

(** ** Further notions used in the statements *)

(** The gestures the recognizer callback can report. *)
Definition reportedGestures : list string :=
  ["Closed_Fist"; "Open_Palm"; "Pinch"; "Pointing_Up"; "Unknown"]%string.

Section GeneratorNotions.
Open Scope R_scope.

(** The scatter point for the three draws [u1], [u2], [u3]. *)
Definition scatterOf (radius u1 u2 u3 : R) : V3 :=
  let rScatter := radius * Math.cbrt u1 in
  let sTheta := u2 * Math.PI * 2 in
  let sPhi := Math.acos ((u3 * 2) - 1) in
  (rScatter * Math.sin sPhi * Math.cos sTheta,
   rScatter * Math.sin sPhi * Math.sin sTheta,
   rScatter * Math.cos sPhi).

(** A random stream as [Math.random] produces it. *)
Definition unitStream (rand : nat -> R) : Prop :=
  forall k, 0 <= rand k < 1.

(** What the ornament loop does with its draws for the particle of index
    [i]: the position in the cone, the scatter point, and the decoration
    (type, colour and scale) chosen by the thresholds. *)
Definition ornamentDetail (rand : nat -> R) (i : nat) (p : ParticleData.t)
  : Prop :=
  let t := INR i / INR Geometry.COUNT in
  let angle := INR i * 2.39996 in
  (exists k,
     ParticleData.treePos p
     = (Math.cos angle
        * (Math.pow (1 - t) 0.9 * Geometry.RADIUS_BASE
           * Math.sqrt (rand k * 0.9 + 0.1)),
        t * Geometry.HEIGHT - Geometry.HEIGHT / 2,
        Math.sin angle
        * (Math.pow (1 - t) 0.9 * Geometry.RADIUS_BASE
           * Math.sqrt (rand k * 0.9 + 0.1))))
  /\ (exists k1 k2 k3,
        ParticleData.scatterPos p
        = scatterOf 18 (rand k1) (rand k2) (rand k3))
  /\ ParticleData.textureUrl p = None
  /\ ((ParticleData.type p = snowflake
       /\ ParticleData.scale p = 0.6
       /\ exists k,
            ParticleData.color p
            = Geometry.at_index Geometry.colors_silver
                (Math.floor
                   (rand k * INR (List.length Geometry.colors_silver))))
      \/ (ParticleData.type p = bell
          /\ ParticleData.scale p = 0.7
          /\ ParticleData.color p = "#FFD700"%string)
      \/ (ParticleData.type p = cube
          /\ ParticleData.scale p = 0.8
          /\ ParticleData.color p = "#8B0000"%string)
      \/ (ParticleData.type p = sphere
          /\ (ParticleData.scale p = 0.7
              \/ exists k, ParticleData.scale p = rand k * 0.3 + 0.3)
          /\ exists k,
               ParticleData.color p
               = Geometry.at_index Geometry.allColors
                   (Math.floor
                      (rand k * INR (List.length Geometry.allColors))))).

(** What the photo loop does with its draws. *)
Definition photoDetail (rand : nat -> R) (p : ParticleData.t) : Prop :=
  (exists k1 k2 k3,
     ParticleData.scatterPos p = scatterOf 15 (rand k1) (rand k2) (rand k3))
  /\ ParticleData.scale p = 0.8
  /\ ParticleData.color p = "#FFD700"%string.

End GeneratorNotions.

Section TimingNotions.
Open Scope Z_scope.

(** Times at least [delay] apart, the first at least [delay] after
    [from]. *)
Fixpoint spacedBy (delay from : Z) (times : list Z) : Prop :=
  match times with
  | [] => True
  | t :: rest => from + delay <= t /\ spacedBy delay t rest
  end.

End TimingNotions.

Section SpacingInvariant.
Open Scope Z_scope.

(** The invariant behind the spacing of commits: the commit times are
    spaced, and the armed timeout, if any, was set no earlier than the
    last commit and no later than [now]. *)
Definition commitsSpaced {T : Type} (delay t0 now : Z) (s : Debounce.t T)
  : Prop :=
  let times := map fst (Debounce.commits s) in
  spacedBy delay t0 times
  /\ match Debounce.handler s with
     | Some d => last times t0 <= d - delay /\ d - delay <= now
     | None => last times t0 <= now
     end.

End SpacingInvariant.

Section FrameNotions.
Open Scope R_scope.

(** Successive frames of one particle with a constant [delta]: the clock
    gives the elapsed time and the camera position of each frame. *)
Definition particleFrames (data : ParticleData.t)
  (mode : AppMode) (hoveredPhotoId : option string) (delta : R)
  (clock : list (R * V3)) (mesh : Visuals.Object3D) : Visuals.Object3D :=
  fold_left
    (fun m tc =>
       Visuals.ParticleInstance_frame data mode hoveredPhotoId (fst tc) delta
         (snd tc) m)
    clock mesh.

(** Successive frames of the camera rig under a constant gesture. *)
Definition cameraFrames (handX handY handZ handRotation : R)
  (mode : AppMode) (n : nat) (cam : Visuals.Camera) : Visuals.Camera :=
  Nat.iter n (Visuals.CameraRig_frame handX handY handZ handRotation mode) cam.

(** The point the camera rig steers to, and the share of the remaining
    way it covers per frame. *)
Definition cameraGoal (mode : AppMode) (handX handY : R) : V3 :=
  match mode with
  | TREE =>
      (sin (Visuals.targetAzimuth handX) * 28, Visuals.targetPolar handY,
       cos (Visuals.targetAzimuth handX) * 28)
  | SCATTER =>
      (sin (Visuals.targetAzimuth handX) * 30, Visuals.targetPolar handY,
       cos (Visuals.targetAzimuth handX) * 30)
  | ZOOM => (0, 0, 10)
  end.

Definition cameraRate (mode : AppMode) : R :=
  match mode with
  | ZOOM => 0.05
  | _ => 0.1
  end.

(** Component-wise [a - goal = k * (b - goal)]. *)
Definition errorScaled (k : R) (goal a b : V3) : Prop :=
  THREE.vx a - THREE.vx goal = k * (THREE.vx b - THREE.vx goal)
  /\ THREE.vy a - THREE.vy goal = k * (THREE.vy b - THREE.vy goal)
  /\ THREE.vz a - THREE.vz goal = k * (THREE.vz b - THREE.vz goal).

(** The focus id names a photo particle of the current set, if it is set
    at all; and the particle set is an output of the generator for the
    current photo list. *)
Definition focusNamesPhoto (app : App.t) : Prop :=
  (exists rand,
     App.particles app = Geometry.generateParticles rand (App.photos app))
  /\ (App.hoveredPhotoId app = None
      \/ exists i p,
           (i < List.length (App.photos app))%nat
           /\ nth_error (App.particles app) i = Some p
           /\ ParticleData.type p = photo
           /\ ParticleData.textureUrl p = nth_error (App.photos app) i
           /\ App.hoveredPhotoId app = Some (ParticleData.id p)).

End FrameNotions.

Section ScaleNotions.
Open Scope R_scope.

(** The vector [v] scaled by [k]. *)
Definition scaled (k : R) (v : V3) : V3 :=
  (k * THREE.vx v, k * THREE.vy v, k * THREE.vz v).

End ScaleNotions.

Section CameraNotions.
Open Scope R_scope.

(** The image of a camera is not rolled about its viewing axis: the right
    axis of the camera is horizontal and its up axis does not point
    down. *)
Definition horizonLevel (cam : Visuals.Camera) : Prop :=
  THREE.vy (THREE.xAxis (Visuals.cam_quaternion cam)) = 0
  /\ 0 <= THREE.vy (THREE.yAxis (Visuals.cam_quaternion cam)).

End CameraNotions.

Section UploadNotions.

(** The ids of a generated particle set for [n] photos, in order. *)
Definition generatedIds (n : nat) : list string :=
  map (JS.template "p-photo-") (seq 0 n)
  ++ map (JS.template "p-") (seq 0 Geometry.COUNT)
  ++ ["star"%string].

(** The scene one frame after the particles of [app] have been mounted,
    in the committed mode [mode] and with the camera in front of the
    tree. *)
Definition sceneAfterOneFrame (mode : AppMode) (app : App.t)
  : list Visuals.Instance :=
  Visuals.frame mode (App.hoveredPhotoId app) 0 0.1 (0, 0, 28)%R
    (Visuals.render (App.particles app) []).

End UploadNotions.

(* ================================================================== *)
(** * Part II : properties                                             *)
(* ================================================================== *)

(** ** The debounce hook *)

Section DebounceFacts.
Import React.
Open Scope Z_scope.

Context {T : Type} `{EqDec T}.
Variable delay : Z.

Lemma fire_tempState (now : Z) (s : Debounce.t T) :
  Debounce.tempState (Debounce.fire now s) = Debounce.tempState s.
Proof.
  unfold Debounce.fire. destruct (Debounce.handler s) as [d|]; auto.
  destruct (d <=? now); auto.
Qed.

(** What a firing does, by cases on the armed timeout. *)
Lemma fire_cases (now : Z) (s : Debounce.t T) :
  (exists d, Debounce.handler s = Some d /\ d <= now /\
     Debounce.fire now s =
       Debounce.mk (Debounce.tempState s) (Debounce.tempState s) None
         (Debounce.commits s ++ [(d, Debounce.tempState s)]))
  \/ ((forall d, Debounce.handler s = Some d -> now < d) /\
      Debounce.fire now s = s).
Proof.
  unfold Debounce.fire. destruct (Debounce.handler s) as [d|] eqn:E.
  - destruct (Z.leb_spec d now).
    + left. exists d. auto.
    + right. split; auto. intros d' [= <-]. assumption.
  - right. split; auto. discriminate.
Qed.

(** A setter call only looks at the value its action resolves to. *)
Lemma setTempState_resolve (now : Z) (a : SetStateAction T)
  (s : Debounce.t T) :
  Debounce.setTempState delay now a s
  = Debounce.setTempState delay now
      (Value (resolve a (Debounce.tempState s))) s.
Proof.
  unfold Debounce.setTempState. rewrite fire_tempState. reflexivity.
Qed.

Lemma setTempState_tempState (now : Z) (a : SetStateAction T)
  (s : Debounce.t T) :
  Debounce.tempState (Debounce.setTempState delay now a s)
  = resolve a (Debounce.tempState s).
Proof.
  unfold Debounce.setTempState. rewrite fire_tempState.
  destruct (eq_dec _ _) as [E|E]; simpl; auto.
  rewrite fire_tempState. auto.
Qed.




End DebounceFacts.

Section DebounceRuns.
Import React.
Open Scope Z_scope.

Context {T : Type} `{EqDec T}.
Variable delay : Z.

Lemma run_app (l1 l2 : list (Z * SetStateAction T)) (s : Debounce.t T) :
  Debounce.run delay (l1 ++ l2) s
  = Debounce.run delay l2 (Debounce.run delay l1 s).
Proof.
  revert s. induction l1 as [|[te a] l1 IH]; intros s; simpl; auto.
Qed.




Lemma settlesBy_fire (bound now : Z) (s : Debounce.t T) :
  settlesBy bound s -> settlesBy bound (Debounce.fire now s).
Proof.
  intros Hs. destruct (fire_cases now s) as [(d & _ & _ & ->)|[_ ->]]; auto.
  reflexivity.
Qed.

Lemma settlesBy_setTempState (bound now : Z) (a : SetStateAction T)
  (s : Debounce.t T) :
  settlesBy bound s -> bound <= now + delay ->
  settlesBy (now + delay) (Debounce.setTempState delay now a s).
Proof.
  intros Hs Hb. apply (settlesBy_fire bound now) in Hs.
  unfold Debounce.setTempState. destruct (eq_dec _ _).
  - unfold settlesBy in *. destruct (Debounce.handler _); auto. lia.
  - unfold settlesBy. simpl. lia.
Qed.

Lemma settlesBy_same (bound now : Z) (a : SetStateAction T)
  (s : Debounce.t T) :
  settlesBy bound s ->
  resolve a (Debounce.tempState s) = Debounce.tempState s ->
  settlesBy bound (Debounce.setTempState delay now a s).
Proof.
  intros Hs Ha. apply (settlesBy_fire bound now) in Hs.
  unfold Debounce.setTempState. rewrite fire_tempState.
  destruct (eq_dec _ _); [assumption|contradiction].
Qed.

Lemma last_cons_default {A : Type} (l : list A) :
  forall x d : A, last (x :: l) d = last l x.
Proof.
  induction l as [|y l IH]; intros x d; auto.
  change (last (x :: y :: l) d) with (last (y :: l) d).
  rewrite (IH y d), (IH y x). reflexivity.
Qed.

Lemma settlesBy_run (evs : list (Z * SetStateAction T)) :
  forall (s : Debounce.t T) (c : Z),
    settlesBy (c + delay) s -> Debounce.chronological c evs ->
    settlesBy (last (map fst evs) c + delay) (Debounce.run delay evs s).
Proof.
  induction evs as [|[te a] rest IH]; intros s c Hs Hc; simpl; auto.
  destruct Hc as [Hle Hc].
  change (settlesBy (last (te :: map fst rest) c + delay)
            (Debounce.run delay rest (Debounce.setTempState delay te a s))).
  rewrite last_cons_default.
  apply IH; auto.
  apply settlesBy_setTempState with (bound := c + delay); auto. lia.
Qed.

Lemma chronological_app {A : Type} (l1 l2 : list (Z * A)) :
  forall c, Debounce.chronological c (l1 ++ l2) ->
            Debounce.chronological c l1
            /\ Debounce.chronological (last (map fst l1) c) l2.
Proof.
  induction l1 as [|[te a] l1 IH]; intros c Hc; simpl in *; auto.
  destruct Hc as [Hle Hc]. apply IH in Hc as [H1 H2]. repeat split; auto.
  change (Debounce.chronological (last (te :: map fst l1) c) l2).
  rewrite last_cons_default. assumption.
Qed.

(** While every call resolves to the pending value, nothing moves but the
    firing of the timeout, which has happened by [bound]. *)
Lemma held_run (held : list (Z * SetStateAction T)) :
  forall (s : Debounce.t T) (bound horizon : Z),
    settlesBy bound s -> bound <= horizon ->
    (forall e, In e held ->
       resolve (snd e) (Debounce.tempState s) = Debounce.tempState s) ->
    Debounce.committed horizon (Debounce.run delay held s)
    = Debounce.tempState s.
Proof.
  induction held as [|[te a] rest IH]; intros s bound horizon Hs Hb Hheld.
  - simpl. unfold Debounce.committed.
    destruct (fire_cases horizon s) as [(d & E & Hle & ->)|[Hnot ->]]; auto.
    unfold settlesBy in Hs. destruct (Debounce.handler s) as [d|]; auto.
    specialize (Hnot d eq_refl). lia.
  - simpl.
    assert (Ha : resolve a (Debounce.tempState s) = Debounce.tempState s)
      by (apply (Hheld (te, a)); left; auto).
    rewrite (IH _ bound horizon).
    + rewrite setTempState_tempState. assumption.
    + apply settlesBy_same; auto.
    + assumption.
    + intros e He. rewrite setTempState_tempState, Ha.
      apply Hheld. right. assumption.
Qed.







(** A decision taken at [t] and held: by [t + delay] it is committed. *)
Lemma held_decision_commits (initial : T) (t0 t horizon : Z)
  (a : SetStateAction T) (evs held : list (Z * SetStateAction T)) :
  Debounce.chronological t0 (evs ++ (t, a) :: held) ->
  0 <= delay ->
  (forall e, In e held ->
     resolve (snd e)
       (resolve a
          (Debounce.tempState
             (Debounce.run delay evs
                (Debounce.useDebouncedState initial delay t0))))
     = resolve a
         (Debounce.tempState
            (Debounce.run delay evs
               (Debounce.useDebouncedState initial delay t0)))) ->
  t + delay <= horizon ->
  Debounce.committed horizon
    (Debounce.run delay (evs ++ (t, a) :: held)
       (Debounce.useDebouncedState initial delay t0))
  = resolve a
      (Debounce.tempState
         (Debounce.run delay evs
            (Debounce.useDebouncedState initial delay t0))).
Proof.
  intros Hc Hd Hheld Hle.
  replace (evs ++ (t, a) :: held) with ((evs ++ [(t, a)]) ++ held) in *
    by (rewrite <- app_assoc; reflexivity).
  rewrite run_app.
  assert (Hpend :
            Debounce.tempState
              (Debounce.run delay (evs ++ [(t, a)])
                 (Debounce.useDebouncedState initial delay t0))
            = resolve a
                (Debounce.tempState
                   (Debounce.run delay evs
                      (Debounce.useDebouncedState initial delay t0)))).
  { rewrite run_app. simpl. apply setTempState_tempState. }
  rewrite <- Hpend in *.
  apply chronological_app in Hc as [Hc1 _].
  apply held_run with (bound := t + delay); auto.
  replace t with (last (map fst (evs ++ [(t, a)])) t0) at 1
    by (rewrite map_app; simpl; apply last_last).
  apply settlesBy_run; auto.
  unfold settlesBy. simpl. lia.
Qed.

End DebounceRuns.

Section ModeDebounce.
Import React.
Open Scope Z_scope.



End ModeDebounce.

(** ** The layout generator *)

Section Layout.
Open Scope nat_scope.

Lemma for_loop_pushes (P : nat -> ParticleData.t -> Prop)
  (body : nat -> Geometry.Gen unit) (count : nat) :
  forall from,
    (forall i, from <= i < from + count -> pushesOne (P i) (body i)) ->
    forall s, exists ps,
      List.length ps = count
      /\ (forall k p, nth_error ps k = Some p -> P (from + k) p)
      /\ Geometry.particles (snd (Geometry.for_loop from count body s))
         = Geometry.particles s ++ ps.
Proof.
  induction count as [|c IH]; intros from Hbody s.
  - exists []. simpl. rewrite app_nil_r. split; [reflexivity|].
    split; [|reflexivity]. intros [|k] p; discriminate.
  - simpl. unfold Geometry.bind.
    destruct (Hbody from ltac:(lia) s) as (p0 & Hp0 & Hs0).
    destruct (body from s) as [[] s0] eqn:E0. simpl in Hs0.
    destruct (IH (S from) ltac:(intros; apply Hbody; lia) s0)
      as (ps & Hlen & Hnth & Hps).
    exists (p0 :: ps). simpl. repeat split; auto.
    + intros [|k] p Hk; simpl in Hk.
      * injection Hk as <-. rewrite Nat.add_0_r. assumption.
      * replace (from + S k) with (S from + k) by lia. auto.
    + rewrite Hps, Hs0, <- app_assoc. reflexivity.
Qed.

Lemma photoBody_pushes (rand : nat -> R) (photos : list string) (i : nat) :
  pushesOne (photoParticle photos i) (Geometry.photoBody rand photos i).
Proof.
  intros s. eexists. split; [|reflexivity].
  repeat split; reflexivity.
Qed.

Lemma ornamentBody_pushes (rand : nat -> R) (i : nat) :
  pushesOne (ornamentParticle i) (Geometry.ornamentBody rand i).
Proof.
  intros s.
  unfold Geometry.ornamentBody, Geometry.decoration, Geometry.scatterPoint,
    Geometry.bind, Geometry.random, Geometry.ret, Geometry.push.
  simpl.
  repeat match goal with
         | |- context [JS.gtb ?a ?b] => destruct (JS.gtb a b); simpl
         end;
  eexists; (split; [|reflexivity]); split; simpl; auto.
Qed.

(** The array returned by the generator: the photos in order, then the
    ornaments in order, then the star. *)
Lemma generateParticles_shape (rand : nat -> R) (photos : list string) :
  exists ps os,
    Geometry.generateParticles rand photos = ps ++ os ++ [Geometry.topStar]
    /\ List.length ps = List.length photos
    /\ List.length os = Geometry.COUNT
    /\ (forall i p, nth_error ps i = Some p -> photoParticle photos i p)
    /\ (forall i p, nth_error os i = Some p -> ornamentParticle i p).
Proof.
  unfold Geometry.generateParticles, Geometry.generate, Geometry.bind.
  set (s0 := Geometry.mkGen 0 []).
  assert (Hphotos : exists ps,
            List.length ps = List.length photos
            /\ (forall i p, nth_error ps i = Some p -> photoParticle photos i p)
            /\ Geometry.particles
                 (snd ((if 0 <? List.length photos
                        then Geometry.for_loop 0 (List.length photos)
                               (Geometry.photoBody rand photos)
                        else Geometry.ret tt) s0)) = ps).
  { destruct (Nat.ltb_spec 0 (List.length photos)) as [Hpos|Hzero].
    - destruct (for_loop_pushes (photoParticle photos)
                  (Geometry.photoBody rand photos) (List.length photos) 0
                  ltac:(intros; apply photoBody_pushes) s0)
        as (ps & Hlen & Hnth & Hps).
      exists ps. auto.
    - exists []. simpl. split; [lia|]. split; [|reflexivity].
      intros [|i] q; discriminate. }
  destruct Hphotos as (ps & Hlen & Hnth & Hps).
  destruct ((if 0 <? List.length photos
             then Geometry.for_loop 0 (List.length photos)
                    (Geometry.photoBody rand photos)
             else Geometry.ret tt) s0) as [[] s1].
  simpl in Hps.
  destruct (for_loop_pushes ornamentParticle (Geometry.ornamentBody rand)
              Geometry.COUNT 0 ltac:(intros; apply ornamentBody_pushes) s1)
    as (os & Holen & Honth & Hos).
  destruct (Geometry.for_loop 0 Geometry.COUNT (Geometry.ornamentBody rand) s1)
    as [[] s2].
  simpl in Hos. exists ps, os. unfold Geometry.push. simpl.
  rewrite Hos, Hps, <- app_assoc.
  split; [reflexivity|]. split; [assumption|]. split; [assumption|].
  split; [assumption|]. intros i p Hi. apply (Honth i p Hi).
Qed.

End Layout.

Section LayoutCount.
Open Scope nat_scope.

Lemma filter_none {A : Type} (f : A -> bool) (l : list A) :
  (forall i a, nth_error l i = Some a -> f a = false) -> filter f l = [].
Proof.
  induction l as [|a l IH]; intros Hl; simpl; auto.
  rewrite (Hl 0 a eq_refl). apply IH. intros i b Hb. apply (Hl (S i) b Hb).
Qed.

Lemma photoParticle_type (photos : list string) (i : nat)
  (p : ParticleData.t) :
  photoParticle photos i p -> ParticleData.type p = photo.
Proof. intros (_ & Ht & _). assumption. Qed.

Lemma ornamentParticle_flags (i : nat) (p : ParticleData.t) :
  ornamentParticle i p ->
  isStar p = false /\ Visuals.spins p = false /\ Visuals.isPhoto p = false.
Proof.
  intros (_ & Ht). unfold isStar, Visuals.spins, Visuals.isPhoto.
  destruct Ht as [-> | [-> | [-> | ->]]]; repeat split; reflexivity.
Qed.

(** C5.  For every photo list the generated layout has
    [COUNT + photos.length + 1] particles, with [COUNT = 1200], and exactly
    one of them has the type of the top star: the last one. *)
Theorem generateParticles_count (rand : nat -> R) (photos : list string) :
  Geometry.COUNT = 1200
  /\ List.length (Geometry.generateParticles rand photos)
     = Geometry.COUNT + List.length photos + 1
  /\ List.length (filter isStar (Geometry.generateParticles rand photos)) = 1
  /\ nth_error (Geometry.generateParticles rand photos)
       (Geometry.COUNT + List.length photos) = Some Geometry.topStar.
Proof.
  destruct (generateParticles_shape rand photos)
    as (ps & os & -> & Hps & Hos & Hpn & Hon).
  split; [reflexivity|]. split; [|split].
  - rewrite !length_app, Hps, Hos. simpl. lia.
  - rewrite !filter_app.
    rewrite (filter_none isStar ps), (filter_none isStar os); [reflexivity| |].
    + intros i p Hi. apply (ornamentParticle_flags i p (Hon i p Hi)).
    + intros i p Hi. unfold isStar.
      rewrite (photoParticle_type photos i p (Hpn i p Hi)). reflexivity.
  - rewrite app_assoc, nth_error_app2; rewrite length_app, Hps, Hos; [|lia].
    replace (Geometry.COUNT + List.length photos
             - (List.length photos + Geometry.COUNT)) with 0 by lia.
    reflexivity.
Qed.

(** C10.  The generator never produces a particle of type [diamond]: the
    types in its output are photo, sphere, cube, snowflake, bell and star.
    The spin of the frame callback is defined for [diamond] and [star],
    and among the generated particles it selects the top star alone. *)
Theorem generateParticles_no_diamond (rand : nat -> R) (photos : list string) :
  Forall (fun p => ParticleData.type p <> diamond
                   /\ generatedType (ParticleData.type p))
         (Geometry.generateParticles rand photos)
  /\ (forall data : ParticleData.t,
        Visuals.spins data = true
        <-> ParticleData.type data = diamond \/ ParticleData.type data = star)
  /\ filter Visuals.spins (Geometry.generateParticles rand photos)
     = [Geometry.topStar].
Proof.
  destruct (generateParticles_shape rand photos)
    as (ps & os & -> & Hps & Hos & Hpn & Hon).
  split; [|split].
  - apply Forall_app. split; [|apply Forall_app; split].
    + apply Forall_forall. intros p Hp.
      apply In_nth_error in Hp as [i Hi].
      rewrite (photoParticle_type photos i p (Hpn i p Hi)).
      split; [discriminate|]. unfold generatedType. auto.
    + apply Forall_forall. intros p Hp.
      apply In_nth_error in Hp as [i Hi].
      destruct (Hon i p Hi) as (_ & Ht). unfold generatedType.
      destruct Ht as [-> | [-> | [-> | ->]]]; split; auto 7; discriminate.
    + constructor; [|constructor]. split; [discriminate|].
      unfold generatedType. simpl. auto 7.
  - intros data. unfold Visuals.spins.
    destruct (ParticleData.type data); simpl; split; intros Hd; auto;
      try discriminate; destruct Hd; discriminate.
  - rewrite !filter_app.
    rewrite (filter_none Visuals.spins ps), (filter_none Visuals.spins os);
      [reflexivity| |].
    + intros i p Hi. apply (ornamentParticle_flags i p (Hon i p Hi)).
    + intros i p Hi. unfold Visuals.spins.
      rewrite (photoParticle_type photos i p (Hpn i p Hi)). reflexivity.
Qed.

End LayoutCount.

(** ** The helix of the photo particles *)

Section Helix.
Open Scope R_scope.

Lemma INR_ratio_bounds (i n : nat) :
  (i < n)%nat -> 0 <= INR i / INR n < 1.
Proof.
  intros Hlt.
  assert (Hn : 0 < INR n) by (apply lt_0_INR; lia).
  assert (Hi : 0 <= INR i) by apply pos_INR.
  assert (Hin : INR i < INR n) by (apply lt_INR; assumption).
  split.
  - apply Rmult_le_pos; [assumption|]. left. apply Rinv_0_lt_compat, Hn.
  - apply Rmult_lt_reg_r with (INR n); [assumption|].
    unfold Rdiv. rewrite Rmult_assoc, Rinv_l; lra.
Qed.

Lemma photoT_band (i n : nat) :
  (i < n)%nat ->
  Geometry.photoT n i = 0.05 + 0.8 * (INR i / INR n)
  /\ 0.05 <= Geometry.photoT n i < 0.85.
Proof.
  intros Hlt. pose proof (INR_ratio_bounds i n Hlt) as Hb.
  unfold Geometry.photoT. split; lra.
Qed.

Lemma photoRadius_pos (i n : nat) :
  (i < n)%nat ->
  Geometry.photoRadius n i
  = Rpower (1 - Geometry.photoT n i) 0.8 * 9 + 3
  /\ 0 < Geometry.photoRadius n i.
Proof.
  intros Hlt. destruct (photoT_band i n Hlt) as [_ Hb].
  unfold Geometry.photoRadius, Math.pow, Geometry.RADIUS_BASE.
  destruct (Rlt_dec 0 (1 - Geometry.photoT n i)) as [_|Hn]; [|lra].
  assert (Hp : 0 < Rpower (1 - Geometry.photoT n i) 0.8)
    by (unfold Rpower; apply exp_pos).
  split; lra.
Qed.

Lemma circle_radius (r a : R) :
  0 <= r -> sqrt (cos a * r * (cos a * r) + sin a * r * (sin a * r)) = r.
Proof.
  intros Hr.
  replace (cos a * r * (cos a * r) + sin a * r * (sin a * r))
    with ((Rsqr (sin a) + Rsqr (cos a)) * (r * r)) by (unfold Rsqr; ring).
  rewrite sin2_cos2, Rmult_1_l. apply sqrt_square. assumption.
Qed.

(** The particle of index [i < n] is the one pushed by the photo loop at
    its iteration [i]. *)
Lemma photo_particle_at (rand : nat -> R) (photos : list string) (i : nat) :
  (i < List.length photos)%nat ->
  exists p,
    nth_error (Geometry.generateParticles rand photos) i = Some p
    /\ photoParticle photos i p.
Proof.
  intros Hi.
  destruct (generateParticles_shape rand photos)
    as (ps & os & -> & Hps & Hos & Hpn & Hon).
  destruct (nth_error ps i) as [p|] eqn:Ep;
    [|apply nth_error_None in Ep; lia].
  exists p. rewrite nth_error_app1 by lia. auto.
Qed.

(** C6, as the code has it.  For a photo list of length [n] and [i < n],
    the particle of index [i] is the photo [i]; with
    [t = 0.05 + 0.8 * (i / n)], evenly spaced in the band [0.05, 0.85), and
    the helix angle [theta = t * 2 * PI * 8], its rest pose is at distance
    [(1 - t)^0.8 * 9 + 3] from the trunk axis at angle [theta], its rest
    rotation about the vertical axis is [- theta + PI / 2], so that its
    face normal points outward from the axis, and its height is
    [0.8 * (t * HEIGHT - HEIGHT / 2)]: the vertical coordinate is
    compressed to 80%, so the pose sits at the fraction [0.1 + 0.8 * t] of
    the total height (between 14% and 78%), not at [t]. *)
Theorem photo_helix_pose (rand : nat -> R) (photos : list string) (i : nat) :
  (i < List.length photos)%nat ->
  exists p,
    nth_error (Geometry.generateParticles rand photos) i = Some p
    /\ ParticleData.type p = photo
    /\ let n := List.length photos in
       let t := 0.05 + 0.8 * (INR i / INR n) in
       let theta := t * PI * 2 * 8 in
       let r := Rpower (1 - t) 0.8 * 9 + 3 in
       0.05 <= t < 0.85
       /\ ParticleData.treePos p
          = (cos theta * r, 0.8 * (t * 24 - 24 / 2), sin theta * r)
       /\ heightFraction p = 0.1 + 0.8 * t
       /\ 0.14 <= heightFraction p < 0.78
       /\ helixRadius p = r
       /\ ParticleData.rotation p = (0, - theta + PI / 2, 0)
       /\ faceNormal p = (cos theta, 0, sin theta).
Proof.
  intros Hi.
  destruct (photo_particle_at rand photos i Hi)
    as (p & Hnth & _ & Hty & _ & Htree & Hrot).
  exists p. split; [assumption|]. split; [assumption|].
  destruct (photoT_band i _ Hi) as [Ht Hband].
  destruct (photoRadius_pos i _ Hi) as [Hr Hrpos].
  assert (Htheta : Geometry.photoTheta (List.length photos) i
                   = Geometry.photoT (List.length photos) i * PI * 2 * 8).
  { unfold Geometry.photoTheta, Math.PI. lra. }
  assert (Hpos : ParticleData.treePos p
                 = (cos (Geometry.photoTheta (List.length photos) i)
                    * Geometry.photoRadius (List.length photos) i,
                    0.8 * (Geometry.photoT (List.length photos) i * 24
                           - 24 / 2),
                    sin (Geometry.photoTheta (List.length photos) i)
                    * Geometry.photoRadius (List.length photos) i)).
  { rewrite Htree. unfold Geometry.photoTreePos, Geometry.HEIGHT, Math.cos,
      Math.sin. f_equal. f_equal. lra. }
  cbv zeta. rewrite <- Ht, <- Htheta, <- Hr.
  split; [assumption|]. split; [assumption|].
  assert (Hfrac : heightFraction p
                  = 0.1 + 0.8 * Geometry.photoT (List.length photos) i).
  { unfold heightFraction, Geometry.HEIGHT, THREE.vy. rewrite Hpos. simpl.
    lra. }
  split; [assumption|]. split; [rewrite Hfrac; lra|].
  split; [|split].
  - unfold helixRadius, Math.sqrt, THREE.vx, THREE.vz. rewrite Hpos. simpl.
    apply circle_radius. lra.
  - rewrite Hrot. unfold Math.PI. reflexivity.
  - unfold faceNormal, Math.sin, Math.cos, THREE.vy. rewrite Hrot. simpl.
    unfold Math.PI.
    replace (- Geometry.photoTheta (List.length photos) i + PI / 2)
      with (PI / 2 - Geometry.photoTheta (List.length photos) i) by lra.
    rewrite sin_shift, cos_shift. reflexivity.
Qed.

(** The theorem on a one-photo layout. *)
Lemma photo_helix_pose_witness :
  exists p,
    nth_error (Geometry.generateParticles (fun _ => 0) ["blob:photo"%string]) 0
    = Some p
    /\ ParticleData.type p = photo
    /\ helixRadius p = Rpower (1 - (0.05 + 0.8 * (INR 0 / INR 1))) 0.8 * 9 + 3
    /\ heightFraction p = 0.1 + 0.8 * (0.05 + 0.8 * (INR 0 / INR 1)).
Proof.
  destruct (photo_helix_pose (fun _ => 0) ["blob:photo"%string] 0)
    as (p & Hnth & Hty & _ & _ & Hfrac & _ & Hrad & _).
  - simpl. lia.
  - exists p. repeat split; assumption.
Defined.

(** C6, as stated, fails: the first photo of a one-photo layout has
    [t = 0.05], but its rest pose sits at 14% of the total height. *)
Lemma photo_height_fraction_counterexample :
  exists p,
    nth_error (Geometry.generateParticles (fun _ => 0) ["blob:photo"%string]) 0
    = Some p
    /\ heightFraction p = 0.14
    /\ heightFraction p <> 0.05 + 0.8 * (INR 0 / INR 1).
Proof.
  destruct (photo_particle_at (fun _ => 0) ["blob:photo"%string] 0)
    as (p & Hnth & _ & _ & _ & Htree & _); [simpl; lia|].
  exists p. split; [assumption|].
  assert (Hfrac : heightFraction p = 0.14).
  { unfold heightFraction, THREE.vy. rewrite Htree.
    unfold Geometry.photoTreePos, Geometry.photoT, Geometry.HEIGHT.
    simpl. lra. }
  split; [assumption|]. rewrite Hfrac. simpl. lra.
Qed.

End Helix.

(** ** The pose blender *)

Section PoseBlender.
Open Scope R_scope.

Lemma selected_and_photo (data : ParticleData.t) (mode : AppMode)
  (hoveredPhotoId : option string) :
  Visuals.isSelected data mode hoveredPhotoId && Visuals.isPhoto data
  = selectedZoomPhoto data mode hoveredPhotoId.
Proof.
  unfold Visuals.isSelected, Visuals.isCandidate, selectedZoomPhoto.
  destruct (AppMode_eqb mode ZOOM), (JS.strict_eq _ _), (Visuals.isPhoto data);
    reflexivity.
Qed.

Lemma zoom_photo_never_spins (data : ParticleData.t) (mode : AppMode)
  (hoveredPhotoId : option string) :
  selectedZoomPhoto data mode hoveredPhotoId = true ->
  mode = ZOOM /\ Visuals.spins data = false
  /\ (AppMode_eqb mode SCATTER && Visuals.isPhoto data = false).
Proof.
  unfold selectedZoomPhoto, Visuals.isPhoto, Visuals.spins. intros Hsel.
  apply andb_true_iff in Hsel as [Hsel Hph].
  apply andb_true_iff in Hsel as [Hm _].
  destruct mode; try discriminate.
  destruct (ParticleData.type data); try discriminate.
  repeat split; reflexivity.
Qed.

(** C4.  In zoom mode the target of the selected photo is the point
    [(0, 0, 6)] in front of the camera, the scale [5] and the identity
    rotation; the target of every other particle is its scatter position
    scaled by 3.5 in [x] and [y] and moved back by 40 in [z], with its own
    scale and rotation.  The blend rate is [15 * delta] for the selected
    zoom photo and [2.5 * delta] for every other particle in every mode,
    and it is the rate at which the frame moves position, scale and
    rotation towards the target: the rotation of every particle that is
    not a photo in scatter mode is blended angle by angle towards the
    target rotation (before the spin of the star is added), so the angles
    of the selected zoom photo shrink towards the identity rotation by
    the factor [1 - 15 * delta] per frame. *)
Theorem zoom_target_and_blend_rate (data : ParticleData.t)
  (mode : AppMode) (hoveredPhotoId : option string) (time delta : R)
  (cameraPosition : V3) (mesh : Visuals.Object3D) :
  Visuals.target data ZOOM hoveredPhotoId time
  = (if selectedZoomPhoto data ZOOM hoveredPhotoId
     then Visuals.mkTarget (0, 0, 6) 5 (0, 0, 0)
     else Visuals.mkTarget
            (THREE.vx (ParticleData.scatterPos data) * 3.5,
             THREE.vy (ParticleData.scatterPos data) * 3.5,
             THREE.vz (ParticleData.scatterPos data) - 40)
            (ParticleData.scale data)
            (ParticleData.rotation data))
  /\ Visuals.lerpSpeed data mode hoveredPhotoId delta
     = (if selectedZoomPhoto data mode hoveredPhotoId
        then delta * 15 else delta * 2.5)
  /\ (let frame := Visuals.ParticleInstance_frame data mode hoveredPhotoId
                     time delta cameraPosition mesh in
      let tg := Visuals.target data mode hoveredPhotoId time in
      let rate := Visuals.lerpSpeed data mode hoveredPhotoId delta in
      Visuals.position frame
      = THREE.lerp (Visuals.position mesh) (Visuals.targetPos tg) rate
      /\ THREE.vx (Visuals.scale frame)
         = THREE.MathUtils_lerp (THREE.vx (Visuals.scale mesh))
             (Visuals.targetScale tg) rate
      /\ (AppMode_eqb mode SCATTER && Visuals.isPhoto data = false ->
          Visuals.rotation frame
          = (THREE.MathUtils_lerp (THREE.vx (Visuals.rotation mesh))
               (THREE.vx (Visuals.targetRot tg)) rate,
             THREE.MathUtils_lerp (THREE.vy (Visuals.rotation mesh))
               (THREE.vy (Visuals.targetRot tg)) rate
             + (if Visuals.spins data then delta * 0.5 else 0),
             THREE.MathUtils_lerp (THREE.vz (Visuals.rotation mesh))
               (THREE.vz (Visuals.targetRot tg)) rate))
      /\ (selectedZoomPhoto data mode hoveredPhotoId = true ->
          Visuals.position frame
          = THREE.lerp (Visuals.position mesh) (0, 0, 6) (delta * 15)
          /\ THREE.vx (Visuals.scale frame)
             = THREE.MathUtils_lerp (THREE.vx (Visuals.scale mesh)) 5
                 (delta * 15)
          /\ Visuals.rotation frame
             = ((1 - delta * 15) * THREE.vx (Visuals.rotation mesh),
                (1 - delta * 15) * THREE.vy (Visuals.rotation mesh),
                (1 - delta * 15) * THREE.vz (Visuals.rotation mesh)))).
Proof.
  assert (Hrot : AppMode_eqb mode SCATTER && Visuals.isPhoto data = false ->
            Visuals.rotation
              (Visuals.ParticleInstance_frame data mode hoveredPhotoId time
                 delta cameraPosition mesh)
            = (THREE.MathUtils_lerp (THREE.vx (Visuals.rotation mesh))
                 (THREE.vx
                    (Visuals.targetRot
                       (Visuals.target data mode hoveredPhotoId time)))
                 (Visuals.lerpSpeed data mode hoveredPhotoId delta),
               THREE.MathUtils_lerp (THREE.vy (Visuals.rotation mesh))
                 (THREE.vy
                    (Visuals.targetRot
                       (Visuals.target data mode hoveredPhotoId time)))
                 (Visuals.lerpSpeed data mode hoveredPhotoId delta)
               + (if Visuals.spins data then delta * 0.5 else 0),
               THREE.MathUtils_lerp (THREE.vz (Visuals.rotation mesh))
                 (THREE.vz
                    (Visuals.targetRot
                       (Visuals.target data mode hoveredPhotoId time)))
                 (Visuals.lerpSpeed data mode hoveredPhotoId delta))).
  { intros Hns. unfold Visuals.ParticleInstance_frame.
    cbn [Visuals.rotation]. rewrite Hns.
    destruct (Visuals.spins data);
      unfold THREE.vx, THREE.vy, THREE.vz; cbn [fst snd]; [reflexivity|].
    rewrite Rplus_0_r. reflexivity. }
  assert (Htg : Visuals.target data ZOOM hoveredPhotoId time
                = (if selectedZoomPhoto data ZOOM hoveredPhotoId
                   then Visuals.mkTarget (0, 0, 6) 5 (0, 0, 0)
                   else Visuals.mkTarget
                          (THREE.vx (ParticleData.scatterPos data) * 3.5,
                           THREE.vy (ParticleData.scatterPos data) * 3.5,
                           THREE.vz (ParticleData.scatterPos data) - 40)
                          (ParticleData.scale data)
                          (ParticleData.rotation data))).
  { unfold Visuals.target. rewrite selected_and_photo.
    destruct (selectedZoomPhoto data ZOOM hoveredPhotoId) eqn:E.
    + f_equal. lra.
    + f_equal. unfold Visuals.isHighlighted. simpl.
      rewrite andb_false_r. reflexivity. }
  assert (Hsp : Visuals.lerpSpeed data mode hoveredPhotoId delta
                = (if selectedZoomPhoto data mode hoveredPhotoId
                   then delta * 15 else delta * 2.5)).
  { unfold Visuals.lerpSpeed. rewrite selected_and_photo. reflexivity. }
  split; [exact Htg|]. split; [exact Hsp|]. cbv zeta.
  split; [reflexivity|]. split; [reflexivity|]. split; [exact Hrot|].
  intros Hsel.
  destruct (zoom_photo_never_spins data mode hoveredPhotoId Hsel)
    as (-> & Hspin & Hns).
  rewrite (Hrot Hns), Hspin.
  unfold Visuals.ParticleInstance_frame.
  cbn [Visuals.position Visuals.scale].
  rewrite Hsp, Htg, Hsel.
  cbn [Visuals.targetPos Visuals.targetScale Visuals.targetRot].
  split; [reflexivity|]. split.
  - unfold THREE.vx. cbn [fst snd]. reflexivity.
  - unfold THREE.MathUtils_lerp, THREE.vx, THREE.vy, THREE.vz. cbn [fst snd].
    f_equal; [f_equal|]; ring.
Qed.

(** The two rates differ as soon as time has elapsed: the fast one is used
    exactly for the selected zoom photo. *)
Lemma lerpSpeed_fast_iff (data : ParticleData.t) (mode : AppMode)
  (hoveredPhotoId : option string) (delta : R) :
  delta <> 0 ->
  (Visuals.lerpSpeed data mode hoveredPhotoId delta = delta * 15
   <-> selectedZoomPhoto data mode hoveredPhotoId = true).
Proof.
  intros Hd. unfold Visuals.lerpSpeed. rewrite selected_and_photo.
  destruct (selectedZoomPhoto data mode hoveredPhotoId); split; auto.
  - intros Heq. exfalso. lra.
  - discriminate.
Qed.

End PoseBlender.

(** ** The focus selector *)

Section FocusSelector.
Open Scope R_scope.

Lemma gtb_true (a b : R) : JS.gtb a b = true <-> a > b.
Proof.
  unfold JS.gtb. destruct (Rgt_dec a b); split; auto; discriminate.
Qed.

Lemma gtb_false (a b : R) : JS.gtb a b = false <-> a <= b.
Proof.
  unfold JS.gtb. destruct (Rgt_dec a b); split; auto; try discriminate; lra.
Qed.

Lemma firstMax_snoc_keep {A : Type} (f : A -> R) (l : list A) (k : nat)
  (p a : A) :
  firstMax f l k p -> f a <= f p -> firstMax f (l ++ [a]) k p.
Proof.
  intros (Hk & Hmax & Hfirst) Hle.
  assert (Hlen : (k < List.length l)%nat)
    by (apply nth_error_Some; congruence).
  repeat split.
  - rewrite nth_error_app1; assumption.
  - intros j q Hj. destruct (Nat.lt_ge_cases j (List.length l)) as [Hlt|Hge].
    + rewrite nth_error_app1 in Hj by assumption. eauto.
    + rewrite nth_error_app2 in Hj by assumption.
      destruct (j - List.length l)%nat as [|[|n]]; simpl in Hj;
        try discriminate.
      injection Hj as <-. assumption.
  - intros j q Hjk Hj. rewrite nth_error_app1 in Hj by lia. eauto.
Qed.

Lemma firstMax_snoc_take {A : Type} (f : A -> R) (l : list A) (k : nat)
  (p a : A) :
  firstMax f l k p -> f a > f p -> firstMax f (l ++ [a]) (List.length l) a.
Proof.
  intros (Hk & Hmax & Hfirst) Hgt.
  assert (Hbelow : forall j q, nth_error l j = Some q -> f q < f a)
    by (intros j q Hj; specialize (Hmax j q Hj); lra).
  repeat split.
  - rewrite nth_error_app2, Nat.sub_diag; auto.
  - intros j q Hj. destruct (Nat.lt_ge_cases j (List.length l)) as [Hlt|Hge].
    + rewrite nth_error_app1 in Hj by assumption. left. eauto.
    + rewrite nth_error_app2 in Hj by assumption.
      destruct (j - List.length l)%nat as [|[|n]]; simpl in Hj;
        try discriminate.
      injection Hj as <-. lra.
  - intros j q Hjk Hj. rewrite nth_error_app1 in Hj by assumption. eauto.
Qed.

(** The scan keeps the first maximum of what it has seen. *)
Lemma scan_keeps_firstMax (mode : AppMode) (camDir : V3)
  (rest : list ParticleData.t) :
  forall (seen : list ParticleData.t) (k : nat) (p : ParticleData.t),
    firstMax (Visuals.dotOf mode camDir) seen k p ->
    exists k' p',
      firstMax (Visuals.dotOf mode camDir) (seen ++ rest) k' p'
      /\ fold_left (Visuals.scanStep mode camDir) rest
           (Some (ParticleData.id p), Some (Visuals.dotOf mode camDir p))
         = (Some (ParticleData.id p'), Some (Visuals.dotOf mode camDir p')).
Proof.
  induction rest as [|a rest IH]; intros seen k p Hp.
  - exists k, p. rewrite app_nil_r. auto.
  - simpl. unfold Visuals.scanStep at 2. simpl.
    replace (seen ++ a :: rest) with ((seen ++ [a]) ++ rest)
      by (rewrite <- app_assoc; reflexivity).
    destruct (JS.gtb (Visuals.dotOf mode camDir a)
                (Visuals.dotOf mode camDir p)) eqn:E.
    + apply gtb_true in E. eapply IH, firstMax_snoc_take; eauto.
    + apply gtb_false in E. eapply IH, firstMax_snoc_keep; eauto.
Qed.

Lemma scan_firstMax (mode : AppMode) (camDir : V3)
  (photoParticles : list ParticleData.t) :
  photoParticles <> [] ->
  exists k p,
    firstMax (Visuals.dotOf mode camDir) photoParticles k p
    /\ Visuals.scan mode camDir photoParticles
       = (Some (ParticleData.id p), Some (Visuals.dotOf mode camDir p)).
Proof.
  destruct photoParticles as [|a rest]; [congruence|]. intros _.
  unfold Visuals.scan. simpl. unfold Visuals.scanStep at 2. simpl.
  apply (scan_keeps_firstMax mode camDir rest [a] 0 a).
  repeat split.
  - intros [|[|j]] q Hj; simpl in Hj; try discriminate.
    injection Hj as <-. lra.
  - intros j q Hj. lia.
Qed.

Lemma dotOf_unfold (mode : AppMode) (cameraPosition : V3)
  (p : ParticleData.t) :
  Visuals.dotOf mode (THREE.normalize cameraPosition) p
  = THREE.dot (THREE.normalize cameraPosition)
      (THREE.normalize
         (match mode with
          | TREE => ParticleData.treePos p
          | _ => ParticleData.scatterPos p
          end)).
Proof.
  unfold Visuals.dotOf, Visuals.restPos, THREE.vx, THREE.vy, THREE.vz.
  destruct mode; simpl;
    [destruct (ParticleData.treePos p) as [[? ?] ?]
    |destruct (ParticleData.scatterPos p) as [[? ?] ?]
    |destruct (ParticleData.scatterPos p) as [[? ?] ?]]; reflexivity.
Qed.

(** C3.  In zoom mode, and when there is no photo particle, the frame of
    the focus selector makes no update and the focus id is unchanged.
    Otherwise the candidate is the first photo particle, in array order,
    among those that maximize the dot product of the normalized rest
    position of the mode (tree position in tree mode, scatter position
    otherwise) with the normalized camera position; the focus id becomes
    the candidate's id when that maximum exceeds 0.65 and is cleared
    otherwise. *)
Theorem focus_selector_frame (particles : list ParticleData.t)
  (mode : AppMode) (cameraPosition : V3) (hoveredPhotoId : option string) :
  let photoParticles := filter Visuals.isPhoto particles in
  (mode = ZOOM \/ photoParticles = [] ->
   Visuals.FocusManager_frame particles mode cameraPosition = None
   /\ Visuals.focusAfterFrame particles mode cameraPosition hoveredPhotoId
      = hoveredPhotoId)
  /\ (mode <> ZOOM -> photoParticles <> [] ->
      exists k p,
        firstMax (aim mode cameraPosition) photoParticles k p
        /\ ParticleData.type p = photo
        /\ (aim mode cameraPosition p > 0.65 ->
            Visuals.focusAfterFrame particles mode cameraPosition hoveredPhotoId
            = Some (ParticleData.id p))
        /\ (aim mode cameraPosition p <= 0.65 ->
            Visuals.focusAfterFrame particles mode cameraPosition hoveredPhotoId
            = None)).
Proof.
  intros photoParticles. split.
  - intros Hnoop.
    assert (Hf : Visuals.FocusManager_frame particles mode cameraPosition
                 = None).
    { unfold Visuals.FocusManager_frame.
      destruct Hnoop as [-> | Hnone]; [reflexivity|].
      destruct (AppMode_eqb mode ZOOM); [reflexivity|].
      fold photoParticles. rewrite Hnone. reflexivity. }
    split; [assumption|]. unfold Visuals.focusAfterFrame. rewrite Hf.
    reflexivity.
  - intros Hmode Hsome.
    destruct (scan_firstMax mode (THREE.normalize cameraPosition)
                photoParticles Hsome) as (k & p & Hmax & Hscan).
    exists k, p.
    assert (Haim : forall q,
              Visuals.dotOf mode (THREE.normalize cameraPosition) q
              = aim mode cameraPosition q)
      by (intros q; apply dotOf_unfold).
    assert (Hframe : Visuals.FocusManager_frame particles mode cameraPosition
                     = if JS.gtb (aim mode cameraPosition p) 0.65
                       then Some (Some (ParticleData.id p))
                       else Some None).
    { unfold Visuals.FocusManager_frame.
      destruct mode; try congruence; simpl; fold photoParticles;
        (destruct photoParticles as [|a rest] eqn:El; [congruence|]);
        rewrite Hscan, Haim; reflexivity. }
    split; [|split; [|split]].
    + destruct Hmax as (Hk & Hle & Hlt). repeat split.
      * assumption.
      * intros j q Hj. rewrite <- !Haim. eauto.
      * intros j q Hjk Hj. rewrite <- !Haim. eauto.
    + destruct Hmax as (Hk & _). apply nth_error_In in Hk.
      apply filter_In in Hk as [_ Hk]. unfold Visuals.isPhoto in Hk.
      destruct (ParticleData.type p); try discriminate. reflexivity.
    + intros Hgt. unfold Visuals.focusAfterFrame. rewrite Hframe.
      apply gtb_true in Hgt. rewrite Hgt. reflexivity.
    + intros Hle. unfold Visuals.focusAfterFrame. rewrite Hframe.
      apply gtb_false in Hle. rewrite Hle. reflexivity.
Qed.

End FocusSelector.

Section FocusExamples.
Open Scope R_scope.

Lemma normalize_on_x (a : R) : 0 < a -> THREE.normalize (a, 0, 0) = (1, 0, 0).
Proof.
  intros Ha. unfold THREE.normalize, THREE.length, Math.sqrt, THREE.vx,
    THREE.vy, THREE.vz. simpl.
  replace (a * a + 0 * 0 + 0 * 0) with (a * a) by ring.
  rewrite sqrt_square by lra.
  destruct (Req_dec_T a 0) as [E|_]; [lra|].
  f_equal; [f_equal|]; field; lra.
Qed.

Lemma normalize_on_z (a : R) : 0 < a -> THREE.normalize (0, 0, a) = (0, 0, 1).
Proof.
  intros Ha. unfold THREE.normalize, THREE.length, Math.sqrt, THREE.vx,
    THREE.vy, THREE.vz. simpl.
  replace (0 * 0 + 0 * 0 + a * a) with (a * a) by ring.
  rewrite sqrt_square by lra.
  destruct (Req_dec_T a 0) as [E|_]; [lra|].
  f_equal; [f_equal|]; field; lra.
Qed.

(** Seen from the [x] axis in tree mode the photo is dead centre and takes
    the focus; seen from the [z] axis it is at a right angle and the focus
    is cleared. *)
Example focus_on_axis :
  Visuals.focusAfterFrame [Geometry.topStar; photoOnX] TREE (28, 0, 0) None
  = Some "p-photo-0"%string
  /\ Visuals.focusAfterFrame [Geometry.topStar; photoOnX] TREE (0, 0, 28)
       (Some "p-photo-0"%string)
     = None.
Proof.
  unfold Visuals.focusAfterFrame, Visuals.FocusManager_frame, Visuals.scan.
  simpl. unfold Visuals.scanStep. simpl.
  unfold Visuals.dotOf, Visuals.restPos. simpl.
  change (THREE.vx (12, 0, 0)) with 12. change (THREE.vy (12, 0, 0)) with 0.
  rewrite !normalize_on_x, normalize_on_z by lra.
  unfold THREE.dot, THREE.vx, THREE.vy, THREE.vz. simpl.
  split.
  - replace (JS.gtb (1 * 1 + 0 * 0 + 0 * 0) 0.65) with true; [reflexivity|].
    symmetry. apply gtb_true. lra.
  - replace (JS.gtb (0 * 1 + 0 * 0 + 1 * 0) 0.65) with false; [reflexivity|].
    symmetry. apply gtb_false. lra.
Qed.

(** The theorem on a two-particle scene: no update in zoom mode, a first
    maximum among the photo particles in tree mode. *)
Lemma focus_selector_frame_witness :
  Visuals.FocusManager_frame [Geometry.topStar; photoOnX] ZOOM (28, 0, 0)
  = None
  /\ exists k p,
       firstMax (aim TREE (28, 0, 0))
         (filter Visuals.isPhoto [Geometry.topStar; photoOnX]) k p
       /\ ParticleData.type p = photo.
Proof.
  split.
  - destruct (focus_selector_frame [Geometry.topStar; photoOnX] ZOOM
                (28, 0, 0) None) as [Hnoop _].
    apply Hnoop. left. reflexivity.
  - destruct (focus_selector_frame [Geometry.topStar; photoOnX] TREE
                (28, 0, 0) None) as [_ Hpick].
    destruct Hpick as (k & p & Hmax & Hty & _).
    + discriminate.
    + simpl. discriminate.
    + exists k, p. split; assumption.
Defined.

Lemma normalize_self_dot (v : V3) :
  THREE.length v <> 0 ->
  THREE.dot (THREE.normalize v) (THREE.normalize v) = 1.
Proof.
  intros Hl. unfold THREE.normalize, THREE.dot.
  destruct (Req_dec_T (THREE.length v) 0) as [E|_]; [contradiction|].
  destruct v as [[a b] c]. unfold THREE.length, Math.sqrt in *.
  unfold THREE.vx, THREE.vy, THREE.vz in *. simpl in *.
  assert (Hs : 0 <= a * a + b * b + c * c) by nra.
  pose proof (sqrt_sqrt _ Hs) as Hsq.
  set (l := sqrt (a * a + b * b + c * c)) in *.
  replace (a / l * (a / l) + b / l * (b / l) + c / l * (c / l))
    with ((a * a + b * b + c * c) / (l * l)) by (field; assumption).
  rewrite Hsq. field. rewrite <- Hsq. nra.
Qed.

Lemma cameraOnFirstPhoto_length : THREE.length cameraOnFirstPhoto <> 0.
Proof.
  unfold cameraOnFirstPhoto, Geometry.photoTreePos, THREE.length, Math.sqrt,
    THREE.vx, THREE.vy, THREE.vz. simpl.
  set (x := Math.cos _ * _). set (z := Math.sin _ * _).
  set (y := (Geometry.photoT 1 0 * Geometry.HEIGHT - Geometry.HEIGHT / 2) * 0.8).
  assert (Hy : y = -8.64)
    by (unfold y, Geometry.photoT, Geometry.HEIGHT; simpl; lra).
  assert (Hpos : 0 < x * x + y * y + z * z) by (rewrite Hy; nra).
  apply sqrt_lt_R0 in Hpos. lra.
Qed.

(** With a single photo, a frame of the focus selector with the camera in
    the direction of the photo puts the focus on it. *)
Lemma focus_on_only_photo (rand : nat -> R) (hoveredPhotoId : option string) :
  Visuals.focusAfterFrame
    (Geometry.generateParticles rand ["blob:photo"%string]) TREE
    cameraOnFirstPhoto hoveredPhotoId
  = Some "p-photo-0"%string.
Proof.
  destruct (generateParticles_shape rand ["blob:photo"%string])
    as (ps & os & -> & Hps & Hos & Hpn & Hon).
  destruct ps as [|p0 [|p1 ps]]; try discriminate. clear Hps.
  destruct (Hpn 0%nat p0 eq_refl) as (Hid & Hty & _ & Htree & _).
  assert (Hfilter : filter Visuals.isPhoto ([p0] ++ os ++ [Geometry.topStar])
                    = [p0]).
  { rewrite !filter_app, (filter_none Visuals.isPhoto os).
    - simpl. unfold Visuals.isPhoto at 1. rewrite Hty. reflexivity.
    - intros i p Hi. apply (ornamentParticle_flags i p (Hon i p Hi)). }
  unfold Visuals.focusAfterFrame, Visuals.FocusManager_frame.
  rewrite Hfilter. simpl.
  unfold Visuals.scan, Visuals.scanStep. simpl.
  rewrite dotOf_unfold, Htree. simpl.
  change (Geometry.photoTreePos 1 0) with cameraOnFirstPhoto.
  rewrite (normalize_self_dot _ cameraOnFirstPhoto_length).
  replace (JS.gtb 1 0.65) with true by (symmetry; apply gtb_true; lra).
  rewrite Hid. reflexivity.
Qed.

(** The state of the session after the frame. *)
Lemma aimedAtPhoto_state (rand : nat -> R) :
  aimedAtPhoto rand
  = App.mk (Debounce.useDebouncedState TREE App.delay 0)
      (App.mkHandPos 0.5 0.5 0 0)
      ["blob:photo"%string]
      (Geometry.generateParticles rand ["blob:photo"%string])
      (Some "p-photo-0"%string).
Proof.
  unfold aimedAtPhoto, App.setHoveredPhotoId. cbv zeta.
  change (App.particles
            (App.uploadPhotos rand ["blob:photo"%string] (App.init rand 0)))
    with (Geometry.generateParticles rand ["blob:photo"%string]).
  rewrite focus_on_only_photo. reflexivity.
Qed.

End FocusExamples.

(** ** The mode state machine of [App] *)

Section ModeMachine.
Import React.
Open Scope Z_scope.

(** A callback that closed over the focus id [h] decides by the
    transition table, read against the pending value of the debounce hook
    and against [h]. *)
Lemma rawDecision_pending_table (h : option string)
  (data : HandGestureData.t) (app : App.t) :
  h <> Some EmptyString ->
  App.rawDecision h data app
  = transitionTable (HandGestureData.gesture data)
      (Debounce.tempState (App.mode app)) h.
Proof.
  intros Hid. unfold App.rawDecision, App.gestureAction, transitionTable.
  destruct (String.eqb _ "Closed_Fist").
  - simpl. destruct (Debounce.tempState (App.mode app));
      destruct h as [[|c r]|]; simpl; congruence.
  - destruct (String.eqb _ "Open_Palm"); auto.
    destruct (String.eqb _ "Pinch"); auto.
    destruct (String.eqb _ "Pointing_Up"); auto.
    destruct (String.eqb _ "Unknown"); auto.
Qed.

Lemma handleGestureUpdate_mode (h : option string) (now : Z)
  (data : HandGestureData.t) (app : App.t) :
  Debounce.tempState (App.mode (App.handleGestureUpdate h now data app))
  = App.rawDecision h data app.
Proof.
  unfold App.handleGestureUpdate, App.rawDecision. simpl.
  apply setTempState_tempState.
Qed.

(** The callback the recognizer loop holds closed over no focus id: its
    decision is a function of the gesture alone. *)
Lemma rawDecision_wired (data : HandGestureData.t) (app : App.t) :
  HandManager.rawDecision data app
  = gestureDecision (HandGestureData.gesture data).
Proof.
  unfold HandManager.rawDecision, App.rawDecision, App.gestureAction,
    gestureDecision.
  destruct (String.eqb _ "Closed_Fist") eqn:Ef.
  - apply String.eqb_eq in Ef. rewrite Ef. simpl.
    rewrite andb_false_r. reflexivity.
  - destruct (String.eqb _ "Open_Palm"); auto.
    destruct (String.eqb _ "Pinch"); auto.
    destruct (String.eqb _ "Pointing_Up"); auto.
    destruct (String.eqb _ "Unknown"); auto.
Qed.

Lemma onGestureUpdate_mode (now : Z) (data : HandGestureData.t)
  (app : App.t) :
  Debounce.tempState (App.mode (HandManager.onGestureUpdate now data app))
  = gestureDecision (HandGestureData.gesture data).
Proof.
  unfold HandManager.onGestureUpdate. rewrite handleGestureUpdate_mode.
  apply rawDecision_wired.
Qed.

(** C1 (the code departs from the table).  The recognizer loop keeps the
    [handleGestureUpdate] of the first render, which closed over the
    initial focus id [null]; the focus id that [App] holds when a sample
    arrives is never read.  With one photo uploaded and the focus on it,
    the application in tree mode, a closed hand decides tree where the
    table says zoom, and the application stays in tree.  In every state a
    closed hand decides tree.  The decision of the code is the one of the
    table except for a closed hand that arrives while the mode is not
    zoom and the focus id is set. *)
Theorem closed_hand_never_grabs (rand : nat -> R) :
  (App.currentMode 1000 (aimedAtPhoto rand) = TREE
   /\ App.hoveredPhotoId (aimedAtPhoto rand) = Some "p-photo-0"%string
   /\ HandManager.rawDecision (sample "Closed_Fist") (aimedAtPhoto rand)
      = TREE
   /\ transitionTable "Closed_Fist" TREE (Some "p-photo-0"%string) = ZOOM
   /\ forall now,
        App.currentMode now
          (HandManager.onGestureUpdate 1000 (sample "Closed_Fist")
             (aimedAtPhoto rand))
        = TREE)
  /\ (forall (now : Z) (app : App.t),
        HandManager.rawDecision (sample "Closed_Fist") app = TREE
        /\ Debounce.tempState
             (App.mode
                (HandManager.onGestureUpdate now (sample "Closed_Fist") app))
           = TREE)
  /\ (forall (data : HandGestureData.t) (now : Z) (app : App.t),
        HandManager.rawDecision data app
        = transitionTable (HandGestureData.gesture data)
            (App.currentMode now app) (App.hoveredPhotoId app)
        \/ (HandGestureData.gesture data = "Closed_Fist"%string
            /\ App.currentMode now app <> ZOOM
            /\ App.hoveredPhotoId app <> None
            /\ HandManager.rawDecision data app = TREE
            /\ transitionTable (HandGestureData.gesture data)
                 (App.currentMode now app) (App.hoveredPhotoId app)
               = ZOOM)).
Proof.
  split; [|split].
  - rewrite aimedAtPhoto_state. repeat split; reflexivity.
  - intros now app. split.
    + apply rawDecision_wired.
    + apply onGestureUpdate_mode.
  - intros data now app. rewrite rawDecision_wired.
    unfold gestureDecision, transitionTable.
    destruct (String.eqb _ "Closed_Fist") eqn:Ef.
    + apply String.eqb_eq in Ef. rewrite Ef. simpl.
      destruct (App.currentMode now app) eqn:Em;
        destruct (App.hoveredPhotoId app) eqn:Eh; auto;
        right; repeat split; congruence.
    + left. reflexivity.
Qed.

End ModeMachine.

(** ** The camera rig *)

Section CameraRig.
Open Scope R_scope.

Lemma sin_at_left_end : 0 < sin (- (1.25 * PI)).
Proof.
  pose proof PI_RGT_0 as Hpi.
  rewrite <- (sin_period (- (1.25 * PI)) 1).
  apply sin_gt_0; simpl; lra.
Qed.

Lemma sin_of_claimed_end : sin (- (1.25 * turn)) = -1.
Proof.
  unfold turn. rewrite sin_neg.
  replace (1.25 * (2 * PI)) with (PI / 2 + 2 * INR 1 * PI) by (simpl; lra).
  rewrite sin_period, sin_PI2. reflexivity.
Qed.

(** C7 (the code departs from the claim and from its own comment).  The
    horizontal signal maps linearly to the azimuth
    [(handX - 0.5) * 2.5 * PI], which is [0] at the centre.  At the ends
    of the signal range the azimuth is [-1.25 * PI] and [1.25 * PI]
    radians, that is, 0.625 turn to each side: not the 1.25 turns of the
    claim, and not the [-PI] and [+PI] that the comment above the line
    promises.  The three differ in where they send the camera: at
    [handX = 0] the orbit steers to a point on the positive [x] side,
    where the comment's angle gives [x = 0] and the claim's angle the
    negative [x] axis.  The signal range covers exactly the azimuths
    within [1.25 * PI] of the centre. *)
Theorem azimuth_at_signal_ends :
  (forall hx, Visuals.targetAzimuth hx = (hx - 0.5) * 2.5 * PI)
  /\ Visuals.targetAzimuth 0.5 = 0
  /\ Visuals.targetAzimuth 0 = - (1.25 * PI)
  /\ Visuals.targetAzimuth 1 = 1.25 * PI
  /\ Visuals.targetAzimuth 0 = - (0.625 * turn)
  /\ Visuals.targetAzimuth 1 = 0.625 * turn
  /\ Visuals.targetAzimuth 0 <> - (1.25 * turn)
  /\ Visuals.targetAzimuth 1 <> 1.25 * turn
  /\ Visuals.targetAzimuth 0 <> - PI
  /\ Visuals.targetAzimuth 1 <> PI
  /\ (0 < sin (Visuals.targetAzimuth 0)
      /\ sin (- PI) = 0
      /\ sin (- (1.25 * turn)) = -1)
  /\ (forall hx, 0 <= hx <= 1 ->
        - (1.25 * PI) <= Visuals.targetAzimuth hx <= 1.25 * PI)
  /\ (forall a, - (1.25 * PI) <= a <= 1.25 * PI ->
        exists hx, 0 <= hx <= 1 /\ Visuals.targetAzimuth hx = a)
  /\ (forall d hx hy cam,
        Visuals.cam_position (Visuals.orbit d hx hy cam)
        = (THREE.MathUtils_lerp (THREE.vx (Visuals.cam_position cam))
             (sin (Visuals.targetAzimuth hx) * d) 0.1,
           THREE.MathUtils_lerp (THREE.vy (Visuals.cam_position cam))
             (Visuals.targetPolar hy) 0.1,
           THREE.MathUtils_lerp (THREE.vz (Visuals.cam_position cam))
             (cos (Visuals.targetAzimuth hx) * d) 0.1)).
Proof.
  pose proof PI_RGT_0 as Hpi.
  assert (H0 : Visuals.targetAzimuth 0 = - (1.25 * PI))
    by (unfold Visuals.targetAzimuth, Math.PI; lra).
  split; [intros hx; unfold Visuals.targetAzimuth, Math.PI; ring|].
  split; [unfold Visuals.targetAzimuth, Math.PI; lra|].
  split; [exact H0|].
  split; [unfold Visuals.targetAzimuth, Math.PI; lra|].
  split; [unfold Visuals.targetAzimuth, Math.PI, turn; lra|].
  split; [unfold Visuals.targetAzimuth, Math.PI, turn; lra|].
  split; [unfold Visuals.targetAzimuth, Math.PI, turn; lra|].
  split; [unfold Visuals.targetAzimuth, Math.PI, turn; lra|].
  split; [unfold Visuals.targetAzimuth, Math.PI; lra|].
  split; [unfold Visuals.targetAzimuth, Math.PI; lra|].
  split.
  { rewrite H0. split; [apply sin_at_left_end|].
    split; [rewrite sin_neg, sin_PI; lra|apply sin_of_claimed_end]. }
  unfold Visuals.targetAzimuth, Math.PI.
  split; [intros hx Hx; split; nra|].
  split; [|reflexivity].
  intros a Ha. exists (a / (PI * 2.5) + 0.5).
  assert (Hinv : 0 < / (PI * 2.5)) by (apply Rinv_0_lt_compat; lra).
  assert (Hone : PI * 2.5 * / (PI * 2.5) = 1) by (apply Rinv_r; lra).
  unfold Rdiv. repeat split; nra.
Qed.

(** Whatever [z] is, a frame built on [up x z] is level. *)
Lemma level_of_cross (z : V3) :
  THREE.vy (THREE.normalize (THREE.cross THREE.DEFAULT_UP z)) = 0
  /\ 0 <= THREE.vy
            (THREE.cross z
               (THREE.normalize (THREE.cross THREE.DEFAULT_UP z))).
Proof.
  destruct z as [[a b] c].
  unfold THREE.normalize.
  set (l := if Req_dec_T
                  (THREE.length (THREE.cross THREE.DEFAULT_UP (a, b, c))) 0
            then 1 else THREE.length (THREE.cross THREE.DEFAULT_UP (a, b, c))).
  assert (Hl : 0 < l).
  { unfold l. destruct (Req_dec_T _ 0) as [_|Hn]; [lra|].
    pose proof (sqrt_pos
                  (THREE.vx (THREE.cross THREE.DEFAULT_UP (a, b, c))
                   * THREE.vx (THREE.cross THREE.DEFAULT_UP (a, b, c))
                   + THREE.vy (THREE.cross THREE.DEFAULT_UP (a, b, c))
                     * THREE.vy (THREE.cross THREE.DEFAULT_UP (a, b, c))
                   + THREE.vz (THREE.cross THREE.DEFAULT_UP (a, b, c))
                     * THREE.vz (THREE.cross THREE.DEFAULT_UP (a, b, c))))
      as Hs.
    unfold THREE.length, Math.sqrt in *. lra. }
  clearbody l.
  unfold THREE.cross, THREE.DEFAULT_UP, THREE.vx, THREE.vy, THREE.vz.
  cbn [fst snd]. split.
  - unfold Rdiv. ring.
  - replace (c * ((1 * c - 0 * b) / l) - a * ((0 * b - 1 * a) / l))
      with ((c * c + a * a) * / l) by (field; lra).
    apply Rmult_le_pos; [nra|]. left. apply Rinv_0_lt_compat. assumption.
Qed.

Lemma lookAt_cross (eye target : V3) :
  exists z,
    THREE.zAxis (THREE.Matrix4_lookAt eye target THREE.DEFAULT_UP) = z
    /\ THREE.xAxis (THREE.Matrix4_lookAt eye target THREE.DEFAULT_UP)
       = THREE.normalize (THREE.cross THREE.DEFAULT_UP z)
    /\ THREE.yAxis (THREE.Matrix4_lookAt eye target THREE.DEFAULT_UP)
       = THREE.cross z (THREE.normalize (THREE.cross THREE.DEFAULT_UP z)).
Proof.
  unfold THREE.Matrix4_lookAt. cbv zeta.
  destruct (Req_dec_T (THREE.lengthSq (THREE.cross THREE.DEFAULT_UP _)) 0);
    eexists; cbn [THREE.xAxis THREE.yAxis THREE.zAxis];
    split; try reflexivity; split; reflexivity.
Qed.

Lemma lookAt_level (eye target : V3) :
  THREE.vy (THREE.xAxis (THREE.Matrix4_lookAt eye target THREE.DEFAULT_UP))
  = 0
  /\ 0 <= THREE.vy
            (THREE.yAxis (THREE.Matrix4_lookAt eye target THREE.DEFAULT_UP)).
Proof.
  destruct (lookAt_cross eye target) as (z & _ & -> & ->).
  apply level_of_cross.
Qed.

(** Off the vertical axis the backward axis of a camera that looks at the
    origin is the direction from the origin to the camera. *)
Lemma lookAt_origin_axis (eye : V3) :
  THREE.vx eye <> 0 \/ THREE.vz eye <> 0 ->
  THREE.zAxis (THREE.Camera_lookAt eye (0, 0, 0)) = THREE.normalize eye.
Proof.
  intros Hoff. destruct eye as [[a b] c].
  unfold THREE.vx, THREE.vz in Hoff. cbn [fst snd] in Hoff.
  assert (Hsq : 0 < a * a + b * b + c * c) by (destruct Hoff; nra).
  assert (Hsub : THREE.sub (a, b, c) (0, 0, 0) = (a, b, c)).
  { unfold THREE.sub, THREE.vx, THREE.vy, THREE.vz. cbn [fst snd].
    f_equal; [f_equal|]; ring. }
  unfold THREE.Camera_lookAt, THREE.Matrix4_lookAt. cbv zeta.
  rewrite Hsub.
  destruct (Req_dec_T (THREE.lengthSq (a, b, c)) 0) as [E|_].
  { unfold THREE.lengthSq, THREE.vx, THREE.vy, THREE.vz in E.
    cbn [fst snd] in E. lra. }
  destruct (Req_dec_T
              (THREE.lengthSq
                 (THREE.cross THREE.DEFAULT_UP (THREE.normalize (a, b, c))))
              0) as [E|_]; [|reflexivity].
  exfalso.
  unfold THREE.normalize in E.
  set (l := if Req_dec_T (THREE.length (a, b, c)) 0 then 1
            else THREE.length (a, b, c)) in E.
  assert (Hl : 0 < l).
  { unfold l. destruct (Req_dec_T _ 0) as [_|Hn]; [lra|].
    pose proof (sqrt_pos (a * a + b * b + c * c)) as Hs.
    unfold THREE.length, Math.sqrt, THREE.vx, THREE.vy, THREE.vz in *.
    cbn [fst snd] in *. lra. }
  clearbody l.
  unfold THREE.lengthSq, THREE.cross, THREE.DEFAULT_UP, THREE.vx, THREE.vy,
    THREE.vz in E.
  cbn [fst snd] in E.
  assert (Hil : 0 < / l) by (apply Rinv_0_lt_compat; assumption).
  assert (Ha : a / l * (a / l) = a * a * (/ l * / l))
    by (unfold Rdiv; ring).
  assert (Hc : c / l * (c / l) = c * c * (/ l * / l))
    by (unfold Rdiv; ring).
  assert (Hpos : 0 < a * a + c * c) by (destruct Hoff; nra).
  assert (Hll : 0 < / l * / l) by nra.
  assert (Hprod : 0 < (a * a + c * c) * (/ l * / l))
    by (apply Rmult_lt_0_compat; assumption).
  nra.
Qed.

(** C8.  The camera that a frame of the rig produces is not rolled: its
    right axis is horizontal and its up axis does not point down.  The
    frame sets [rotation.z] to zero first, and then every branch of the
    mode ends with [lookAt(0, 0, 0)], which sets the whole orientation
    from the new position with the world's up: the orientation is the one
    [lookAt] derives from the new position, the Euler angles are the ones
    of that orientation, and off the vertical axis the camera looks
    straight at the origin.  The roll signal of the gesture is not used:
    two frames that agree on the mode, the horizontal and vertical
    signals and the previous camera produce the same camera, whatever
    their roll signals (and their depth signals) are.  Nor does the
    previous orientation of the camera matter. *)
Theorem camera_rig_ignores_roll
  (handX handY handZ1 handZ2 roll1 roll2 : R) (mode : AppMode)
  (cam : Visuals.Camera) :
  Visuals.CameraRig_frame handX handY handZ1 roll1 mode cam
  = Visuals.CameraRig_frame handX handY handZ2 roll2 mode cam
  /\ horizonLevel (Visuals.CameraRig_frame handX handY handZ1 roll1 mode cam)
  /\ Visuals.cam_quaternion
       (Visuals.CameraRig_frame handX handY handZ1 roll1 mode cam)
     = THREE.Camera_lookAt
         (Visuals.cam_position
            (Visuals.CameraRig_frame handX handY handZ1 roll1 mode cam))
         (0, 0, 0)
  /\ Visuals.cam_rotation
       (Visuals.CameraRig_frame handX handY handZ1 roll1 mode cam)
     = THREE.Euler_setFromRotationMatrix
         (Visuals.cam_quaternion
            (Visuals.CameraRig_frame handX handY handZ1 roll1 mode cam))
  /\ (let position :=
        Visuals.cam_position
          (Visuals.CameraRig_frame handX handY handZ1 roll1 mode cam) in
      THREE.vx position <> 0 \/ THREE.vz position <> 0 ->
      THREE.zAxis
        (Visuals.cam_quaternion
           (Visuals.CameraRig_frame handX handY handZ1 roll1 mode cam))
      = THREE.normalize position)
  /\ (forall rotation quaternion,
        Visuals.CameraRig_frame handX handY handZ1 roll1 mode
          (Visuals.mkCamera (Visuals.cam_position cam) rotation quaternion)
        = Visuals.CameraRig_frame handX handY handZ1 roll1 mode cam).
Proof.
  split; [reflexivity|].
  assert (Hq : Visuals.cam_quaternion
                 (Visuals.CameraRig_frame handX handY handZ1 roll1 mode cam)
               = THREE.Camera_lookAt
                   (Visuals.cam_position
                      (Visuals.CameraRig_frame handX handY handZ1 roll1 mode
                         cam))
                   (0, 0, 0))
    by (destruct mode; reflexivity).
  split; [|split; [exact Hq|split; [|split]]].
  - unfold horizonLevel. rewrite Hq. apply lookAt_level.
  - destruct mode; reflexivity.
  - cbv zeta. intros Hoff. rewrite Hq. apply lookAt_origin_axis. exact Hoff.
  - intros rotation quaternion. destruct mode; reflexivity.
Qed.

(** The theorem on the camera at rest in front of the tree, under the
    neutral gesture. *)
Lemma camera_rig_ignores_roll_witness :
  let cam := Visuals.mkCamera (0, 0, 28) (0, 0, 0)
               (THREE.Matrix4_makeRotationFromEuler (0, 0, 0)) in
  horizonLevel (Visuals.CameraRig_frame 0.5 0.5 0 1 TREE cam)
  /\ THREE.zAxis
       (Visuals.cam_quaternion (Visuals.CameraRig_frame 0.5 0.5 0 1 TREE cam))
     = THREE.normalize
         (Visuals.cam_position (Visuals.CameraRig_frame 0.5 0.5 0 1 TREE cam)).
Proof.
  cbv zeta.
  destruct (camera_rig_ignores_roll 0.5 0.5 0 0 1 1 TREE
              (Visuals.mkCamera (0, 0, 28) (0, 0, 0)
                 (THREE.Matrix4_makeRotationFromEuler (0, 0, 0))))
    as (_ & Hlevel & _ & _ & Haxis & _).
  split; [exact Hlevel|]. apply Haxis. right.
  unfold Visuals.CameraRig_frame, Visuals.CameraRig_move, Visuals.lookAt,
    Visuals.orbit, Visuals.zeroRoll, Visuals.targetAzimuth, Visuals.targetPolar,
    THREE.MathUtils_lerp, THREE.vx, THREE.vy, THREE.vz.
  cbn [Visuals.cam_position fst snd].
  replace ((0.5 - 0.5) * Math.PI * 2.5) with 0 by ring.
  unfold Math.cos. rewrite cos_0. lra.
Defined.

End CameraRig.

(** ** The recognizer callback *)

Section Recognizer.
Open Scope R_scope.

Lemma mapGesture_cases (gestureName : string) (distance : R) :
  (gestureName = "Closed_Fist"%string
   /\ HandManager.mapGesture gestureName distance = "Closed_Fist"%string)
  \/ (gestureName <> "Closed_Fist"%string
      /\ gestureName = "Open_Palm"%string
      /\ HandManager.mapGesture gestureName distance = "Open_Palm"%string)
  \/ (gestureName <> "Closed_Fist"%string
      /\ gestureName <> "Open_Palm"%string
      /\ distance < 0.06
      /\ HandManager.mapGesture gestureName distance = "Pinch"%string)
  \/ (gestureName = "Pointing_Up"%string
      /\ ~ distance < 0.06
      /\ HandManager.mapGesture gestureName distance = "Pointing_Up"%string)
  \/ (gestureName <> "Closed_Fist"%string
      /\ gestureName <> "Open_Palm"%string
      /\ gestureName <> "Pointing_Up"%string
      /\ ~ distance < 0.06
      /\ HandManager.mapGesture gestureName distance = "Unknown"%string).
Proof.
  unfold HandManager.mapGesture, Math.ltb.
  destruct (String.eqb_spec gestureName "Closed_Fist") as [E1|N1];
    [left; split; auto|right].
  destruct (String.eqb_spec gestureName "Open_Palm") as [E2|N2];
    [left; repeat split; auto|right].
  destruct (Rlt_dec distance 0.06) as [Hd|Hd];
    [left; repeat split; auto|right].
  destruct (String.eqb_spec gestureName "Pointing_Up") as [E3|N3];
    [left|right]; repeat split; auto.
Qed.

(** What a reported sample was built from. *)
Lemma predict_sample (results : HandManager.Results)
  (sample : HandGestureData.t) :
  HandManager.predict results = Some sample ->
  (sample = HandGestureData.mk "Unknown" 0.5 0.5 0 0
   /\ (HandManager.gestures results = []
       \/ HandManager.landmarks results = []))
  \/ exists gestureName others hand hands palmBase knuckle thumbTip indexTip,
       HandManager.gestures results = (gestureName :: others) :: hands
       /\ (exists rest, HandManager.landmarks results = hand :: rest)
       /\ nth_error hand 0 = Some palmBase
       /\ nth_error hand 9 = Some knuckle
       /\ nth_error hand 4 = Some thumbTip
       /\ nth_error hand 8 = Some indexTip
       /\ sample
          = HandGestureData.mk
              (HandManager.mapGesture gestureName
                 (HandManager.distance2 thumbTip indexTip))
              (1 - (HandManager.lx palmBase + HandManager.lx knuckle) / 2)
              ((HandManager.ly palmBase + HandManager.ly knuckle) / 2)
              (Rmax 0 (Rmin 1
                 ((HandManager.distance2 palmBase knuckle - 0.05) * 4)))
              (Math.atan2
                 (HandManager.ly knuckle - HandManager.ly palmBase)
                 (HandManager.lx knuckle - HandManager.lx palmBase)).
Proof.
  unfold HandManager.predict, HandManager.sampleOf.
  destruct (HandManager.gestures results) as [|g0 hands] eqn:Eg.
  { intros [= <-]. left. auto. }
  destruct (HandManager.landmarks results) as [|hand rest] eqn:El.
  { intros [= <-]. left. auto. }
  destruct g0 as [|gestureName others]; [discriminate|].
  destruct (nth_error hand 0) as [palmBase|] eqn:E0; [|discriminate].
  destruct (nth_error hand 9) as [knuckle|] eqn:E9; [|discriminate].
  destruct (nth_error hand 4) as [thumbTip|] eqn:E4; [|discriminate].
  destruct (nth_error hand 8) as [indexTip|] eqn:E8; [|discriminate].
  intros [= <-]. right.
  exists gestureName, others, hand, hands, palmBase, knuckle, thumbTip,
    indexTip.
  repeat split; eauto.
Qed.

(** X1.  Every sample [predict] reports carries one of the five gesture
    names of [HandGestureData] (so the [default] branch of the mode switch
    is never taken for it).  The model's closed fist and open palm take
    priority over the pinch test: a pinch is reported only when the model
    said neither and thumb tip and index tip are closer than 0.06.  With
    no hand in the results the neutral unknown sample is reported, and
    with a hand of fewer than ten landmarks nothing is. *)
Theorem predict_reports_known_gestures (results : HandManager.Results) :
  (forall sample,
     HandManager.predict results = Some sample ->
     In (HandGestureData.gesture sample) reportedGestures)
  /\ (forall gestureName hand sample,
        HandManager.sampleOf gestureName hand = Some sample ->
        (gestureName = "Closed_Fist"%string ->
         HandGestureData.gesture sample = "Closed_Fist"%string)
        /\ (gestureName = "Open_Palm"%string ->
            HandGestureData.gesture sample = "Open_Palm"%string)
        /\ (HandGestureData.gesture sample = "Pinch"%string ->
            gestureName <> "Closed_Fist"%string
            /\ gestureName <> "Open_Palm"%string
            /\ exists thumbTip indexTip,
                 nth_error hand 4 = Some thumbTip
                 /\ nth_error hand 8 = Some indexTip
                 /\ HandManager.distance2 thumbTip indexTip < 0.06))
  /\ (HandManager.gestures results = []
      \/ HandManager.landmarks results = [] ->
      HandManager.predict results
      = Some (HandGestureData.mk "Unknown" 0.5 0.5 0 0))
  /\ (forall gestureName others hands hand rest,
        HandManager.gestures results = (gestureName :: others) :: hands ->
        HandManager.landmarks results = hand :: rest ->
        (List.length hand < 10)%nat ->
        HandManager.predict results = None).
Proof.
  split; [|split; [|split]].
  - intros sample Hs. unfold reportedGestures.
    destruct (predict_sample results sample Hs)
      as [[-> _]|(g & o & h & hs & pb & kn & tt & it & _ & _ & _ & _ & _
                  & _ & ->)].
    + simpl. auto 6.
    + simpl.
      destruct (mapGesture_cases g (HandManager.distance2 tt it))
        as [[_ ->]|[(_ & _ & ->)|[(_ & _ & _ & ->)|[(_ & _ & ->)
            |(_ & _ & _ & _ & ->)]]]]; auto 6.
  - intros gestureName hand sample. unfold HandManager.sampleOf.
    destruct (nth_error hand 0) as [palmBase|]; [|discriminate].
    destruct (nth_error hand 9) as [knuckle|]; [|discriminate].
    destruct (nth_error hand 4) as [thumbTip|]; [|discriminate].
    destruct (nth_error hand 8) as [indexTip|]; [|discriminate].
    intros [= <-]. simpl.
    destruct (mapGesture_cases gestureName
                (HandManager.distance2 thumbTip indexTip))
      as [[E ->]|[(N1 & E & ->)|[(N1 & N2 & Hd & ->)|[(E & Hd & ->)
          |(N1 & N2 & N3 & Hd & ->)]]]];
      repeat split; try congruence; try discriminate; eauto.
  - unfold HandManager.predict. intros [-> | ->]; [reflexivity|].
    destruct (HandManager.gestures results); reflexivity.
  - intros gestureName others hands hand rest Hg Hl Hlen.
    unfold HandManager.predict, HandManager.sampleOf. rewrite Hg, Hl.
    destruct (nth_error hand 0); [|reflexivity].
    destruct (nth_error hand 9) eqn:E9; [|reflexivity].
    assert (nth_error hand 9 <> None) by congruence.
    apply nth_error_Some in H. lia.
Qed.

Lemma atan2_range (dy dx : R) : - PI < Math.atan2 dy dx <= PI.
Proof.
  pose proof PI_RGT_0 as Hpi.
  pose proof (atan_bound (dy / dx)) as Hb.
  unfold Math.atan2, Math.PI.
  destruct (Rlt_dec 0 dx) as [Hx|Hx]; [lra|].
  destruct (Rlt_dec dx 0) as [Hx'|Hx'].
  - assert (Hinv : / dx < 0) by (apply Rinv_lt_0_compat; assumption).
    destruct (Rlt_dec dy 0) as [Hy|Hy].
    + assert (Hq : 0 < dy / dx) by (unfold Rdiv; nra).
      apply atan_increasing in Hq. rewrite atan_0 in Hq. lra.
    + assert (Hq : dy / dx <= 0) by (unfold Rdiv; nra).
      destruct Hq as [Hq|Hq].
      * apply atan_increasing in Hq. rewrite atan_0 in Hq. lra.
      * rewrite Hq, atan_0. lra.
  - destruct (Rlt_dec 0 dy); [lra|]. destruct (Rlt_dec dy 0); lra.
Qed.

(** X2.  The signals of a reported sample are in the ranges [types.ts]
    documents: the depth is clamped to [0, 1] and the roll lies between
    [-PI] and [PI], whatever the landmarks are; the horizontal signal is the
    mirror image of the palm centre, and both position signals lie in
    [0, 1] when the wrist and the middle-finger knuckle do. *)
Theorem predict_signals_in_range (results : HandManager.Results)
  (sample : HandGestureData.t) :
  HandManager.predict results = Some sample ->
  0 <= HandGestureData.z sample <= 1
  /\ - PI <= HandGestureData.rotation sample <= PI
  /\ (forall hand rest palmBase knuckle,
        HandManager.gestures results <> [] ->
        HandManager.landmarks results = hand :: rest ->
        nth_error hand 0 = Some palmBase ->
        nth_error hand 9 = Some knuckle ->
        HandGestureData.x sample
        = 1 - (HandManager.lx palmBase + HandManager.lx knuckle) / 2
        /\ HandGestureData.y sample
           = (HandManager.ly palmBase + HandManager.ly knuckle) / 2
        /\ (0 <= HandManager.lx palmBase <= 1 ->
            0 <= HandManager.lx knuckle <= 1 ->
            0 <= HandGestureData.x sample <= 1)
        /\ (0 <= HandManager.ly palmBase <= 1 ->
            0 <= HandManager.ly knuckle <= 1 ->
            0 <= HandGestureData.y sample <= 1)).
Proof.
  intros Hs. pose proof PI_RGT_0 as Hpi.
  destruct (predict_sample results sample Hs)
    as [[-> [Hg|Hl]]|(g & o & h & hs & pb & kn & tt & it & Hg & [r Hl] & H0
                     & H9 & _ & _ & ->)];
    cbn [HandGestureData.x HandGestureData.y HandGestureData.z
         HandGestureData.rotation].
  - split; [lra|]. split; [lra|]. intros; congruence.
  - split; [lra|]. split; [lra|]. intros; congruence.
  - split; [|split].
    + split; [apply Rmax_l|].
      apply Rmax_lub; [lra|apply Rmin_l].
    + match goal with
      | |- _ <= Math.atan2 ?dy ?dx <= _ =>
          pose proof (atan2_range dy dx) as Hr
      end.
      lra.
    + intros hand rest palmBase knuckle _ Hl' H0' H9'.
      assert (Eh : hand = h) by congruence. subst hand.
      assert (Ep : palmBase = pb) by congruence.
      assert (Ek : knuckle = kn) by congruence. subst palmBase knuckle.
      repeat split; try reflexivity; lra.
Qed.

(** The two theorems on a hand whose thumb and index touch while the
    model says [Closed_Fist]: the closed fist wins over the pinch. *)
Lemma predict_signals_in_range_witness :
  let lm := HandManager.mkLandmark 0.5 0.5 0 in
  let results :=
    HandManager.mkResults [["Closed_Fist"%string]] [repeat lm 21] in
  exists sample,
    HandManager.predict results = Some sample
    /\ 0 <= HandGestureData.z sample <= 1
    /\ - PI <= HandGestureData.rotation sample <= PI.
Proof.
  cbv zeta. eexists. split; [reflexivity|].
  destruct (predict_signals_in_range
              (HandManager.mkResults [["Closed_Fist"%string]]
                 [repeat (HandManager.mkLandmark 0.5 0.5 0) 21])
              _ eq_refl) as (Hz & Hrot & _).
  split; assumption.
Defined.

Lemma predict_reports_known_gestures_witness :
  let lm := HandManager.mkLandmark 0.5 0.5 0 in
  let results :=
    HandManager.mkResults [["Closed_Fist"%string]] [repeat lm 21] in
  exists sample,
    HandManager.predict results = Some sample
    /\ In (HandGestureData.gesture sample) reportedGestures
    /\ HandGestureData.gesture sample = "Closed_Fist"%string.
Proof.
  cbv zeta. eexists. split; [reflexivity|].
  destruct (predict_reports_known_gestures
              (HandManager.mkResults [["Closed_Fist"%string]]
                 [repeat (HandManager.mkLandmark 0.5 0.5 0) 21]))
    as (Hknown & Hprio & _).
  split.
  - apply Hknown. reflexivity.
  - destruct (Hprio "Closed_Fist"%string
                (repeat (HandManager.mkLandmark 0.5 0.5 0) 21) _ eq_refl)
      as (Hfist & _).
    apply Hfist. reflexivity.
Defined.

End Recognizer.

(** ** More on the mode machine *)

Section ModeMachineMore.
Import React.
Open Scope Z_scope.

Lemma gestureDecision_not_zoom (gesture : string) :
  gesture <> "Pinch"%string -> gestureDecision gesture <> ZOOM.
Proof.
  intros Hp. unfold gestureDecision.
  destruct (String.eqb gesture "Open_Palm"); [discriminate|].
  destruct (String.eqb_spec gesture "Pinch"); [contradiction|discriminate].
Qed.

Lemma resolve_wired (data : HandGestureData.t) (pending : AppMode) :
  resolve (App.gestureAction None data) pending
  = gestureDecision (HandGestureData.gesture data).
Proof.
  exact (rawDecision_wired data
           (App.mk (Debounce.mk pending pending None [])
              (App.mkHandPos 0 0 0 0) [] [] None)).
Qed.

(** Only gesture samples touch the mode, and they do so through the
    setter of the debounce hook. *)
Lemma session_mode (events : list Session.Event) :
  forall app,
    App.mode (Session.run events app)
    = Debounce.run App.delay (Session.setModeCalls events) (App.mode app).
Proof.
  induction events as [|e rest IH]; intros app; [reflexivity|].
  change (Session.run (e :: rest) app)
    with (Session.run rest (Session.step app e)).
  rewrite IH. destruct e as [rand files|now data|now cameraPosition].
  - simpl. unfold App.uploadPhotos, App.regenerateEffect.
    destruct (0 <? _)%nat; reflexivity.
  - reflexivity.
  - simpl. destruct (Visuals.FocusManager_frame _ _ _); reflexivity.
Qed.

Lemma setModeCalls_app (l1 l2 : list Session.Event) :
  Session.setModeCalls (l1 ++ l2)
  = Session.setModeCalls l1 ++ Session.setModeCalls l2.
Proof.
  induction l1 as [|e l1 IH]; [reflexivity|].
  destruct e; simpl; rewrite IH; reflexivity.
Qed.

Lemma setModeCalls_samples (l : list (Z * HandGestureData.t)) :
  Session.setModeCalls (Session.samples l)
  = map (fun td => (fst td, App.gestureAction None (snd td))) l.
Proof.
  induction l as [|[t d] l IH]; [reflexivity|]. simpl. rewrite IH.
  reflexivity.
Qed.

(** Neither cell of the hook holds zoom. *)
Lemma zoom_free_run (evs : list (Z * SetStateAction AppMode)) :
  forall s : Debounce.t AppMode,
    Debounce.state s <> ZOOM -> Debounce.tempState s <> ZOOM ->
    (forall e, In e evs -> forall pending, resolve (snd e) pending <> ZOOM) ->
    Debounce.state (Debounce.run App.delay evs s) <> ZOOM
    /\ Debounce.tempState (Debounce.run App.delay evs s) <> ZOOM.
Proof.
  induction evs as [|[te a] rest IH]; intros s Hs Ht Hev; [auto|].
  simpl. apply IH.
  - unfold Debounce.setTempState.
    destruct (fire_cases te s) as [(d & _ & _ & ->)|[_ ->]];
      destruct (eq_dec _ _); simpl; assumption.
  - rewrite setTempState_tempState. apply (Hev (te, a)). left. reflexivity.
  - intros e He. apply Hev. right. assumption.
Qed.

(** X3.  Zoom is entered by a pinch only.  In a session in which the
    recognizer loop never reports a pinch, the mode is never zoom,
    neither pending nor committed, at any time: whatever the focus id is
    and however long a closed hand is held on a focused photo. *)
Theorem zoom_only_by_pinch (rand : nat -> R) (t0 : Z)
  (events : list Session.Event) :
  (forall now data,
     In (Session.Gesture now data) events ->
     HandGestureData.gesture data <> "Pinch"%string) ->
  forall now,
    App.currentMode now (Session.run events (App.init rand t0)) <> ZOOM
    /\ Debounce.tempState (App.mode (Session.run events (App.init rand t0)))
       <> ZOOM.
Proof.
  intros Hnp now. unfold App.currentMode, Debounce.committed.
  rewrite session_mode.
  destruct (zoom_free_run (Session.setModeCalls events)
              (App.mode (App.init rand t0))) as [Hs Ht];
    try discriminate.
  - clear now. induction events as [|e rest IH]; intros c Hin; [destruct Hin|].
    assert (Hrest : forall c', In c' (Session.setModeCalls rest) ->
              forall pending, resolve (snd c') pending <> ZOOM).
    { apply IH. intros now data Hd. apply (Hnp now data). right. exact Hd. }
    destruct e as [r files|now data|now cameraPosition]; simpl in Hin; auto.
    destruct Hin as [<-|Hin]; auto.
    intros pending. simpl. rewrite resolve_wired.
    apply gestureDecision_not_zoom. apply (Hnp now data). left. reflexivity.
  - split; [|exact Ht].
    destruct (fire_cases now
                (Debounce.run App.delay (Session.setModeCalls events)
                   (App.mode (App.init rand t0))))
      as [(d & _ & _ & ->)|[_ ->]]; assumption.
Qed.

(** The theorem on the focused session: a closed hand held on the
    focused photo for a second does not zoom. *)
Lemma zoom_only_by_pinch_witness :
  App.currentMode 2000
    (Session.run
       [Session.Upload (fun _ => 0%R) ["blob:photo"%string];
        Session.FocusFrame 500 cameraOnFirstPhoto;
        Session.Gesture 1000 (sample "Closed_Fist");
        Session.Gesture 1500 (sample "Closed_Fist");
        Session.Gesture 2000 (sample "Closed_Fist")]
       (App.init (fun _ => 0%R) 0))
  <> ZOOM.
Proof.
  apply zoom_only_by_pinch.
  intros now data [E|[E|[E|[E|[E|[]]]]]]; try discriminate;
    injection E as _ <-; discriminate.
Defined.

(** X4.  A gesture held for the settle delay is committed, and the mode
    it commits depends on the gesture alone: scatter for an open palm,
    zoom for a pinch, tree for every other gesture.  In particular a
    closed hand held for 300 ms takes the application to tree mode from
    any mode, with or without a focused photo. *)
Theorem held_gesture_commits (rand : nat -> R) (t0 t horizon : Z)
  (events : list Session.Event) (first : HandGestureData.t)
  (held : list (Z * HandGestureData.t)) (gesture : string) :
  Debounce.chronological t0
    (Session.setModeCalls
       (events ++ Session.samples ((t, first) :: held))) ->
  HandGestureData.gesture first = gesture ->
  (forall e, In e held -> HandGestureData.gesture (snd e) = gesture) ->
  t + App.delay <= horizon ->
  App.currentMode horizon
    (Session.run (events ++ Session.samples ((t, first) :: held))
       (App.init rand t0))
  = gestureDecision gesture.
Proof.
  intros Hc Hfirst Hheld Hle. unfold App.currentMode.
  rewrite session_mode.
  rewrite setModeCalls_app, setModeCalls_samples in *.
  cbn [map fst snd] in *.
  change (App.mode (App.init rand t0))
    with (Debounce.useDebouncedState TREE App.delay t0).
  rewrite (held_decision_commits App.delay TREE t0 t horizon
             (App.gestureAction None first) (Session.setModeCalls events)
             (map (fun td => (fst td, App.gestureAction None (snd td))) held));
    auto.
  - rewrite resolve_wired, Hfirst. reflexivity.
  - unfold App.delay. lia.
  - intros e He. apply in_map_iff in He as ([te d] & <- & Hin).
    cbn [fst snd]. rewrite !resolve_wired.
    pose proof (Hheld (te, d) Hin) as Hg. cbn [snd] in Hg.
    rewrite Hg, Hfirst. reflexivity.
Qed.

(** The theorem on the focused session: a pinch at 1000 ms zooms, and a
    closed hand held from 2000 ms has taken the application back to tree
    mode at 2300 ms. *)
Lemma held_gesture_commits_witness :
  App.currentMode 2300
    (Session.run
       ([Session.Upload (fun _ => 0%R) ["blob:photo"%string];
         Session.FocusFrame 500 cameraOnFirstPhoto;
         Session.Gesture 1000 (sample "Pinch")]
        ++ Session.samples
             [(2000, sample "Closed_Fist"); (2033, sample "Closed_Fist");
              (2066, sample "Closed_Fist")])
       (App.init (fun _ => 0%R) 0))
  = gestureDecision "Closed_Fist".
Proof.
  apply held_gesture_commits.
  - simpl. lia.
  - reflexivity.
  - intros e [<-|[<-|[]]]; reflexivity.
  - unfold App.delay. lia.
Defined.

End ModeMachineMore.

(** ** The spacing of commits *)

Section CommitSpacing.
Import React.
Open Scope Z_scope.

Context {T : Type} `{EqDec T}.
Variable delay : Z.

Lemma spacedBy_snoc (times : list Z) :
  forall from d,
    spacedBy delay from times -> last times from + delay <= d ->
    spacedBy delay from (times ++ [d]).
Proof.
  induction times as [|t rest IH]; intros from d Hs Hd; simpl in *.
  - auto.
  - destruct Hs as [Ht Hs]. split; [assumption|]. apply IH; auto.
    change (match rest with [] => t | _ :: _ => last rest from end)
      with (last (t :: rest) from) in Hd.
    rewrite last_cons_default in Hd. assumption.
Qed.

Lemma commitsSpaced_fire (t0 now te : Z) (s : Debounce.t T) :
  commitsSpaced delay t0 now s -> now <= te ->
  commitsSpaced delay t0 te (Debounce.fire te s).
Proof.
  unfold commitsSpaced. intros [Hs Hh] Hle.
  destruct (fire_cases te s) as [(d & E & Hd & ->)|[Hnot ->]].
  - rewrite E in Hh. simpl. rewrite map_app. simpl. split.
    + apply spacedBy_snoc; [assumption|lia].
    + rewrite last_last. assumption.
  - split; [assumption|].
    destruct (Debounce.handler s) as [d|]; lia.
Qed.

Lemma commitsSpaced_setTempState (t0 now te : Z) (a : SetStateAction T)
  (s : Debounce.t T) :
  commitsSpaced delay t0 now s -> now <= te ->
  commitsSpaced delay t0 te (Debounce.setTempState delay te a s).
Proof.
  intros Hs Hle. apply (commitsSpaced_fire t0 now te) in Hs; [|assumption].
  unfold Debounce.setTempState. destruct (eq_dec _ _); [assumption|].
  unfold commitsSpaced in *. simpl. destruct Hs as [Hs Hh].
  split; [assumption|].
  destruct (Debounce.handler (Debounce.fire te s)) as [d|]; lia.
Qed.

Lemma commitsSpaced_run (t0 : Z) (evs : list (Z * SetStateAction T)) :
  forall (now : Z) (s : Debounce.t T),
    commitsSpaced delay t0 now s -> Debounce.chronological now evs ->
    commitsSpaced delay t0 (last (map fst evs) now)
      (Debounce.run delay evs s).
Proof.
  induction evs as [|[te a] rest IH]; intros now s Hs Hc; simpl; auto.
  destruct Hc as [Hle Hc].
  change (commitsSpaced delay t0 (last (te :: map fst rest) now)
            (Debounce.run delay rest (Debounce.setTempState delay te a s))).
  rewrite last_cons_default. apply IH; [|assumption].
  apply commitsSpaced_setTempState with (now := now); assumption.
Qed.

(** X5.  The commits of a chronological run are at least the delay
    apart, and the first comes no earlier than the delay after the mount:
    the committed value changes at most once per delay. *)
Theorem commits_at_least_delay_apart (initial : T) (t0 horizon : Z)
  (evs : list (Z * SetStateAction T)) :
  Debounce.chronological t0 evs ->
  last (map fst evs) t0 <= horizon ->
  spacedBy delay t0
    (map fst
       (Debounce.commits
          (Debounce.fire horizon
             (Debounce.run delay evs
                (Debounce.useDebouncedState initial delay t0))))).
Proof.
  intros Hc Hh.
  assert (Hinit : commitsSpaced delay t0 t0
                    (Debounce.useDebouncedState initial delay t0))
    by (unfold commitsSpaced; simpl; repeat split; lia).
  apply (commitsSpaced_run t0 evs t0 _ Hinit) in Hc.
  apply (commitsSpaced_fire t0 _ horizon) in Hc; [|assumption].
  apply Hc.
Qed.

End CommitSpacing.

Section CommitSpacingWitness.
Import React.
Open Scope Z_scope.

(** The theorem on a run that commits scatter, then zoom. *)
Lemma commits_at_least_delay_apart_witness :
  spacedBy App.delay 0
    (map fst
       (Debounce.commits
          (Debounce.fire 2000
             (Debounce.run App.delay
                [(100, Value SCATTER); (450, Value ZOOM)]
                (Debounce.useDebouncedState TREE App.delay 0))))).
Proof.
  apply (commits_at_least_delay_apart App.delay TREE 0 2000
           [(100, Value SCATTER); (450, Value ZOOM)]).
  - simpl. lia.
  - simpl. lia.
Defined.

End CommitSpacingWitness.

(** ** More on the layout generator *)

Section LayoutDetail.
Open Scope R_scope.

Lemma photoBody_detail (rand : nat -> R) (photos : list string) (i : nat) :
  pushesOne (fun p => photoParticle photos i p /\ photoDetail rand p)
    (Geometry.photoBody rand photos i).
Proof.
  intros s. eexists. split; [|reflexivity]. split.
  - repeat split; reflexivity.
  - split; [|split; reflexivity].
    exists (Geometry.draws s), (S (Geometry.draws s)),
      (S (S (Geometry.draws s))).
    reflexivity.
Qed.

Lemma ornamentBody_detail (rand : nat -> R) (i : nat) :
  pushesOne (fun p => ornamentParticle i p /\ ornamentDetail rand i p)
    (Geometry.ornamentBody rand i).
Proof.
  intros s.
  unfold Geometry.ornamentBody, Geometry.decoration, Geometry.scatterPoint,
    Geometry.bind, Geometry.random, Geometry.ret, Geometry.push.
  simpl.
  repeat match goal with
         | |- context [JS.gtb ?a ?b] => destruct (JS.gtb a b) eqn:?; simpl
         end;
    eexists; (split; [|reflexivity]);
    (split; [split; simpl; auto|]);
    unfold ornamentDetail; simpl;
    (split; [eexists; reflexivity|]);
    (split; [do 3 eexists; reflexivity|]);
    (split; [reflexivity|]).
  - left. repeat split. eexists. reflexivity.
  - right. left. repeat split.
  - right. right. left. repeat split.
  - right. right. right. split; [reflexivity|]. split.
    + left. reflexivity.
    + eexists. reflexivity.
  - right. right. right. split; [reflexivity|]. split.
    + right. eexists. reflexivity.
    + eexists. reflexivity.
Qed.

(** The array returned by the generator, with what each loop did with its
    draws. *)
Lemma generateParticles_detail (rand : nat -> R) (photos : list string) :
  exists ps os,
    Geometry.generateParticles rand photos = ps ++ os ++ [Geometry.topStar]
    /\ List.length ps = List.length photos
    /\ List.length os = Geometry.COUNT
    /\ (forall i p, nth_error ps i = Some p ->
          photoParticle photos i p /\ photoDetail rand p)
    /\ (forall i p, nth_error os i = Some p ->
          ornamentParticle i p /\ ornamentDetail rand i p).
Proof.
  unfold Geometry.generateParticles, Geometry.generate, Geometry.bind.
  set (s0 := Geometry.mkGen 0 []).
  assert (Hphotos : exists ps,
            List.length ps = List.length photos
            /\ (forall i p, nth_error ps i = Some p ->
                  photoParticle photos i p /\ photoDetail rand p)
            /\ Geometry.particles
                 (snd ((if (0 <? List.length photos)%nat
                        then Geometry.for_loop 0 (List.length photos)
                               (Geometry.photoBody rand photos)
                        else Geometry.ret tt) s0)) = ps).
  { destruct (Nat.ltb_spec 0 (List.length photos)) as [Hpos|Hzero].
    - destruct (for_loop_pushes
                  (fun i p => photoParticle photos i p /\ photoDetail rand p)
                  (Geometry.photoBody rand photos) (List.length photos) 0%nat
                  ltac:(intros; apply photoBody_detail) s0)
        as (ps & Hlen & Hnth & Hps).
      exists ps. auto.
    - exists []. simpl. split; [lia|]. split; [|reflexivity].
      intros [|i] q; discriminate. }
  destruct Hphotos as (ps & Hlen & Hnth & Hps).
  destruct ((if (0 <? List.length photos)%nat
             then Geometry.for_loop 0 (List.length photos)
                    (Geometry.photoBody rand photos)
             else Geometry.ret tt) s0) as [[] s1].
  simpl in Hps.
  destruct (for_loop_pushes
              (fun i p => ornamentParticle i p /\ ornamentDetail rand i p)
              (Geometry.ornamentBody rand)
              Geometry.COUNT 0%nat ltac:(intros; apply ornamentBody_detail) s1)
    as (os & Holen & Honth & Hos).
  destruct (Geometry.for_loop 0 Geometry.COUNT (Geometry.ornamentBody rand) s1)
    as [[] s2].
  simpl in Hos. exists ps, os. unfold Geometry.push. simpl.
  rewrite Hos, Hps, <- app_assoc.
  split; [reflexivity|]. split; [assumption|]. split; [assumption|].
  split; [assumption|]. intros i p Hi. apply (Honth i p Hi).
Qed.

End LayoutDetail.

Section LayoutBounds.
Open Scope R_scope.

Lemma Rpower_le_1 (b e : R) : 0 < b <= 1 -> 0 <= e -> Rpower b e <= 1.
Proof.
  intros [Hb Hb1] He. unfold Rpower.
  assert (Hln : ln b <= 0).
  { destruct Hb1 as [Hb1|Hb1].
    - left. rewrite <- ln_1. apply ln_increasing; assumption.
    - rewrite Hb1, ln_1. lra. }
  assert (Hprod : e * ln b <= 0) by nra.
  destruct Hprod as [Hprod|Hprod].
  - left. rewrite <- exp_0. apply exp_increasing. assumption.
  - rewrite Hprod, exp_0. lra.
Qed.

Lemma cbrt_unit (u : R) : 0 <= u < 1 -> 0 <= Math.cbrt u <= 1.
Proof.
  intros [H0 H1]. unfold Math.cbrt.
  destruct (Rlt_dec 0 u) as [Hu|Hu].
  - split; [left; unfold Rpower; apply exp_pos|].
    apply Rpower_le_1; lra.
  - destruct (Rlt_dec u 0); lra.
Qed.

Lemma sphere_radius (r a b : R) :
  0 <= r ->
  sqrt (r * sin a * cos b * (r * sin a * cos b)
        + r * sin a * sin b * (r * sin a * sin b)
        + r * cos a * (r * cos a)) = r.
Proof.
  intros Hr.
  replace (r * sin a * cos b * (r * sin a * cos b)
           + r * sin a * sin b * (r * sin a * sin b)
           + r * cos a * (r * cos a))
    with (r * r * (Rsqr (sin a) * (Rsqr (sin b) + Rsqr (cos b))
                   + Rsqr (cos a)))
    by (unfold Rsqr; ring).
  rewrite sin2_cos2, Rmult_1_r, sin2_cos2, Rmult_1_r.
  apply sqrt_square. assumption.
Qed.

(** The scatter point lies in the ball of the given radius. *)
Lemma scatterOf_in_ball (radius u1 u2 u3 : R) :
  0 <= radius -> 0 <= u1 < 1 ->
  THREE.length (scatterOf radius u1 u2 u3) = radius * Math.cbrt u1
  /\ THREE.length (scatterOf radius u1 u2 u3) <= radius.
Proof.
  intros Hr Hu. pose proof (cbrt_unit u1 Hu) as [Hc0 Hc1].
  assert (Hlen : THREE.length (scatterOf radius u1 u2 u3)
                 = radius * Math.cbrt u1).
  { unfold THREE.length, scatterOf, Math.sqrt, Math.sin, Math.cos,
      THREE.vx, THREE.vy, THREE.vz. simpl.
    apply sphere_radius. nra. }
  split; [assumption|]. rewrite Hlen. nra.
Qed.

(** X6.  When [Math.random] returns values in [0, 1), every particle's
    scatter position lies within the scatter radius of its loop: 15 for
    the photos, 18 for the ornaments, and the star rests at the origin. *)
Theorem scatter_positions_in_ball (rand : nat -> R) (photos : list string) :
  unitStream rand ->
  Forall (fun p =>
            THREE.length (ParticleData.scatterPos p) <= 18
            /\ (ParticleData.type p = photo ->
                THREE.length (ParticleData.scatterPos p) <= 15)
            /\ (ParticleData.type p = star ->
                ParticleData.scatterPos p = (0, 0, 0)))
         (Geometry.generateParticles rand photos).
Proof.
  intros Hrand.
  destruct (generateParticles_detail rand photos)
    as (ps & os & -> & Hps & Hos & Hpn & Hon).
  apply Forall_app. split; [|apply Forall_app; split].
  - apply Forall_forall. intros p Hp. apply In_nth_error in Hp as [i Hi].
    destruct (Hpn i p Hi) as [(_ & Hty & _) ((k1 & k2 & k3 & Hsc) & _)].
    rewrite Hsc, Hty.
    destruct (scatterOf_in_ball 15 (rand k1) (rand k2) (rand k3))
      as [_ Hle]; [lra|apply Hrand|].
    split; [lra|]. split; [auto|discriminate].
  - apply Forall_forall. intros p Hp. apply In_nth_error in Hp as [i Hi].
    destruct (Hon i p Hi) as [(_ & Hty) (_ & (k1 & k2 & k3 & Hsc) & _)].
    rewrite Hsc.
    destruct (scatterOf_in_ball 18 (rand k1) (rand k2) (rand k3))
      as [_ Hle]; [lra|apply Hrand|].
    split; [assumption|].
    split; intros Ht; rewrite Ht in Hty;
      destruct Hty as [Hty|[Hty|[Hty|Hty]]]; discriminate.
  - constructor; [|constructor]. split; [|split].
    + unfold THREE.length, Math.sqrt, THREE.vx, THREE.vy, THREE.vz. simpl.
      replace (0 * 0 + 0 * 0 + 0 * 0) with 0 by ring. rewrite sqrt_0. lra.
    + discriminate.
    + reflexivity.
Qed.

(** The theorem on the stream that always returns one half. *)
Lemma scatter_positions_in_ball_witness :
  Forall (fun p => THREE.length (ParticleData.scatterPos p) <= 18)
         (Geometry.generateParticles (fun _ => 0.5) ["blob:photo"%string]).
Proof.
  eapply Forall_impl;
    [|apply (scatter_positions_in_ball (fun _ => 0.5)
               ["blob:photo"%string])].
  - intros p (H & _). exact H.
  - intros k. lra.
Defined.

End LayoutBounds.

Section LayoutCone.
Open Scope R_scope.

Lemma ornament_particle_at (rand : nat -> R) (photos : list string)
  (i : nat) :
  (i < Geometry.COUNT)%nat ->
  exists p,
    nth_error (Geometry.generateParticles rand photos)
      (List.length photos + i) = Some p
    /\ ornamentParticle i p /\ ornamentDetail rand i p.
Proof.
  intros Hi.
  destruct (generateParticles_detail rand photos)
    as (ps & os & -> & Hps & Hos & Hpn & Hon).
  destruct (nth_error os i) as [p|] eqn:Ep;
    [|apply nth_error_None in Ep; lia].
  exists p. split; [|apply (Hon i p Ep)].
  rewrite nth_error_app2 by lia.
  replace (List.length photos + i - List.length ps)%nat with i by lia.
  rewrite nth_error_app1 by lia. assumption.
Qed.

Lemma sqrt_unit (v : R) : 0 <= v <= 1 -> 0 <= sqrt v <= 1.
Proof.
  intros [H0 H1]. split; [apply sqrt_pos|].
  rewrite <- sqrt_1. apply sqrt_le_1; lra.
Qed.

(** X7.  When [Math.random] returns values in [0, 1), the ornament of
    index [i < COUNT] (the particle of index [photos.length + i]) rests
    inside the cone of the tree: at height [HEIGHT * i / COUNT - HEIGHT / 2],
    in [-12, 12), and no farther from the trunk axis than the radius of
    the cone at that height, [9 * (1 - i / COUNT)^0.9], which is at most
    9. *)
Theorem ornaments_inside_cone (rand : nat -> R) (photos : list string)
  (i : nat) :
  unitStream rand -> (i < Geometry.COUNT)%nat ->
  exists p,
    nth_error (Geometry.generateParticles rand photos)
      (List.length photos + i) = Some p
    /\ let t := INR i / INR Geometry.COUNT in
       THREE.vy (ParticleData.treePos p) = 24 * t - 12
       /\ -12 <= THREE.vy (ParticleData.treePos p) < 12
       /\ 0 <= helixRadius p <= 9 * Rpower (1 - t) 0.9
       /\ 9 * Rpower (1 - t) 0.9 <= 9.
Proof.
  intros Hrand Hi.
  destruct (ornament_particle_at rand photos i Hi)
    as (p & Hnth & _ & (k & Htree) & _).
  exists p. split; [assumption|]. cbv zeta.
  pose proof (INR_ratio_bounds i Geometry.COUNT Hi) as Ht.
  set (t := INR i / INR Geometry.COUNT) in *.
  assert (Hpow : Math.pow (1 - t) 0.9 = Rpower (1 - t) 0.9).
  { unfold Math.pow. destruct (Rlt_dec 0 (1 - t)); [reflexivity|lra]. }
  assert (Hp0 : 0 < Rpower (1 - t) 0.9) by (unfold Rpower; apply exp_pos).
  assert (Hp1 : Rpower (1 - t) 0.9 <= 1) by (apply Rpower_le_1; lra).
  pose proof (sqrt_unit (rand k * 0.9 + 0.1)) as Hs.
  assert (Hu : 0 <= rand k * 0.9 + 0.1 <= 1)
    by (pose proof (Hrand k); lra).
  specialize (Hs Hu).
  rewrite Hpow in Htree. unfold Geometry.RADIUS_BASE, Geometry.HEIGHT,
    Math.sqrt in Htree.
  assert (Hy : THREE.vy (ParticleData.treePos p) = 24 * t - 12)
    by (rewrite Htree; unfold THREE.vy; simpl; lra).
  split; [assumption|]. split; [rewrite Hy; lra|].
  assert (Hrad : helixRadius p
                 = Rpower (1 - t) 0.9 * 9.0 * sqrt (rand k * 0.9 + 0.1)).
  { unfold helixRadius, Math.sqrt, THREE.vx, THREE.vz. rewrite Htree.
    unfold Math.cos, Math.sin. simpl. apply circle_radius. nra. }
  rewrite Hrad. split; [split|]; nra.
Qed.

(** The theorem on the first ornament of a layout without photos. *)
Lemma ornaments_inside_cone_witness :
  exists p,
    nth_error (Geometry.generateParticles (fun _ => 0.5) []) 0 = Some p
    /\ THREE.vy (ParticleData.treePos p)
       = 24 * (INR 0 / INR Geometry.COUNT) - 12.
Proof.
  destruct (ornaments_inside_cone (fun _ => 0.5) [] 0)
    as (p & Hnth & Hy & _).
  - intros k. lra.
  - unfold Geometry.COUNT. lia.
  - exists p. split; assumption.
Defined.

Lemma floor_index (u : R) (n : nat) :
  0 <= u < 1 -> (0 < n)%nat ->
  (0 <= Math.floor (u * INR n) < Z.of_nat n)%Z.
Proof.
  intros [H0 H1] Hn. unfold Math.floor.
  assert (Hpos : 0 < INR n) by (apply lt_0_INR; assumption).
  destruct (base_Int_part (u * INR n)) as [Hle Hgt].
  rewrite INR_IZR_INZ in *.
  assert (Hx : 0 <= u * IZR (Z.of_nat n)) by nra.
  assert (Hx' : u * IZR (Z.of_nat n) < IZR (Z.of_nat n)) by nra.
  split.
  - assert (Hlow : IZR (-1) < IZR (Int_part (u * IZR (Z.of_nat n))))
      by lra.
    apply lt_IZR in Hlow. lia.
  - apply lt_IZR. lra.
Qed.

Lemma at_index_In (arr : list string) (u : R) :
  0 <= u < 1 -> arr <> [] ->
  In (Geometry.at_index arr (Math.floor (u * INR (List.length arr)))) arr.
Proof.
  intros Hu Harr.
  assert (Hn : (0 < List.length arr)%nat)
    by (destruct arr; [congruence|simpl; lia]).
  destruct (floor_index u (List.length arr) Hu Hn) as [Hk0 Hk1].
  unfold Geometry.at_index.
  destruct (Z.ltb_spec (Math.floor (u * INR (List.length arr))) 0); [lia|].
  apply nth_In. lia.
Qed.

(** X8.  When [Math.random] returns values in [0, 1), no array index
    computed by the generator falls outside its palette: the colour of
    every particle is one of the twelve entries of [allColors] (never
    [undefined]).  Every scale lies between 0.3 and 1.5, the scale of an
    ornament is at most 0.8, and the type of an ornament fixes its scale:
    0.6 for a snowflake, 0.7 for a bell, 0.8 for a gift box. *)
Theorem colors_and_scales_in_range (rand : nat -> R)
  (photos : list string) :
  unitStream rand ->
  Forall (fun p =>
            In (ParticleData.color p) Geometry.allColors
            /\ 0.3 <= ParticleData.scale p <= 1.5
            /\ (ParticleData.type p <> star
                -> ParticleData.scale p <= 0.8)
            /\ (ParticleData.type p = snowflake
                -> ParticleData.scale p = 0.6)
            /\ (ParticleData.type p = bell -> ParticleData.scale p = 0.7)
            /\ (ParticleData.type p = cube -> ParticleData.scale p = 0.8))
         (Geometry.generateParticles rand photos).
Proof.
  intros Hrand.
  destruct (generateParticles_detail rand photos)
    as (ps & os & -> & Hps & Hos & Hpn & Hon).
  apply Forall_app. split; [|apply Forall_app; split].
  - apply Forall_forall. intros p Hp. apply In_nth_error in Hp as [i Hi].
    destruct (Hpn i p Hi) as [(_ & Hty & _) (_ & Hsc & Hcol)].
    rewrite Hsc, Hcol, Hty.
    repeat split; try lra; try discriminate. simpl. auto.
  - apply Forall_forall. intros p Hp. apply In_nth_error in Hp as [i Hi].
    destruct (Hon i p Hi) as [_ (_ & _ & _ & Hdec)].
    destruct Hdec as [(Hty & Hsc & k & Hcol)
                     |[(Hty & Hsc & Hcol)
                      |[(Hty & Hsc & Hcol)
                       |(Hty & Hsc & k & Hcol)]]];
      rewrite Hty, Hcol.
    + rewrite Hsc. repeat split; try lra; try discriminate.
      assert (Hin : In (Geometry.at_index Geometry.colors_silver
                          (Math.floor
                             (rand k
                              * INR (List.length Geometry.colors_silver))))
                       Geometry.colors_silver)
        by (apply at_index_In; [apply Hrand|discriminate]).
      unfold Geometry.allColors. apply in_or_app. right.
      apply in_or_app. right. apply in_or_app. right. assumption.
    + rewrite Hsc. repeat split; try lra; try discriminate. simpl. auto.
    + rewrite Hsc. repeat split; try lra; try discriminate. simpl. auto 6.
    + assert (Hrange : 0.3 <= ParticleData.scale p <= 0.8).
      { destruct Hsc as [->|[k' ->]]; [lra|].
        pose proof (Hrand k'). lra. }
      repeat split; try lra; try discriminate.
      apply at_index_In; [apply Hrand|discriminate].
  - constructor; [|constructor]. simpl.
    repeat split; try lra; try discriminate; try congruence. auto.
Qed.

(** The theorem on the stream that always returns one half. *)
Lemma colors_and_scales_in_range_witness :
  Forall (fun p => In (ParticleData.color p) Geometry.allColors)
         (Geometry.generateParticles (fun _ => 0.5) ["blob:photo"%string]).
Proof.
  eapply Forall_impl;
    [|apply (colors_and_scales_in_range (fun _ => 0.5)
               ["blob:photo"%string])].
  - intros p (H & _). exact H.
  - intros k. lra.
Defined.

End LayoutCone.

Section LayoutIds.
Open Scope nat_scope.

Lemma append_inj_r (prefix a b : string) :
  (prefix ++ a)%string = (prefix ++ b)%string -> a = b.
Proof.
  induction prefix as [|c prefix IH]; simpl; intros Heq; auto.
  injection Heq as Heq. auto.
Qed.

Lemma template_inj (prefix : string) (i j : nat) :
  JS.template prefix i = JS.template prefix j -> i = j.
Proof.
  unfold JS.template. intros Heq. apply append_inj_r in Heq.
  apply Unsigned.to_uint_inj.
  assert (Hs : NilEmpty.uint_of_string
                 (NilEmpty.string_of_uint (Nat.to_uint i))
               = NilEmpty.uint_of_string
                   (NilEmpty.string_of_uint (Nat.to_uint j)))
    by (rewrite Heq; reflexivity).
  rewrite !NilEmpty.usu in Hs. congruence.
Qed.

(** The decimal digits of a number do not start with the letter [p]. *)
Lemma digits_not_photo (d : Decimal.uint) (rest : string) :
  NilEmpty.string_of_uint d <> String "p"%char rest.
Proof. destruct d; simpl; discriminate. Qed.

Lemma photo_id_not_ornament_id (i j : nat) :
  JS.template "p-photo-" i <> JS.template "p-" j.
Proof.
  unfold JS.template. simpl. intros Heq.
  injection Heq as Heq. symmetry in Heq.
  apply digits_not_photo in Heq. assumption.
Qed.

Lemma NoDup_indexed {A : Type} (l : list A) (f : nat -> A) :
  (forall i a, nth_error l i = Some a -> a = f i) ->
  (forall i j, f i = f j -> i = j) ->
  NoDup l.
Proof.
  intros Hl Hf. apply NoDup_nth_error. intros i j Hi Heq.
  destruct (nth_error l i) as [a|] eqn:Ei;
    [|apply nth_error_None in Ei; lia].
  symmetry in Heq. apply Hf.
  rewrite <- (Hl i a Ei), <- (Hl j a Heq). reflexivity.
Qed.

(** The ids of the generated particles, in order. *)
Lemma generated_ids (rand : nat -> R) (photos : list string) :
  exists ps os,
    Geometry.generateParticles rand photos = ps ++ os ++ [Geometry.topStar]
    /\ List.length ps = List.length photos
    /\ (forall i a, nth_error (map ParticleData.id ps) i = Some a ->
          a = JS.template "p-photo-" i)
    /\ (forall i a, nth_error (map ParticleData.id os) i = Some a ->
          a = JS.template "p-" i).
Proof.
  destruct (generateParticles_shape rand photos)
    as (ps & os & Hgen & Hps & Hos & Hpn & Hon).
  exists ps, os. split; [assumption|]. split; [assumption|]. split.
  - intros i a Hi. rewrite nth_error_map in Hi.
    destruct (nth_error ps i) as [p|] eqn:Ep; [|discriminate].
    injection Hi as <-. apply (Hpn i p Ep).
  - intros i a Hi. rewrite nth_error_map in Hi.
    destruct (nth_error os i) as [p|] eqn:Ep; [|discriminate].
    injection Hi as <-. apply (Hon i p Ep).
Qed.

(** X9.  The ids of the generated particles are pairwise distinct, so a
    focus id names at most one particle of the set: at most one particle
    is the candidate of the pose blender. *)
Theorem generated_ids_distinct (rand : nat -> R) (photos : list string)
  (hoveredPhotoId : option string) :
  NoDup (map ParticleData.id (Geometry.generateParticles rand photos))
  /\ (forall i j p q,
        nth_error (Geometry.generateParticles rand photos) i = Some p ->
        nth_error (Geometry.generateParticles rand photos) j = Some q ->
        Visuals.isCandidate p hoveredPhotoId = true ->
        Visuals.isCandidate q hoveredPhotoId = true ->
        i = j).
Proof.
  assert (Hnodup : NoDup (map ParticleData.id
                            (Geometry.generateParticles rand photos))).
  { destruct (generated_ids rand photos)
      as (ps & os & -> & _ & Hpi & Hoi).
    rewrite !map_app. simpl.
    apply NoDup_app; [|apply NoDup_app|].
    - apply (NoDup_indexed _ (JS.template "p-photo-") Hpi).
      apply template_inj.
    - apply (NoDup_indexed _ (JS.template "p-") Hoi). apply template_inj.
    - repeat constructor. intros [].
    - intros a Ha [Hstar|[]]. apply In_nth_error in Ha as [i Hi].
      apply Hoi in Hi. subst a. discriminate.
    - intros a Ha Hin. apply In_nth_error in Ha as [i Hi].
      apply Hpi in Hi. subst a.
      apply in_app_or in Hin as [Hin|[Hstar|[]]].
      + apply In_nth_error in Hin as [j Hj]. apply Hoi in Hj.
        apply (photo_id_not_ornament_id i j). assumption.
      + discriminate. }
  split; [assumption|].
  intros i j p q Hi Hj Hp Hq.
  unfold Visuals.isCandidate, JS.strict_eq in *.
  destruct hoveredPhotoId as [h|]; [|discriminate].
  apply String.eqb_eq in Hp, Hq.
  assert (Hlt : i < List.length
                      (map ParticleData.id
                         (Geometry.generateParticles rand photos))).
  { rewrite length_map. apply nth_error_Some. congruence. }
  apply (proj1 (NoDup_nth_error _) Hnodup i j Hlt).
  rewrite !nth_error_map, Hi, Hj. simpl. congruence.
Qed.

(** The theorem on a two-photo layout. *)
Lemma generated_ids_distinct_witness :
  NoDup (map ParticleData.id
           (Geometry.generateParticles (fun _ => 0%R)
              ["blob:a"; "blob:b"]%string))
  /\ exists q,
       nth_error (Geometry.generateParticles (fun _ => 0%R)
                    ["blob:a"; "blob:b"]%string) 0 = Some q
       /\ Visuals.isCandidate q (Some "p-photo-0"%string) = true.
Proof.
  destruct (generated_ids_distinct (fun _ => 0%R) ["blob:a"; "blob:b"]%string
              (Some "p-photo-0"%string)) as [Hnodup _].
  split; [exact Hnodup|].
  destruct (photo_particle_at (fun _ => 0%R) ["blob:a"; "blob:b"]%string 0)
    as (q & Hq & Hid & _); [simpl; lia|].
  exists q. split; [assumption|].
  unfold Visuals.isCandidate. rewrite Hid. reflexivity.
Defined.

(** X10.  The uploaded photos can be read back from the layout: the
    texture URLs of the first [photos.length] particles are the photos,
    in order, and no other particle has a texture. *)
Theorem textures_are_the_photos (rand : nat -> R) (photos : list string) :
  let particles := Geometry.generateParticles rand photos in
  map ParticleData.textureUrl (firstn (List.length photos) particles)
  = map Some photos
  /\ Forall (fun p => ParticleData.textureUrl p = None)
       (skipn (List.length photos) particles)
  /\ filter Visuals.isPhoto particles = firstn (List.length photos) particles.
Proof.
  cbv zeta.
  destruct (generateParticles_detail rand photos)
    as (ps & os & -> & Hps & Hos & Hpn & Hon).
  rewrite <- Hps.
  rewrite firstn_app, Nat.sub_diag, firstn_all, app_nil_r. simpl.
  rewrite skipn_app, Nat.sub_diag, skipn_all, app_nil_l. simpl.
  split; [|split].
  - apply nth_error_ext. intros i. rewrite !nth_error_map.
    destruct (nth_error ps i) as [p|] eqn:Ep; simpl.
    + destruct (Hpn i p Ep) as [(_ & _ & Hurl & _) _]. rewrite Hurl.
      destruct (nth_error photos i) eqn:Eph; [reflexivity|].
      apply nth_error_None in Eph.
      assert (i < List.length ps) by (apply nth_error_Some; congruence).
      lia.
    + apply nth_error_None in Ep.
      destruct (nth_error photos i) eqn:Eph; [|reflexivity].
      assert (i < List.length photos) by (apply nth_error_Some; congruence).
      lia.
  - apply Forall_app. split; [|repeat constructor].
    apply Forall_forall. intros p Hp. apply In_nth_error in Hp as [i Hi].
    apply (Hon i p Hi).
  - rewrite !filter_app.
    rewrite (filter_none Visuals.isPhoto os); simpl.
    + rewrite app_nil_r. clear Hps.
      assert (Hall : forall p, In p ps -> Visuals.isPhoto p = true).
      { intros p Hp. apply In_nth_error in Hp as [i Hi].
        destruct (Hpn i p Hi) as [(_ & Hty & _) _].
        unfold Visuals.isPhoto. rewrite Hty. reflexivity. }
      clear Hpn. induction ps as [|p ps IH]; simpl; auto.
      rewrite (Hall p (or_introl eq_refl)). f_equal.
      apply IH. intros q Hq. apply Hall. right. assumption.
    + intros i p Hi. apply (ornamentParticle_flags i p (proj1 (Hon i p Hi))).
Qed.

End LayoutIds.

(** ** More on the pose blender *)

Section PoseBlenderMore.
Open Scope R_scope.

Lemma lerp_errorScaled (p goal : V3) (a : R) :
  errorScaled (1 - a) goal (THREE.lerp p goal a) p.
Proof.
  unfold errorScaled, THREE.lerp, THREE.vx, THREE.vy, THREE.vz. simpl.
  repeat split; ring.
Qed.

Lemma errorScaled_compose (k1 k2 : R) (goal a b c : V3) :
  errorScaled k1 goal a b -> errorScaled k2 goal b c ->
  errorScaled (k2 * k1) goal a c.
Proof.
  unfold errorScaled. intros (H1 & H2 & H3) (H4 & H5 & H6).
  rewrite H1, H2, H3, H4, H5, H6. repeat split; ring.
Qed.

Lemma lerpSpeed_not_zoom (data : ParticleData.t) (mode : AppMode)
  (hoveredPhotoId : option string) (delta : R) :
  mode <> ZOOM ->
  Visuals.lerpSpeed data mode hoveredPhotoId delta = delta * 2.5.
Proof.
  intros Hm. unfold Visuals.lerpSpeed, Visuals.isSelected.
  destruct mode; try congruence; simpl; rewrite andb_false_r; reflexivity.
Qed.

Lemma lerpSpeed_not_photo (data : ParticleData.t) (mode : AppMode)
  (hoveredPhotoId : option string) (delta : R) :
  Visuals.isPhoto data = false ->
  Visuals.lerpSpeed data mode hoveredPhotoId delta = delta * 2.5.
Proof.
  intros Hp. unfold Visuals.lerpSpeed. rewrite Hp, andb_false_r.
  reflexivity.
Qed.

Lemma frame_position (data : ParticleData.t) (mode : AppMode)
  (hoveredPhotoId : option string) (time delta : R) (cam : V3)
  (mesh : Visuals.Object3D) :
  Visuals.position
    (Visuals.ParticleInstance_frame data mode hoveredPhotoId time delta cam
       mesh)
  = THREE.lerp (Visuals.position mesh)
      (Visuals.targetPos (Visuals.target data mode hoveredPhotoId time))
      (Visuals.lerpSpeed data mode hoveredPhotoId delta).
Proof. reflexivity. Qed.

Lemma frame_scale (data : ParticleData.t) (mode : AppMode)
  (hoveredPhotoId : option string) (time delta : R) (cam : V3)
  (mesh : Visuals.Object3D) :
  THREE.vx
    (Visuals.scale
       (Visuals.ParticleInstance_frame data mode hoveredPhotoId time delta
          cam mesh))
  = THREE.MathUtils_lerp (THREE.vx (Visuals.scale mesh))
      (Visuals.targetScale (Visuals.target data mode hoveredPhotoId time))
      (Visuals.lerpSpeed data mode hoveredPhotoId delta).
Proof. reflexivity. Qed.

(** The scale a particle is blended to outside zoom mode. *)
Lemma tree_target (data : ParticleData.t) (hoveredPhotoId : option string)
  (time : R) :
  Visuals.target data TREE hoveredPhotoId time
  = Visuals.mkTarget (ParticleData.treePos data)
      (if Visuals.isCandidate data hoveredPhotoId
       then ParticleData.scale data * 1.3 else ParticleData.scale data)
      (ParticleData.rotation data).
Proof.
  unfold Visuals.target, Visuals.isHighlighted. simpl.
  rewrite andb_true_r. reflexivity.
Qed.

Lemma tree_frames_closed_form (data : ParticleData.t)
  (hoveredPhotoId : option string) (delta : R) (clock : list (R * V3)) :
  forall mesh : Visuals.Object3D,
    let m := particleFrames data TREE hoveredPhotoId delta clock mesh in
    let k := (1 - delta * 2.5) ^ List.length clock in
    let goalScale :=
      if Visuals.isCandidate data hoveredPhotoId
      then ParticleData.scale data * 1.3 else ParticleData.scale data in
    errorScaled k (ParticleData.treePos data) (Visuals.position m)
      (Visuals.position mesh)
    /\ THREE.vx (Visuals.scale m) - goalScale
       = k * (THREE.vx (Visuals.scale mesh) - goalScale).
Proof.
  induction clock as [|[time cam] rest IH]; intros mesh; cbv zeta.
  - simpl. unfold errorScaled. repeat split; ring.
  - change (particleFrames data TREE hoveredPhotoId delta
              ((time, cam) :: rest) mesh)
      with (particleFrames data TREE hoveredPhotoId delta rest
              (Visuals.ParticleInstance_frame data TREE hoveredPhotoId time
                 delta cam mesh)).
    destruct (IH (Visuals.ParticleInstance_frame data TREE hoveredPhotoId
                    time delta cam mesh)) as [Hpos Hscale].
    split.
    + replace ((1 - delta * 2.5) ^ List.length ((time, cam) :: rest))
        with ((1 - delta * 2.5) * (1 - delta * 2.5) ^ List.length rest)
        by reflexivity.
      eapply errorScaled_compose; [exact Hpos|].
      rewrite frame_position, lerpSpeed_not_zoom by discriminate.
      rewrite tree_target. apply lerp_errorScaled.
    + rewrite Hscale, frame_scale, lerpSpeed_not_zoom by discriminate.
      rewrite tree_target. simpl. unfold THREE.MathUtils_lerp. ring.
Qed.

(** A geometric sequence of ratio below one brings any three errors
    below any bound. *)
Lemma geometric_vanishes (q e1 e2 e3 eps : R) :
  Rabs q < 1 -> 0 < eps ->
  exists N, forall n, (N <= n)%nat ->
    Rabs (q ^ n * e1) < eps /\ Rabs (q ^ n * e2) < eps
    /\ Rabs (q ^ n * e3) < eps.
Proof.
  intros Hq Heps.
  set (E := Rabs e1 + Rabs e2 + Rabs e3 + 1).
  assert (HE : 0 < E)
    by (unfold E; pose proof (Rabs_pos e1); pose proof (Rabs_pos e2);
        pose proof (Rabs_pos e3); lra).
  assert (Hy : 0 < eps / E) by (apply Rdiv_lt_0_compat; assumption).
  destruct (pow_lt_1_zero q Hq (eps / E) Hy) as [N HN].
  exists N. intros n Hn. specialize (HN n Hn).
  assert (Hbound : forall e, Rabs e < E -> Rabs (q ^ n * e) < eps).
  { intros e He. rewrite Rabs_mult.
    pose proof (Rabs_pos (q ^ n)). pose proof (Rabs_pos e).
    assert (Hprod : Rabs (q ^ n) * Rabs e <= eps / E * E) by nra.
    replace (eps / E * E) with eps in Hprod by (field; lra).
    destruct (Req_dec (Rabs (q ^ n)) 0) as [Hz|Hnz]; [rewrite Hz; lra|].
    assert (Rabs (q ^ n) * Rabs e < eps / E * E); [|unfold Rdiv in *].
    { apply Rle_lt_trans with (Rabs (q ^ n) * E); [nra|].
      apply Rmult_lt_compat_r; assumption. }
    replace (eps * / E * E) with eps in * by (field; lra). assumption. }
  pose proof (Rabs_pos e1). pose proof (Rabs_pos e2).
  pose proof (Rabs_pos e3).
  repeat split; apply Hbound; unfold E; lra.
Qed.

(** X11.  In tree mode every frame moves position and scale the share
    [2.5 * delta] of the way to the target, so after [n] frames the error
    is [(1 - 2.5 * delta)^n] times the initial one; the target scale is
    1.3 times the base scale for the focus candidate.  For
    [0 < delta < 0.8] the position converges to the tree rest position:
    any bound is met after enough frames. *)
Theorem tree_pose_converges (data : ParticleData.t)
  (hoveredPhotoId : option string) (delta : R) (mesh : Visuals.Object3D) :
  (forall clock,
     let m := particleFrames data TREE hoveredPhotoId delta clock mesh in
     let k := (1 - delta * 2.5) ^ List.length clock in
     let goalScale :=
       if Visuals.isCandidate data hoveredPhotoId
       then ParticleData.scale data * 1.3 else ParticleData.scale data in
     errorScaled k (ParticleData.treePos data) (Visuals.position m)
       (Visuals.position mesh)
     /\ THREE.vx (Visuals.scale m) - goalScale
        = k * (THREE.vx (Visuals.scale mesh) - goalScale))
  /\ (0 < delta < 0.8 ->
      forall eps, 0 < eps ->
      exists N, forall clock, (N <= List.length clock)%nat ->
        let m := particleFrames data TREE hoveredPhotoId delta clock mesh in
        Rabs (THREE.vx (Visuals.position m)
              - THREE.vx (ParticleData.treePos data)) < eps
        /\ Rabs (THREE.vy (Visuals.position m)
                 - THREE.vy (ParticleData.treePos data)) < eps
        /\ Rabs (THREE.vz (Visuals.position m)
                 - THREE.vz (ParticleData.treePos data)) < eps).
Proof.
  split.
  - intros clock. apply tree_frames_closed_form.
  - intros Hd eps Heps.
    assert (Hq : Rabs (1 - delta * 2.5) < 1)
      by (apply Rabs_def1; lra).
    destruct (geometric_vanishes (1 - delta * 2.5)
                (THREE.vx (Visuals.position mesh)
                 - THREE.vx (ParticleData.treePos data))
                (THREE.vy (Visuals.position mesh)
                 - THREE.vy (ParticleData.treePos data))
                (THREE.vz (Visuals.position mesh)
                 - THREE.vz (ParticleData.treePos data))
                eps Hq Heps) as [N HN].
    exists N. intros clock Hn. cbv zeta.
    destruct (tree_frames_closed_form data hoveredPhotoId delta clock mesh)
      as [(Hx & Hy & Hz) _].
    rewrite Hx, Hy, Hz. apply HN. assumption.
Qed.

End PoseBlenderMore.

Section PoseBlenderWitnesses.
Open Scope R_scope.

(** The theorem at 60 frames per second, on the top star. *)
Lemma tree_pose_converges_witness :
  exists N, forall clock, (N <= List.length clock)%nat ->
    Rabs (THREE.vx
            (Visuals.position
               (particleFrames Geometry.topStar TREE None
                  (/ 60) clock (Visuals.mounted Geometry.topStar)))
          - THREE.vx (ParticleData.treePos Geometry.topStar)) < 0.001.
Proof.
  destruct (tree_pose_converges Geometry.topStar None
              (/ 60) (Visuals.mounted Geometry.topStar)) as [_ Hconv].
  destruct (Hconv ltac:(lra) 0.001 ltac:(lra)) as [N HN].
  exists N. intros clock Hn. apply (HN clock Hn).
Defined.

End PoseBlenderWitnesses.

Section PoseBlenderSpin.
Open Scope R_scope.

Lemma spins_not_photo (data : ParticleData.t) :
  Visuals.spins data = true -> Visuals.isPhoto data = false.
Proof.
  unfold Visuals.spins, Visuals.isPhoto.
  destruct (ParticleData.type data); simpl; auto; discriminate.
Qed.

Lemma target_rotation_not_photo (data : ParticleData.t) (mode : AppMode)
  (hoveredPhotoId : option string) (time : R) :
  Visuals.isPhoto data = false ->
  Visuals.targetRot (Visuals.target data mode hoveredPhotoId time)
  = ParticleData.rotation data.
Proof.
  intros Hp. unfold Visuals.target. rewrite Hp, andb_false_r.
  destruct mode; reflexivity.
Qed.

Lemma spin_frame (data : ParticleData.t) (mode : AppMode)
  (hoveredPhotoId : option string) (time delta : R) (cam : V3)
  (mesh : Visuals.Object3D) :
  Visuals.spins data = true ->
  THREE.vy
    (Visuals.rotation
       (Visuals.ParticleInstance_frame data mode hoveredPhotoId time delta
          cam mesh))
  - (THREE.vy (ParticleData.rotation data) + 0.2)
  = (1 - delta * 2.5)
    * (THREE.vy (Visuals.rotation mesh)
       - (THREE.vy (ParticleData.rotation data) + 0.2)).
Proof.
  intros Hs. pose proof (spins_not_photo data Hs) as Hp.
  unfold Visuals.ParticleInstance_frame. simpl Visuals.rotation.
  rewrite Hs, Hp, andb_false_r.
  rewrite lerpSpeed_not_photo, target_rotation_not_photo by assumption.
  unfold THREE.MathUtils_lerp.
  unfold THREE.vy at 1. simpl fst. simpl snd.
  unfold THREE.vy at 1. simpl fst. simpl snd. nra.
Qed.

(** X12.  The spin of the star does not keep it turning.  Each frame
    blends the yaw towards the rest rotation at the rate [2.5 * delta] and
    then adds [0.5 * delta], so the yaw settles 0.2 radian past the rest
    rotation: after [n] frames, in any mode, its distance to that angle is
    [(1 - 2.5 * delta)^n] times the initial one, and a star at that angle
    stays there. *)
Theorem spin_settles (data : ParticleData.t) (mode : AppMode)
  (hoveredPhotoId : option string) (delta : R) (clock : list (R * V3))
  (mesh : Visuals.Object3D) :
  Visuals.spins data = true ->
  let settled := THREE.vy (ParticleData.rotation data) + 0.2 in
  let m := particleFrames data mode hoveredPhotoId delta clock mesh in
  THREE.vy (Visuals.rotation m) - settled
  = (1 - delta * 2.5) ^ List.length clock
    * (THREE.vy (Visuals.rotation mesh) - settled)
  /\ (THREE.vy (Visuals.rotation mesh) = settled ->
      THREE.vy (Visuals.rotation m) = settled).
Proof.
  intros Hs. cbv zeta.
  assert (Hform : forall clock mesh,
            THREE.vy (Visuals.rotation
                        (particleFrames data mode hoveredPhotoId delta clock
                           mesh))
            - (THREE.vy (ParticleData.rotation data) + 0.2)
            = (1 - delta * 2.5) ^ List.length clock
              * (THREE.vy (Visuals.rotation mesh)
                 - (THREE.vy (ParticleData.rotation data) + 0.2))).
  { clear clock mesh. induction clock as [|[time cam] rest IH]; intros mesh.
    - simpl. ring.
    - change (particleFrames data mode hoveredPhotoId delta
                ((time, cam) :: rest) mesh)
        with (particleFrames data mode hoveredPhotoId delta rest
                (Visuals.ParticleInstance_frame data mode hoveredPhotoId
                   time delta cam mesh)).
      rewrite IH, spin_frame by assumption. simpl. ring. }
  split; [apply Hform|].
  intros Hat. specialize (Hform clock mesh). rewrite Hat in Hform. lra.
Qed.

(** The zoom target of the selected photo. *)
Lemma selected_target (data : ParticleData.t) (hoveredPhotoId : option string)
  (time delta : R) :
  selectedZoomPhoto data ZOOM hoveredPhotoId = true ->
  Visuals.target data ZOOM hoveredPhotoId time
  = Visuals.mkTarget (0, 0, 6) 5.0 (0, 0, 0)
  /\ Visuals.lerpSpeed data ZOOM hoveredPhotoId delta = delta * 15.
Proof.
  intros Hsel. unfold Visuals.target, Visuals.lerpSpeed.
  rewrite selected_and_photo, Hsel. auto.
Qed.

(** X13.  The blend rate is not clamped.  For the selected zoom photo a
    frame multiplies the distance to the zoom point [(0, 0, 6)] by
    [1 - 15 * delta]: a frame of exactly 1/15 s lands on the target, with
    scale 5, and a frame longer than 2/15 s ends farther from the target
    than it began. *)
Theorem selected_photo_blend (data : ParticleData.t)
  (hoveredPhotoId : option string) (time delta : R) (cam : V3)
  (mesh : Visuals.Object3D) :
  selectedZoomPhoto data ZOOM hoveredPhotoId = true ->
  let m := Visuals.ParticleInstance_frame data ZOOM hoveredPhotoId time delta
             cam mesh in
  errorScaled (1 - delta * 15) (0, 0, 6) (Visuals.position m)
    (Visuals.position mesh)
  /\ (delta = / 15 ->
      Visuals.position m = (0, 0, 6) /\ Visuals.scale m = (5, 5, 5))
  /\ (2 / 15 < delta ->
      THREE.vz (Visuals.position mesh) <> 6 ->
      Rabs (THREE.vz (Visuals.position m) - 6)
      > Rabs (THREE.vz (Visuals.position mesh) - 6)).
Proof.
  intros Hsel. cbv zeta.
  destruct (selected_target data hoveredPhotoId time delta Hsel)
    as [Htg Hsp].
  assert (Herr : errorScaled (1 - delta * 15) (0, 0, 6)
                   (Visuals.position
                      (Visuals.ParticleInstance_frame data ZOOM
                         hoveredPhotoId time delta cam mesh))
                   (Visuals.position mesh)).
  { rewrite frame_position, Htg, Hsp. apply lerp_errorScaled. }
  split; [assumption|]. split.
  - intros Hd. split.
    + destruct Herr as (Hx & Hy & Hz).
      destruct (Visuals.position _) as [[x y] z].
      unfold THREE.vx, THREE.vy, THREE.vz in *. simpl in *.
      rewrite Hd in *.
      f_equal; [f_equal|]; lra.
    + assert (Hsc : forall v,
                THREE.vx
                  (Visuals.scale
                     (Visuals.ParticleInstance_frame data ZOOM hoveredPhotoId
                        time delta cam mesh)) = v ->
                Visuals.scale
                  (Visuals.ParticleInstance_frame data ZOOM hoveredPhotoId
                     time delta cam mesh) = (v, v, v))
        by (intros v <-; reflexivity).
      apply Hsc. rewrite frame_scale, Htg, Hsp, Hd. simpl.
      unfold THREE.MathUtils_lerp. lra.
  - intros Hd Hoff. destruct Herr as (_ & _ & Hz).
    change (THREE.vz (0, 0, 6)) with 6 in Hz. rewrite Hz, Rabs_mult.
    assert (Hk : 1 < Rabs (1 - delta * 15)).
    { rewrite Rabs_left by lra. lra. }
    assert (He : 0 < Rabs (THREE.vz (Visuals.position mesh) - 6))
      by (apply Rabs_pos_lt; lra).
    nra.
Qed.

End PoseBlenderSpin.

Section PoseBlenderSpinWitnesses.
Open Scope R_scope.

(** The theorem on the top star: at yaw 0.2 it stays put. *)
Lemma spin_settles_witness :
  THREE.vy
    (Visuals.rotation
       (particleFrames Geometry.topStar SCATTER None
          (/ 60) [(0, (0, 0, 28)); (/ 60, (0, 0, 28))]
          (Visuals.mkObject3D (0, 13, 0) (1.5, 1.5, 1.5) (0, 0.2, 0))))
  = 0 + 0.2.
Proof.
  destruct (spin_settles Geometry.topStar SCATTER None
              (/ 60) [(0, (0, 0, 28)); (/ 60, (0, 0, 28))]
              (Visuals.mkObject3D (0, 13, 0) (1.5, 1.5, 1.5) (0, 0.2, 0))
              eq_refl) as [_ Hstay].
  apply Hstay. unfold THREE.vy. simpl. lra.
Defined.

(** The theorem on a focused photo and a frame of 1/15 s. *)
Lemma selected_photo_blend_witness :
  Visuals.position
    (Visuals.ParticleInstance_frame photoOnX ZOOM
       (Some "p-photo-0"%string) 0 (/ 15) (0, 0, 10) (Visuals.mounted photoOnX))
  = (0, 0, 6).
Proof.
  destruct (selected_photo_blend photoOnX
              (Some "p-photo-0"%string) 0 (/ 15) (0, 0, 10)
              (Visuals.mounted photoOnX) eq_refl) as (_ & Hsnap & _).
  apply Hsnap. reflexivity.
Defined.

End PoseBlenderSpinWitnesses.

(** ** More on the camera rig *)

Section CameraRigMore.
Open Scope R_scope.

Lemma camera_frame_error (handX handY handZ handRotation : R)
  (mode : AppMode) (cam : Visuals.Camera) :
  errorScaled (1 - cameraRate mode) (cameraGoal mode handX handY)
    (Visuals.cam_position
       (Visuals.CameraRig_frame handX handY handZ handRotation mode cam))
    (Visuals.cam_position cam).
Proof.
  unfold errorScaled, Visuals.CameraRig_frame, Visuals.CameraRig_move,
    Visuals.lookAt, Visuals.orbit, Visuals.zeroRoll, cameraGoal, cameraRate,
    THREE.lerp, THREE.MathUtils_lerp, Math.sin, Math.cos.
  destruct mode; simpl; unfold THREE.vx, THREE.vy, THREE.vz; simpl;
    repeat split; lra.
Qed.

(** X14.  Under a constant gesture the camera closes a fixed share of the
    remaining distance to its goal at every frame (a tenth in tree and
    scatter mode, a twentieth in zoom mode, whatever the frame time), so
    after [n] frames the offset is [0.9^n] (resp. [0.95^n]) times the
    initial one.  The goal lies on the circle of radius 28 (tree) or 30
    (scatter) around the vertical axis, at a height within 17.5 of the
    origin for a vertical signal in [0, 1], straight in front of the tree
    for the neutral gesture; in zoom mode it is the point [(0, 0, 10)]
    whatever the gesture. *)
Theorem camera_rig_converges (handX handY handZ handRotation : R)
  (mode : AppMode) (cam : Visuals.Camera) (n : nat) :
  errorScaled ((1 - cameraRate mode) ^ n) (cameraGoal mode handX handY)
    (Visuals.cam_position
       (cameraFrames handX handY handZ handRotation mode n cam))
    (Visuals.cam_position cam)
  /\ (let g := cameraGoal mode handX handY in
      match mode with
      | TREE => THREE.vx g * THREE.vx g + THREE.vz g * THREE.vz g = 28 * 28
      | SCATTER => THREE.vx g * THREE.vx g + THREE.vz g * THREE.vz g = 30 * 30
      | ZOOM => g = (0, 0, 10)
      end)
  /\ (0 <= handY <= 1 ->
      -17.5 <= Visuals.targetPolar handY <= 17.5)
  /\ cameraGoal TREE 0.5 0.5 = (0, 0, 28)
  /\ cameraGoal SCATTER 0.5 0.5 = (0, 0, 30).
Proof.
  split; [|split; [|split; [|split]]].
  - induction n as [|n IH].
    + simpl. unfold errorScaled. repeat split; ring.
    + change (cameraFrames handX handY handZ handRotation mode (S n) cam)
        with (Visuals.CameraRig_frame handX handY handZ handRotation mode
                (cameraFrames handX handY handZ handRotation mode n cam)).
      replace ((1 - cameraRate mode) ^ S n)
        with ((1 - cameraRate mode) ^ n * (1 - cameraRate mode))
        by (simpl; ring).
      eapply errorScaled_compose; [apply camera_frame_error|exact IH].
  - cbv zeta. unfold cameraGoal, THREE.vx, THREE.vz.
    destruct mode; simpl; try reflexivity.
    + pose proof (sin2_cos2 (Visuals.targetAzimuth handX)) as Hsc.
      unfold Rsqr in Hsc. nra.
    + pose proof (sin2_cos2 (Visuals.targetAzimuth handX)) as Hsc.
      unfold Rsqr in Hsc. nra.
  - unfold Visuals.targetPolar. lra.
  - unfold cameraGoal, Visuals.targetAzimuth, Visuals.targetPolar.
    replace ((0.5 - 0.5) * Math.PI * 2.5) with 0 by ring.
    rewrite sin_0, cos_0. f_equal; [f_equal|]; lra.
  - unfold cameraGoal, Visuals.targetAzimuth, Visuals.targetPolar.
    replace ((0.5 - 0.5) * Math.PI * 2.5) with 0 by ring.
    rewrite sin_0, cos_0. f_equal; [f_equal|]; lra.
Qed.

End CameraRigMore.

Section CameraRigWitness.
Open Scope R_scope.

(** The theorem at the top of the vertical range. *)
Lemma camera_rig_converges_witness :
  -17.5 <= Visuals.targetPolar 1 <= 17.5.
Proof.
  destruct (camera_rig_converges 0.5 1 0 0 TREE
              (Visuals.mkCamera (0, 0, 28) (0, 0, 0)
                 (THREE.Matrix4_makeRotationFromEuler (0, 0, 0))) 0)
    as (_ & _ & Hpolar & _).
  apply Hpolar. lra.
Defined.

End CameraRigWitness.

(** ** The photo frame *)

Section PhotoFrameGlow.
Open Scope R_scope.

(** X15.  The glow of a photo frame: the emissive intensity always lies
    in [0, 1.2]; a highlighted frame pulses between 0.4 and 1.2 and
    reaches 1.2 (at [elapsedTime = PI / 16]); a revealed frame is dark
    whether highlighted or not.  As rendered by [ParticleInstance], a
    frame is never both: in zoom mode the selected photo is dark and
    every other photo has the dim intensity 0.2, and no photo pulses. *)
Theorem photo_frame_glow (isRevealed isHighlighted : bool)
  (elapsedTime : R) :
  0 <= PhotoFrame.emissiveIntensity
         (PhotoFrame.frame isRevealed isHighlighted elapsedTime) <= 1.2
  /\ PhotoFrame.frame true isHighlighted elapsedTime
     = PhotoFrame.mkMaterial 0 0 0
  /\ 0.4 <= PhotoFrame.emissiveIntensity
              (PhotoFrame.frame false true elapsedTime) <= 1.2
  /\ PhotoFrame.emissiveIntensity (PhotoFrame.frame false true (PI / 16))
     = 1.2
  /\ (forall data mode hoveredPhotoId m,
        PhotoFrame.ofParticle data mode hoveredPhotoId elapsedTime = Some m ->
        (Visuals.isSelected data mode hoveredPhotoId
         && Visuals.isHighlighted data mode hoveredPhotoId = false)
        /\ (mode = ZOOM ->
            PhotoFrame.emissiveIntensity m
            = if Visuals.isCandidate data hoveredPhotoId then 0 else 0.2)).
Proof.
  pose proof (SIN_bound (elapsedTime * 8)) as Hsin.
  split; [|split; [|split; [|split]]].
  - unfold PhotoFrame.frame, Math.sin.
    destruct isRevealed, isHighlighted; simpl; lra.
  - reflexivity.
  - unfold PhotoFrame.frame, Math.sin. simpl. lra.
  - unfold PhotoFrame.frame, Math.sin. simpl.
    replace (PI / 16 * 8) with (PI / 2) by lra. rewrite sin_PI2. lra.
  - intros data mode hoveredPhotoId m. unfold PhotoFrame.ofParticle.
    destruct (Visuals.isPhoto data && JS.truthy _); [|discriminate].
    intros [= <-]. unfold Visuals.isSelected, Visuals.isHighlighted.
    split.
    + destruct (Visuals.isCandidate data hoveredPhotoId),
        (AppMode_eqb mode ZOOM); reflexivity.
    + intros ->. simpl.
      destruct (Visuals.isCandidate data hoveredPhotoId); reflexivity.
Qed.

(** The theorem on the focused photo in zoom mode. *)
Lemma photo_frame_glow_witness :
  exists m,
    PhotoFrame.ofParticle photoOnX ZOOM (Some "p-photo-0"%string) 1 = Some m
    /\ PhotoFrame.emissiveIntensity m = 0.
Proof.
  eexists. split; [reflexivity|].
  destruct (photo_frame_glow true false 1) as (_ & _ & _ & _ & Hof).
  destruct (Hof photoOnX ZOOM (Some "p-photo-0"%string) _ eq_refl)
    as [_ Hzoom].
  rewrite Hzoom; reflexivity.
Defined.

End PhotoFrameGlow.

(** ** The focus id over a session *)

Section FocusInvariant.
Open Scope nat_scope.

(** The photo particles of a generated set are its first [photos.length]
    particles. *)
Lemma generated_photo_index (rand : nat -> R) (photos : list string)
  (p : ParticleData.t) :
  In p (filter Visuals.isPhoto (Geometry.generateParticles rand photos)) ->
  exists i,
    i < List.length photos
    /\ nth_error (Geometry.generateParticles rand photos) i = Some p
    /\ photoParticle photos i p.
Proof.
  intros Hin. apply filter_In in Hin as [Hin Hphoto].
  destruct (generateParticles_shape rand photos)
    as (ps & os & Hgen & Hps & Hos & Hpn & Hon).
  rewrite Hgen in *.
  apply in_app_or in Hin as [Hin|Hin].
  - apply In_nth_error in Hin as [i Hi]. exists i.
    assert (Hlt : i < List.length ps) by (apply nth_error_Some; congruence).
    split; [lia|]. split; [|apply (Hpn i p Hi)].
    rewrite nth_error_app1 by assumption. assumption.
  - apply in_app_or in Hin as [Hin|[<-|[]]].
    + apply In_nth_error in Hin as [i Hi].
      destruct (ornamentParticle_flags i p (Hon i p Hi)) as (_ & _ & Hno).
      congruence.
    + discriminate.
Qed.

(** A focus id reported by the focus selector is the id of a photo
    particle of the scene. *)
Lemma FocusManager_frame_reports_photo (particles : list ParticleData.t)
  (mode : AppMode) (cameraPosition : V3) (id : string) :
  Visuals.FocusManager_frame particles mode cameraPosition = Some (Some id) ->
  exists p, In p (filter Visuals.isPhoto particles) /\ id = ParticleData.id p.
Proof.
  unfold Visuals.FocusManager_frame.
  destruct (AppMode_eqb mode ZOOM); [discriminate|].
  destruct (filter Visuals.isPhoto particles) as [|a rest] eqn:Ef;
    [discriminate|].
  destruct (scan_firstMax mode (THREE.normalize cameraPosition) (a :: rest))
    as (k & p & (Hk & _) & Hscan); [discriminate|].
  simpl List.length. simpl Nat.eqb. rewrite Hscan.
  destruct (JS.gtb _ _); intros [= <-].
  exists p. split; [|reflexivity]. eapply nth_error_In. exact Hk.
Qed.

Lemma focusNamesPhoto_step (app : App.t) (e : Session.Event) :
  focusNamesPhoto app -> focusNamesPhoto (Session.step app e).
Proof.
  intros [[rand0 Hgen] Hfocus]. destruct e as [rand files|now data|now cam].
  - (* upload *)
    unfold Session.step, App.uploadPhotos, App.regenerateEffect,
      App.handlePhotoUpload. simpl.
    destruct (Nat.ltb_spec 0 (List.length (App.photos app ++ files)))
      as [Hpos|Hzero].
    + split; [exists rand; reflexivity|]. simpl.
      destruct Hfocus as [Hnone|(i & p & Hi & Hp & Hty & Hurl & Hid)];
        [left; assumption|right].
      assert (Hi' : i < List.length (App.photos app ++ files))
        by (rewrite length_app; lia).
      destruct (photo_particle_at rand (App.photos app ++ files) i Hi')
        as (q & Hq & Hqid & Hqty & Hqurl & _).
      rewrite Hgen in Hp.
      destruct (photo_particle_at rand0 (App.photos app) i Hi)
        as (p' & Hp' & Hpid & _).
      assert (p' = p) by congruence. subst p'.
      exists i, q. repeat split; try assumption. congruence.
    + assert (Hnil : App.photos app ++ files = [])
        by (destruct (App.photos app ++ files); [reflexivity|simpl in *; lia]).
      apply app_eq_nil in Hnil as [Hph Hfiles].
      split; simpl.
      * exists rand0. rewrite Hph, Hfiles in *. assumption.
      * destruct Hfocus as [Hnone|(i & _ & Hi & _)]; [left; assumption|].
        rewrite Hph in Hi. simpl in Hi. lia.
  - (* gesture *)
    split; [exists rand0; assumption|assumption].
  - (* focus frame *)
    unfold Session.step.
    destruct (Visuals.FocusManager_frame (App.particles app)
                (App.currentMode now app) cam) as [[id|]|] eqn:Ef.
    + split; [exists rand0; assumption|]. right. simpl.
      apply FocusManager_frame_reports_photo in Ef as (p & Hin & ->).
      rewrite Hgen in Hin.
      destruct (generated_photo_index rand0 (App.photos app) p Hin)
        as (i & Hi & Hnth & (_ & Hty & Hurl & _)).
      exists i, p. rewrite Hgen. auto.
    + split; [exists rand0; assumption|]. left. reflexivity.
    + split; [exists rand0; assumption|assumption].
Qed.

(** X16.  Throughout a session of uploads, gesture samples and frames of
    the focus selector, the particle set is an output of the generator
    for the current photo list, and the focus id, when set, is the id of
    a photo particle of the current set, the one of some uploaded photo.
    In particular a focus id that survives an upload still names an
    existing photo particle. *)
Theorem focus_names_photo_throughout (rand : nat -> R) (t0 : Z)
  (events : list Session.Event) :
  focusNamesPhoto (Session.run events (App.init rand t0)).
Proof.
  assert (Hinit : focusNamesPhoto (App.init rand t0)).
  { split; [exists rand; reflexivity|left; reflexivity]. }
  revert Hinit. generalize (App.init rand t0).
  induction events as [|e rest IH]; intros app Happ; simpl; auto.
  apply IH, focusNamesPhoto_step. assumption.
Qed.

End FocusInvariant.

(** ** More on the focus selector and the zoom targets *)

Section FocusDirection.
Open Scope R_scope.

Lemma squares_zero (a b c : R) :
  a * a + b * b + c * c = 0 -> a = 0 /\ b = 0 /\ c = 0.
Proof. intros Hs. repeat split; nra. Qed.

Lemma length_scaled (k : R) (v : V3) :
  0 < k -> THREE.length (scaled k v) = k * THREE.length v.
Proof.
  intros Hk. destruct v as [[a b] c].
  unfold THREE.length, scaled, Math.sqrt, THREE.vx, THREE.vy, THREE.vz.
  simpl.
  replace (k * a * (k * a) + k * b * (k * b) + k * c * (k * c))
    with (k * k * (a * a + b * b + c * c)) by ring.
  rewrite sqrt_mult by nra. rewrite sqrt_square by lra. reflexivity.
Qed.

Lemma normalize_scaled (k : R) (v : V3) :
  0 < k -> THREE.normalize (scaled k v) = THREE.normalize v.
Proof.
  intros Hk. unfold THREE.normalize. rewrite length_scaled by assumption.
  destruct (Req_dec_T (THREE.length v) 0) as [Hz|Hnz].
  - rewrite Hz, Rmult_0_r.
    destruct (Req_dec_T 0 0) as [_|N]; [|exfalso; apply N; reflexivity].
    destruct v as [[a b] c].
    unfold THREE.length, Math.sqrt, THREE.vx, THREE.vy, THREE.vz in Hz.
    simpl in Hz. apply sqrt_eq_0 in Hz; [|nra].
    apply squares_zero in Hz as (-> & -> & ->).
    unfold scaled, THREE.vx, THREE.vy, THREE.vz. simpl.
    f_equal; [f_equal|]; lra.
  - destruct (Req_dec_T (k * THREE.length v) 0) as [Hz|_]; [nra|].
    unfold scaled.
    change (THREE.vx (k * THREE.vx v, k * THREE.vy v, k * THREE.vz v))
      with (k * THREE.vx v).
    change (THREE.vy (k * THREE.vx v, k * THREE.vy v, k * THREE.vz v))
      with (k * THREE.vy v).
    change (THREE.vz (k * THREE.vx v, k * THREE.vy v, k * THREE.vz v))
      with (k * THREE.vz v).
    f_equal; [f_equal|]; field; split; lra.
Qed.

(** X17.  The focus selector looks at the direction of the camera only:
    moving the camera nearer to or farther from the origin along the same
    direction does not change what a frame reports. *)
Theorem focus_ignores_camera_distance (particles : list ParticleData.t)
  (mode : AppMode) (cameraPosition : V3) (k : R) :
  0 < k ->
  Visuals.FocusManager_frame particles mode (scaled k cameraPosition)
  = Visuals.FocusManager_frame particles mode cameraPosition.
Proof.
  intros Hk. unfold Visuals.FocusManager_frame.
  rewrite normalize_scaled by assumption. reflexivity.
Qed.

(** The theorem for the tree and scatter orbits of the camera. *)
Lemma focus_ignores_camera_distance_witness :
  Visuals.FocusManager_frame [Geometry.topStar; photoOnX] TREE
    (scaled (30 / 28) (28, 0, 0))
  = Visuals.FocusManager_frame [Geometry.topStar; photoOnX] TREE (28, 0, 0).
Proof.
  apply focus_ignores_camera_distance. lra.
Defined.

Lemma component_le_length (v : V3) : Rabs (THREE.vz v) <= THREE.length v.
Proof.
  destruct v as [[a b] c].
  unfold THREE.length, Math.sqrt, THREE.vx, THREE.vy, THREE.vz. simpl.
  rewrite <- sqrt_Rsqr_abs. apply sqrt_le_1; unfold Rsqr; nra.
Qed.

(** X18.  In scatter mode the target of a particle drifts around its
    scatter position by at most 0.05 along [x] and [y] and not at all in
    depth; in tree and scatter mode the target scale is 1.3 times the
    base scale for the focus candidate and the base scale otherwise, and
    the target rotation is the rest rotation. *)
Theorem scatter_target_drift (data : ParticleData.t) (mode : AppMode)
  (hoveredPhotoId : option string) (time : R) :
  mode <> ZOOM ->
  let tg := Visuals.target data mode hoveredPhotoId time in
  let rest := Visuals.restPos mode data in
  Rabs (THREE.vx (Visuals.targetPos tg) - THREE.vx rest) <= 0.05
  /\ Rabs (THREE.vy (Visuals.targetPos tg) - THREE.vy rest) <= 0.05
  /\ THREE.vz (Visuals.targetPos tg) = THREE.vz rest
  /\ (mode = TREE -> Visuals.targetPos tg = ParticleData.treePos data)
  /\ Visuals.targetScale tg
     = (if Visuals.isCandidate data hoveredPhotoId
        then ParticleData.scale data * 1.3 else ParticleData.scale data)
  /\ Visuals.targetRot tg = ParticleData.rotation data.
Proof.
  intros Hm. cbv zeta.
  assert (Hhi : Visuals.isHighlighted data mode hoveredPhotoId
                = Visuals.isCandidate data hoveredPhotoId).
  { unfold Visuals.isHighlighted.
    destruct mode; try congruence; simpl; apply andb_true_r. }
  unfold Visuals.target, Visuals.restPos. rewrite Hhi.
  destruct mode; try congruence; simpl;
    unfold THREE.vx, THREE.vy, THREE.vz; simpl.
  - destruct (ParticleData.treePos data) as [[a b] c]. simpl.
    replace (a - a) with 0 by ring. replace (b - b) with 0 by ring.
    rewrite Rabs_R0. repeat split; try lra; reflexivity.
  - pose proof
      (COS_bound (time * 0.2 + snd (fst (ParticleData.scatterPos data))))
      as Hc.
    pose proof
      (SIN_bound (time * 0.2 + fst (fst (ParticleData.scatterPos data))))
      as Hs.
    unfold Math.cos, Math.sin.
    repeat split; try reflexivity; try discriminate;
      apply Rabs_le; lra.
Qed.

(** The theorem in scatter mode, on the photo of the examples. *)
Lemma scatter_target_drift_witness :
  Rabs (THREE.vx (Visuals.targetPos (Visuals.target photoOnX SCATTER None 3))
        - THREE.vx (Visuals.restPos SCATTER photoOnX)) <= 0.05.
Proof.
  destruct (scatter_target_drift photoOnX SCATTER None 3) as [Hx _].
  - discriminate.
  - exact Hx.
Defined.

(** X19.  Zoom clears the view.  When [Math.random] returns values in
    [0, 1), every generated particle other than the selected photo has a
    zoom target at depth [-22] or farther back, behind the selected photo
    (at depth 6) as seen from the zoom camera (at depth 10). *)
Theorem zoom_pushes_others_back (rand : nat -> R) (photos : list string)
  (hoveredPhotoId : option string) (time : R) :
  unitStream rand ->
  Forall (fun p =>
            selectedZoomPhoto p ZOOM hoveredPhotoId = false ->
            THREE.vz (Visuals.targetPos
                        (Visuals.target p ZOOM hoveredPhotoId time)) <= -22)
         (Geometry.generateParticles rand photos).
Proof.
  intros Hrand.
  assert (Hback : forall p,
            THREE.length (ParticleData.scatterPos p) <= 18 ->
            selectedZoomPhoto p ZOOM hoveredPhotoId = false ->
            THREE.vz (Visuals.targetPos
                        (Visuals.target p ZOOM hoveredPhotoId time)) <= -22).
  { intros p Hlen Hsel. unfold Visuals.target.
    rewrite selected_and_photo, Hsel. simpl.
    pose proof (component_le_length (ParticleData.scatterPos p)) as Hz.
    change (THREE.vz (THREE.vx (ParticleData.scatterPos p) * 3.5,
                      THREE.vy (ParticleData.scatterPos p) * 3.5,
                      THREE.vz (ParticleData.scatterPos p) - 40))
      with (THREE.vz (ParticleData.scatterPos p) - 40).
    pose proof (Rle_abs (THREE.vz (ParticleData.scatterPos p))) as Hz'.
    lra. }
  destruct (generateParticles_detail rand photos)
    as (ps & os & -> & Hps & Hos & Hpn & Hon).
  apply Forall_app. split; [|apply Forall_app; split].
  - apply Forall_forall. intros p Hp. apply In_nth_error in Hp as [i Hi].
    destruct (Hpn i p Hi) as [_ ((k1 & k2 & k3 & Hsc) & _)].
    apply Hback. rewrite Hsc.
    destruct (scatterOf_in_ball 15 (rand k1) (rand k2) (rand k3))
      as [_ Hle]; [lra|apply Hrand|lra].
  - apply Forall_forall. intros p Hp. apply In_nth_error in Hp as [i Hi].
    destruct (Hon i p Hi) as [_ (_ & (k1 & k2 & k3 & Hsc) & _)].
    apply Hback. rewrite Hsc.
    destruct (scatterOf_in_ball 18 (rand k1) (rand k2) (rand k3))
      as [_ Hle]; [lra|apply Hrand|lra].
  - constructor; [|constructor]. apply Hback.
    unfold THREE.length, Math.sqrt, Geometry.topStar, THREE.vx, THREE.vy,
      THREE.vz.
    simpl. replace (0 * 0 + 0 * 0 + 0 * 0) with 0 by ring.
    rewrite sqrt_0. lra.
Qed.

(** The theorem on the stream that always returns one half. *)
Lemma zoom_pushes_others_back_witness :
  Forall (fun p =>
            selectedZoomPhoto p ZOOM None = false ->
            THREE.vz (Visuals.targetPos (Visuals.target p ZOOM None 0)) <= -22)
         (Geometry.generateParticles (fun _ => 0.5) ["blob:photo"%string]).
Proof.
  apply zoom_pushes_others_back. intros k. lra.
Defined.

End FocusDirection.

(** ** Photo upload *)

Section Upload.

Lemma indexed_list {A : Type} (f : nat -> A) (l : list A) :
  (forall i a, nth_error l i = Some a -> a = f i) ->
  l = map f (seq 0 (List.length l)).
Proof.
  intros Hf. apply nth_error_ext. intros i.
  destruct (nth_error l i) as [a|] eqn:E.
  - rewrite nth_error_map.
    assert (Hi : (i < List.length l)%nat)
      by (apply nth_error_Some; congruence).
    rewrite nth_error_seq.
    destruct (Nat.ltb_spec i (List.length l)); [|lia].
    simpl. rewrite (Hf i a E). reflexivity.
  - symmetry. apply nth_error_None. rewrite length_map, length_seq.
    apply nth_error_None. assumption.
Qed.

Lemma ids_of_generated (rand : nat -> R) (photos : list string) :
  map ParticleData.id (Geometry.generateParticles rand photos)
  = generatedIds (List.length photos).
Proof.
  destruct (generateParticles_shape rand photos)
    as (ps & os & -> & Hps & Hos & Hpn & Hon).
  unfold generatedIds. rewrite !map_app.
  rewrite <- Hps, <- Hos.
  rewrite <- (length_map ParticleData.id ps).
  rewrite <- (length_map ParticleData.id os).
  f_equal; [|f_equal].
  - apply indexed_list. intros i a Hi. rewrite nth_error_map in Hi.
    destruct (nth_error ps i) as [p|] eqn:Ep; [|discriminate].
    injection Hi as <-. apply (Hpn i p Ep).
  - apply indexed_list. intros i a Hi. rewrite nth_error_map in Hi.
    destruct (nth_error os i) as [p|] eqn:Ep; [|discriminate].
    injection Hi as <-. apply (Hon i p Ep).
Qed.

(** Every id of the set for [n] photos is an id of the set for more
    photos; the ids that are new are the ones of the added photos. *)
Lemma generatedIds_grow (n m : nat) (k : string) :
  (In k (generatedIds n) -> In k (generatedIds (n + m)))
  /\ (In k (generatedIds (n + m)) -> ~ In k (generatedIds n) ->
      exists j, (n <= j < n + m)%nat /\ k = JS.template "p-photo-" j).
Proof.
  unfold generatedIds. split.
  - intros Hin. apply in_app_or in Hin as [Hin|Hin];
      [|apply in_or_app; right; assumption].
    apply in_or_app. left. apply in_map_iff in Hin as (j & <- & Hj).
    apply in_map. apply in_seq in Hj. apply in_seq. lia.
  - intros Hin Hnot. apply in_app_or in Hin as [Hin|Hin].
    + apply in_map_iff in Hin as (j & <- & Hj). apply in_seq in Hj.
      exists j. split; [|reflexivity].
      destruct (Nat.lt_ge_cases j n) as [Hlt|Hge]; [|lia].
      exfalso. apply Hnot. apply in_or_app. left. apply in_map.
      apply in_seq. lia.
    + exfalso. apply Hnot. apply in_or_app. right. assumption.
Qed.

Lemma lookup_In (scene : list Visuals.Instance) (inst : Visuals.Instance) :
  NoDup (map Visuals.key scene) -> In inst scene ->
  Visuals.lookup (Visuals.key inst) scene = Some inst.
Proof.
  unfold Visuals.lookup.
  induction scene as [|a rest IH]; intros Hnd Hin; [destruct Hin|].
  simpl in Hnd. inversion Hnd as [|k l Hk Hrest]; subst. simpl.
  destruct (String.eqb_spec (Visuals.key a) (Visuals.key inst)) as [E|E].
  - destruct Hin as [->|Hin]; [reflexivity|].
    exfalso. apply Hk. rewrite E. apply in_map. assumption.
  - destruct Hin as [->|Hin]; [contradiction|]. apply IH; assumption.
Qed.

Lemma lookup_None (scene : list Visuals.Instance) (k : string) :
  ~ In k (map Visuals.key scene) -> Visuals.lookup k scene = None.
Proof.
  intros Hnot. unfold Visuals.lookup.
  destruct (find _ scene) as [inst|] eqn:E; [|reflexivity].
  apply find_some in E as [Hin Hk]. apply String.eqb_eq in Hk.
  exfalso. apply Hnot. rewrite <- Hk. apply in_map. assumption.
Qed.

Lemma sameArray_refl (a : V3) : Visuals.sameArray a a = true.
Proof.
  unfold Visuals.sameArray.
  destruct (Req_dec_T (THREE.vx a) (THREE.vx a)) as [_|N];
    [|exfalso; apply N; reflexivity].
  destruct (Req_dec_T (THREE.vy a) (THREE.vy a)) as [_|N];
    [|exfalso; apply N; reflexivity].
  destruct (Req_dec_T (THREE.vz a) (THREE.vz a)) as [_|N];
    [|exfalso; apply N; reflexivity].
  reflexivity.
Qed.

(** What a render with new data leaves of a live transform. *)
Lemma update_keeps (q : ParticleData.t) (inst : Visuals.Instance) :
  Visuals.data (Visuals.update q inst) = q
  /\ Visuals.scale (Visuals.object (Visuals.update q inst))
     = Visuals.scale (Visuals.object inst)
  /\ Visuals.rotation (Visuals.object (Visuals.update q inst))
     = Visuals.rotation (Visuals.object inst)
  /\ (ParticleData.treePos q = ParticleData.treePos (Visuals.data inst) ->
      Visuals.object (Visuals.update q inst) = Visuals.object inst)
  /\ (ParticleData.treePos q <> ParticleData.treePos (Visuals.data inst) ->
      Visuals.position (Visuals.object (Visuals.update q inst))
      = ParticleData.treePos q).
Proof.
  unfold Visuals.update, Visuals.sameArray.
  destruct (ParticleData.treePos q) as [[a b] c].
  destruct (ParticleData.treePos (Visuals.data inst)) as [[a' b'] c'].
  unfold THREE.vx, THREE.vy, THREE.vz. cbn [fst snd].
  destruct (Req_dec_T a a') as [Ea|Ea];
    [destruct (Req_dec_T b b') as [Eb|Eb];
     [destruct (Req_dec_T c c') as [Ec|Ec]|]|];
    cbn [Visuals.data Visuals.object Visuals.scale Visuals.rotation
         Visuals.position];
    repeat split; try reflexivity; try congruence.
Qed.

Lemma upload_regenerates (rand : nat -> R) (files : list string)
  (app : App.t) :
  files <> [] ->
  App.particles (App.uploadPhotos rand files app)
  = Geometry.generateParticles rand (App.photos app ++ files).
Proof.
  intros Hfiles.
  unfold App.uploadPhotos, App.regenerateEffect, App.handlePhotoUpload.
  simpl.
  destruct (Nat.ltb_spec 0 (List.length (App.photos app ++ files)))
    as [Hpos|Hzero]; [reflexivity|].
  rewrite length_app in Hzero. destruct files; [congruence|simpl in Hzero; lia].
Qed.

(** C9, as the code has it.  An upload of at least one file appends the
    new photos, and the particle set is replaced by a fresh output of the
    layout generator for the whole list.  Neither the focus id nor the
    live transforms are discarded.  The focus id, the mode and the hand
    position are not touched, and a focus id that named the photo
    particle of index [i] names the photo particle of index [i] of the
    new set, which shows the same photo.  The meshes are keyed by the
    particle id and every id of the old set is an id of the new set: the
    mesh of each old particle is kept for the new particle of that id,
    with its live scale and rotation, and with its live position unless
    the tree position of the particle has changed, in which case the
    position is set to the new tree position.  Only the particles of the
    added photos are mounted afresh. *)
Theorem upload_regenerates_and_keeps_focus (rand0 rand : nat -> R)
  (files : list string) (app : App.t) (scene : list Visuals.Instance) :
  files <> [] ->
  App.particles app = Geometry.generateParticles rand0 (App.photos app) ->
  map Visuals.key scene = map ParticleData.id (App.particles app) ->
  let app' := App.uploadPhotos rand files app in
  let scene' := Visuals.render (App.particles app') scene in
  App.photos app' = App.photos app ++ files
  /\ App.particles app' = Geometry.generateParticles rand (App.photos app')
  /\ App.hoveredPhotoId app' = App.hoveredPhotoId app
  /\ App.mode app' = App.mode app
  /\ App.handPos app' = App.handPos app
  /\ (forall i p,
        nth_error (App.particles app) i = Some p ->
        Visuals.isPhoto p = true ->
        App.hoveredPhotoId app = Some (ParticleData.id p) ->
        exists q,
          nth_error (App.particles app') i = Some q
          /\ Visuals.isPhoto q = true
          /\ ParticleData.textureUrl q = ParticleData.textureUrl p
          /\ App.hoveredPhotoId app' = Some (ParticleData.id q))
  /\ (forall inst,
        In inst scene ->
        exists q,
          In q (App.particles app')
          /\ ParticleData.id q = Visuals.key inst
          /\ In (Visuals.update q inst) scene'
          /\ Visuals.scale (Visuals.object (Visuals.update q inst))
             = Visuals.scale (Visuals.object inst)
          /\ Visuals.rotation (Visuals.object (Visuals.update q inst))
             = Visuals.rotation (Visuals.object inst)
          /\ (ParticleData.treePos q
              = ParticleData.treePos (Visuals.data inst) ->
              Visuals.object (Visuals.update q inst) = Visuals.object inst)
          /\ (ParticleData.treePos q
              <> ParticleData.treePos (Visuals.data inst) ->
              Visuals.position (Visuals.object (Visuals.update q inst))
              = ParticleData.treePos q))
  /\ (forall q,
        In q (App.particles app') ->
        ~ In (ParticleData.id q) (map Visuals.key scene) ->
        In (Visuals.mkInstance q (Visuals.mounted q)) scene'
        /\ exists j,
             (List.length (App.photos app) <= j
              < List.length (App.photos app'))%nat
             /\ ParticleData.id q = JS.template "p-photo-" j).
Proof.
  intros Hfiles Hgen Hkeys. cbv zeta.
  assert (Hnew : App.particles (App.uploadPhotos rand files app)
                 = Geometry.generateParticles rand (App.photos app ++ files))
    by (apply upload_regenerates; assumption).
  assert (Hph : App.photos (App.uploadPhotos rand files app)
                = App.photos app ++ files).
  { unfold App.uploadPhotos, App.regenerateEffect, App.handlePhotoUpload.
    simpl. destruct (0 <? _)%nat; reflexivity. }
  assert (Hrest : App.hoveredPhotoId (App.uploadPhotos rand files app)
                  = App.hoveredPhotoId app
                  /\ App.mode (App.uploadPhotos rand files app) = App.mode app
                  /\ App.handPos (App.uploadPhotos rand files app)
                     = App.handPos app).
  { unfold App.uploadPhotos, App.regenerateEffect, App.handlePhotoUpload.
    simpl. destruct (0 <? _)%nat; repeat split; reflexivity. }
  destruct Hrest as (Hfocus & Hmode & Hhand).
  assert (Hold : map Visuals.key scene
                 = generatedIds (List.length (App.photos app)))
    by (rewrite Hkeys, Hgen; apply ids_of_generated).
  assert (Hids : map ParticleData.id
                   (App.particles (App.uploadPhotos rand files app))
                 = generatedIds
                     (List.length (App.photos app) + List.length files))
    by (rewrite Hnew, ids_of_generated, length_app; reflexivity).
  assert (Hnd : NoDup (map Visuals.key scene)).
  { rewrite Hkeys, Hgen.
    destruct (generated_ids rand0 (App.photos app))
      as (ps & os & -> & _ & Hpi & Hoi).
    rewrite !map_app. simpl.
    apply NoDup_app; [|apply NoDup_app|].
    - apply (NoDup_indexed _ (JS.template "p-photo-") Hpi).
      apply template_inj.
    - apply (NoDup_indexed _ (JS.template "p-") Hoi). apply template_inj.
    - constructor; [intros []|constructor].
    - intros a Ha [<-|[]]. apply In_nth_error in Ha as [i Hi].
      specialize (Hoi i _ Hi). discriminate.
    - intros a Ha Hb. apply In_nth_error in Ha as [i Hi].
      specialize (Hpi i _ Hi). subst a.
      apply in_app_or in Hb as [Hb|[Hb|[]]].
      + apply In_nth_error in Hb as [j Hj]. specialize (Hoi j _ Hj).
        apply (photo_id_not_ornament_id i j). assumption.
      + discriminate. }
  split; [exact Hph|]. split; [rewrite Hph; exact Hnew|].
  split; [exact Hfocus|]. split; [exact Hmode|]. split; [exact Hhand|].
  split; [|split].
  - intros i p Hi Hp Hid.
    assert (Hlt : (i < List.length (App.photos app))%nat).
    { rewrite Hgen in Hi.
      destruct (generateParticles_shape rand0 (App.photos app))
        as (ps & os & Eq & Hps & Hos & Hpn & Hon).
      rewrite Eq in Hi. rewrite <- Hps.
      destruct (Nat.lt_ge_cases i (List.length ps)) as [Hlt|Hge];
        [assumption|exfalso].
      rewrite nth_error_app2 in Hi by assumption.
      apply nth_error_In in Hi. apply in_app_or in Hi as [Hi|[<-|[]]].
      - apply In_nth_error in Hi as [j Hj].
        destruct (ornamentParticle_flags j p (Hon j p Hj)) as (_ & _ & Hf).
        congruence.
      - discriminate. }
    destruct (photo_particle_at rand0 (App.photos app) i Hlt)
      as (p' & Hp' & Hidp & _ & Hurlp & _).
    rewrite <- Hgen, Hi in Hp'. injection Hp' as <-.
    destruct (photo_particle_at rand (App.photos app ++ files) i)
      as (q & Hq & Hidq & Htyq & Hurlq & _);
      [rewrite length_app; lia|].
    exists q. rewrite Hnew. split; [exact Hq|]. split; [|split].
    + unfold Visuals.isPhoto. rewrite Htyq. reflexivity.
    + rewrite Hurlq, Hurlp. apply nth_error_app1. assumption.
    + rewrite Hfocus, Hid, Hidq, Hidp. reflexivity.
  - intros inst Hinst.
    assert (Hk : In (Visuals.key inst)
                   (map ParticleData.id
                      (App.particles (App.uploadPhotos rand files app)))).
    { rewrite Hids. apply generatedIds_grow. rewrite <- Hold.
      apply in_map. assumption. }
    apply in_map_iff in Hk as (q & Hq & Hin).
    exists q. split; [exact Hin|]. split; [exact Hq|]. split.
    + unfold Visuals.render. apply in_map_iff. exists q.
      split; [|exact Hin].
      rewrite Hq, (lookup_In scene inst Hnd Hinst). reflexivity.
    + apply update_keeps.
  - intros q Hin Hnot. split.
    + unfold Visuals.render. apply in_map_iff. exists q.
      split; [|exact Hin]. rewrite (lookup_None scene _ Hnot). reflexivity.
    + rewrite Hph, length_app. apply generatedIds_grow.
      * rewrite <- Hids. apply in_map. assumption.
      * rewrite <- Hold. assumption.
Qed.

Lemma keys_of_mounted_scene (mode : AppMode) (app : App.t) :
  map Visuals.key (sceneAfterOneFrame mode app)
  = map ParticleData.id (App.particles app).
Proof.
  unfold sceneAfterOneFrame, Visuals.frame, Visuals.render.
  rewrite !map_map. apply map_ext. intros p. reflexivity.
Qed.

(** The star one frame after it has been mounted in tree mode: its scale
    and its yaw have left the values of a fresh mount. *)
Lemma star_after_one_frame :
  Visuals.scale
    (Visuals.ParticleInstance_frame Geometry.topStar TREE
       (Some "p-photo-0"%string) 0 0.1 (0, 0, 28)%R
       (Visuals.mounted Geometry.topStar))
  = (1.125, 1.125, 1.125)%R
  /\ Visuals.rotation
       (Visuals.ParticleInstance_frame Geometry.topStar TREE
          (Some "p-photo-0"%string) 0 0.1 (0, 0, 28)%R
          (Visuals.mounted Geometry.topStar))
     = (0, 0.05, 0)%R.
Proof.
  unfold Visuals.ParticleInstance_frame, Visuals.lerpSpeed, Visuals.target,
    Visuals.isSelected, Visuals.isHighlighted, Visuals.isCandidate.
  simpl. unfold THREE.MathUtils_lerp, THREE.vx, THREE.vy, THREE.vz. simpl.
  split; f_equal; try f_equal; lra.
Qed.

(** The theorem on the upload of a second photo, one frame after the
    first set has been mounted. *)
Lemma upload_regenerates_and_keeps_focus_witness :
  let before := aimedAtPhoto (fun _ => 0%R) in
  let after := App.uploadPhotos (fun _ => 0%R) ["blob:second"%string] before in
  App.particles after
  = Geometry.generateParticles (fun _ => 0%R)
      ["blob:photo"; "blob:second"]%string
  /\ App.hoveredPhotoId after = Some "p-photo-0"%string.
Proof.
  cbv zeta.
  destruct (upload_regenerates_and_keeps_focus (fun _ => 0%R) (fun _ => 0%R)
              ["blob:second"%string] (aimedAtPhoto (fun _ => 0%R))
              (sceneAfterOneFrame TREE (aimedAtPhoto (fun _ => 0%R))))
    as (Hph & Hgen & Hfocus & _).
  - discriminate.
  - rewrite aimedAtPhoto_state. reflexivity.
  - apply keys_of_mounted_scene.
  - split.
    + rewrite Hgen, Hph, aimedAtPhoto_state. reflexivity.
    + rewrite Hfocus, aimedAtPhoto_state. reflexivity.
Defined.

(** C9, as stated, fails.  With the focus on the first photo and the
    scene one frame old, the upload of a second photo changes the photo
    list and regenerates the particles; the focus id is still there, and
    the mesh of the star is the one from before the upload, with the
    scale and the yaw the frame gave it, not those of a fresh mount. *)
Lemma upload_keeps_focus_id :
  let before := aimedAtPhoto (fun _ => 0%R) in
  let scene := sceneAfterOneFrame TREE before in
  let after := App.uploadPhotos (fun _ => 0%R) ["blob:second"%string] before in
  let scene' := Visuals.render (App.particles after) scene in
  App.photos before = ["blob:photo"%string]
  /\ App.photos after = ["blob:photo"; "blob:second"]%string
  /\ App.particles after
     = Geometry.generateParticles (fun _ => 0%R)
         ["blob:photo"; "blob:second"]%string
  /\ App.hoveredPhotoId before = Some "p-photo-0"%string
  /\ App.hoveredPhotoId after = Some "p-photo-0"%string
  /\ App.hoveredPhotoId after <> None
  /\ (exists p,
        nth_error (App.particles after) 0 = Some p
        /\ ParticleData.id p = "p-photo-0"%string
        /\ ParticleData.textureUrl p = Some "blob:photo"%string)
  /\ (exists inst inst',
        In inst scene /\ In inst' scene'
        /\ Visuals.key inst = "star"%string
        /\ Visuals.key inst' = "star"%string
        /\ Visuals.object inst' = Visuals.object inst
        /\ Visuals.scale (Visuals.object inst') = (1.125, 1.125, 1.125)%R
        /\ Visuals.rotation (Visuals.object inst') = (0, 0.05, 0)%R
        /\ Visuals.object inst' <> Visuals.mounted (Visuals.data inst')).
Proof.
  cbv zeta.
  assert (Hafter : App.particles
                     (App.uploadPhotos (fun _ => 0%R) ["blob:second"%string]
                        (aimedAtPhoto (fun _ => 0%R)))
                   = Geometry.generateParticles (fun _ => 0%R)
                       ["blob:photo"; "blob:second"]%string)
    by (rewrite aimedAtPhoto_state; reflexivity).
  split; [rewrite aimedAtPhoto_state; reflexivity|].
  split; [rewrite aimedAtPhoto_state; reflexivity|].
  split; [exact Hafter|].
  split; [rewrite aimedAtPhoto_state; reflexivity|].
  split; [rewrite aimedAtPhoto_state; reflexivity|].
  split; [rewrite aimedAtPhoto_state; discriminate|].
  split.
  { rewrite Hafter.
    destruct (photo_particle_at (fun _ => 0%R)
                ["blob:photo"; "blob:second"]%string 0)
      as (p & Hnth & Hid & _ & Hurl & _); [simpl; lia|].
    exists p. repeat split; assumption. }
  set (before := aimedAtPhoto (fun _ => 0%R)).
  assert (Hfocus : App.hoveredPhotoId before = Some "p-photo-0"%string)
    by (unfold before; rewrite aimedAtPhoto_state; reflexivity).
  set (inst := Visuals.mkInstance Geometry.topStar
                 (Visuals.ParticleInstance_frame Geometry.topStar TREE
                    (Some "p-photo-0"%string) 0 0.1 (0, 0, 28)%R
                    (Visuals.mounted Geometry.topStar))).
  assert (Hstar : forall rand photos,
            In Geometry.topStar (Geometry.generateParticles rand photos)).
  { intros rand photos.
    destruct (generateParticles_shape rand photos) as (ps & os & -> & _).
    apply in_or_app. right. apply in_or_app. right. left. reflexivity. }
  assert (Hin : In inst (sceneAfterOneFrame TREE before)).
  { unfold sceneAfterOneFrame, Visuals.frame, Visuals.render.
    rewrite map_map, Hfocus. apply in_map_iff. exists Geometry.topStar.
    split; [reflexivity|].
    unfold before. rewrite aimedAtPhoto_state. apply Hstar. }
  assert (Hnd : NoDup (map Visuals.key (sceneAfterOneFrame TREE before))).
  { rewrite keys_of_mounted_scene. unfold before.
    rewrite aimedAtPhoto_state. cbn [App.particles].
    rewrite ids_of_generated.
    rewrite <- (ids_of_generated (fun _ => 0%R) ["blob:photo"%string]).
    destruct (generated_ids (fun _ => 0%R) ["blob:photo"%string])
      as (ps & os & -> & _ & Hpi & Hoi).
    rewrite !map_app. simpl.
    apply NoDup_app; [|apply NoDup_app|].
    - apply (NoDup_indexed _ (JS.template "p-photo-") Hpi).
      apply template_inj.
    - apply (NoDup_indexed _ (JS.template "p-") Hoi). apply template_inj.
    - constructor; [intros []|constructor].
    - intros a Ha [<-|[]]. apply In_nth_error in Ha as [i Hi].
      specialize (Hoi i _ Hi). discriminate.
    - intros a Ha Hb. apply In_nth_error in Ha as [i Hi].
      specialize (Hpi i _ Hi). subst a.
      apply in_app_or in Hb as [Hb|[Hb|[]]].
      + apply In_nth_error in Hb as [j Hj]. specialize (Hoi j _ Hj).
        apply (photo_id_not_ornament_id i j). assumption.
      + discriminate. }
  destruct star_after_one_frame as [Hscale Hrot].
  assert (Hupd : Visuals.update Geometry.topStar inst = inst).
  { unfold Visuals.update, inst. cbn [Visuals.data Visuals.object].
    rewrite sameArray_refl. reflexivity. }
  exists inst, inst.
  split; [exact Hin|]. split.
  { unfold Visuals.render. apply in_map_iff. exists Geometry.topStar.
    split; [|unfold before; rewrite Hafter; apply Hstar].
    change (ParticleData.id Geometry.topStar) with (Visuals.key inst).
    rewrite (lookup_In _ inst Hnd Hin). exact Hupd. }
  split; [reflexivity|]. split; [reflexivity|]. split; [reflexivity|].
  split; [exact Hscale|]. split; [exact Hrot|].
  intros Heq.
  assert (Hr : Visuals.rotation (Visuals.object inst)
               = Visuals.rotation (Visuals.mounted (Visuals.data inst)))
    by (rewrite Heq; reflexivity).
  unfold inst in Hr at 1. cbn [Visuals.object] in Hr. rewrite Hrot in Hr.
  unfold Visuals.mounted in Hr. cbn [Visuals.rotation] in Hr.
  injection Hr as Hy. lra.
Qed.

End Upload.
